(** * The configuration store of baram (coredb/coredb.py), embedded in Rocq.

    The store keeps one XML document (an lxml element tree) and offers typed
    get/set of leaf values, bulk read/write of a subtree as nested mappings,
    entity registries (materials, regions, cell zones, boundary conditions,
    monitors), an edit session with snapshot and roll-back, and persistence.

    Layout: Python builtins used by the store ([PyStr]), the element tree and
    the path dialect ([ET]), the mapping values of the bulk codec ([Bulk]),
    the store itself ([Store]), sample resources, and then the theorems. *)

From Stdlib Require Import List String Ascii Bool Arith ZArith QArith Lia.
From Stdlib Require Import DecimalString.
From Stdlib Require DecimalNat.
Import ListNotations.

Set Warnings "-register-all,-abstract-large-number".
Local Open Scope string_scope.
Local Open Scope list_scope.
Local Open Scope nat_scope.

(* ===================================================================== *)
(** ** Python builtins on strings and numbers *)
(* ===================================================================== *)

Module PyStr.

(** [str.isspace] on the ASCII range: TAB..CR, FS..US and the blank. *)
Definition isspace (c : ascii) : bool :=
  let n := nat_of_ascii c in
  ((9 <=? n) && (n <=? 13)) || ((28 <=? n) && (n <=? 32)).

Definition isdigit (c : ascii) : bool :=
  let n := nat_of_ascii c in (48 <=? n) && (n <=? 57).

Definition digit_value (c : ascii) : Z := Z.of_nat (nat_of_ascii c - 48).

Definition lower_char (c : ascii) : ascii :=
  let n := nat_of_ascii c in
  if (65 <=? n) && (n <=? 90) then ascii_of_nat (n + 32) else c.

Fixpoint lstrip_chars (l : list ascii) : list ascii :=
  match l with
  | c :: l' => if isspace c then lstrip_chars l' else l
  | [] => []
  end.

Definition strip_chars (l : list ascii) : list ascii :=
  List.rev (lstrip_chars (List.rev (lstrip_chars l))).

(** [s.strip()] *)
Definition strip (s : string) : string :=
  string_of_list_ascii (strip_chars (list_ascii_of_string s)).

(** [s.lower()] *)
Definition lower (s : string) : string :=
  string_of_list_ascii (map lower_char (list_ascii_of_string s)).

(** [s.split()]: maximal runs of non-blank characters, in order. *)
Fixpoint split_chars (cur : list ascii) (l : list ascii) : list (list ascii) :=
  match l with
  | [] => match cur with [] => [] | _ => [List.rev cur] end
  | c :: l' =>
      if isspace c
      then match cur with
           | [] => split_chars [] l'
           | _ => List.rev cur :: split_chars [] l'
           end
      else split_chars (c :: cur) l'
  end.

Definition split (s : string) : list string :=
  map string_of_list_ascii (split_chars [] (list_ascii_of_string s)).

(** [sep.join(l)] *)
Fixpoint join (sep : string) (l : list string) : string :=
  match l with
  | [] => ""
  | [x] => x
  | x :: l' => x ++ sep ++ join sep l'
  end.

(** [c in s] for a character. *)
Definition contains_char (c : ascii) (s : string) : bool :=
  existsb (Ascii.eqb c) (list_ascii_of_string s).

(** [s.startswith(p)] *)
Definition startswith (p s : string) : bool := String.prefix p s.

(** [s[1:]] *)
Definition tail (s : string) : string :=
  match s with
  | EmptyString => EmptyString
  | String _ s' => s'
  end.

(** [str(n)] for an [int]. *)
Definition str_of_Z (z : Z) : string := NilZero.string_of_int (Z.to_int z).
Definition str_of_nat (n : nat) : string := NilZero.string_of_uint (Nat.to_uint n).

(** A [digitpart] of Python's numeric grammar, [digit (["_"] digit)*]:
    the longest such prefix of [l], as its value, its number of digits and
    the remaining characters. [None] when [l] does not start with a digit. *)
Fixpoint digits_rest (acc : Z) (n : nat) (l : list ascii) : Z * nat * list ascii :=
  match l with
  | c :: l' =>
      if isdigit c then digits_rest (10 * acc + digit_value c) (S n) l'
      else if Ascii.eqb c "_"
           then match l' with
                | d :: l'' =>
                    if isdigit d
                    then digits_rest (10 * acc + digit_value d) (S n) l''
                    else (acc, n, l)
                | [] => (acc, n, l)
                end
           else (acc, n, l)
  | [] => (acc, n, l)
  end.

Definition digitpart (l : list ascii) : option (Z * nat * list ascii) :=
  match l with
  | c :: l' => if isdigit c then Some (digits_rest (digit_value c) 1 l') else None
  | [] => None
  end.

(** An optional sign: [true] for a minus. *)
Definition sign (l : list ascii) : bool * list ascii :=
  match l with
  | c :: l' =>
      if Ascii.eqb c "-" then (true, l')
      else if Ascii.eqb c "+" then (false, l')
      else (false, l)
  | [] => (false, l)
  end.

(** [int(s)] in base ten; [None] stands for [ValueError]. *)
Definition int (s : string) : option Z :=
  let (neg, l) := sign (strip_chars (list_ascii_of_string s)) in
  match digitpart l with
  | Some (v, _, []) => Some (if neg then (- v)%Z else v)
  | _ => None
  end.

(** A Python [float]: a finite value, an infinity or a NaN. *)
Inductive pyfloat : Type :=
| FFinite (q : Q)
| FInf (negative : bool)
| FNaN.

(** [number ::= [digitpart] "." digitpart | digitpart ["."]]: the mantissa as
    an integer and the number of digits after the point. *)
Definition number (l : list ascii) : option (Z * nat * list ascii) :=
  match digitpart l with
  | Some (ip, _, r) =>
      match r with
      | c :: r' =>
          if Ascii.eqb c "."
          then match digitpart r' with
               | Some (fp, fd, r'') => Some ((ip * 10 ^ Z.of_nat fd + fp)%Z, fd, r'')
               | None => Some (ip, 0, r')
               end
          else Some (ip, 0, r)
      | [] => Some (ip, 0, [])
      end
  | None =>
      match l with
      | c :: r' =>
          if Ascii.eqb c "."
          then match digitpart r' with
               | Some (fp, fd, r'') => Some (fp, fd, r'')
               | None => None
               end
          else None
      | [] => None
      end
  end.

(** [exponent ::= ("e" | "E") [sign] digitpart], absent when [l] is empty. *)
Definition exponent (l : list ascii) : option Z :=
  match l with
  | [] => Some 0%Z
  | c :: l' =>
      if Ascii.eqb (lower_char c) "e"
      then let (neg, l'') := sign l' in
           match digitpart l'' with
           | Some (v, _, []) => Some (if neg then (- v)%Z else v)
           | _ => None
           end
      else None
  end.

(** The value [m * 10^e] as a rational. *)
Definition scale10 (m e : Z) : Q :=
  if (0 <=? e)%Z then inject_Z (m * 10 ^ e)
  else Qmake m (Z.to_pos (10 ^ (- e))).

(** [float(s)]; [None] stands for [ValueError]. The decimal numeral is read
    exactly and handed to [round], the rounding of the host's binary
    floating-point format. *)
Definition float (round : Q -> pyfloat) (s : string) : option pyfloat :=
  let (neg, l) := sign (strip_chars (list_ascii_of_string s)) in
  let word := string_of_list_ascii (map lower_char l) in
  if String.eqb word "inf" || String.eqb word "infinity" then Some (FInf neg)
  else if String.eqb word "nan" then Some FNaN
  else match number l with
       | Some (m, fd, r) =>
           match exponent r with
           | Some e =>
               Some (round (scale10 (if neg then (- m)%Z else m) (e - Z.of_nat fd)))
           | None => None
           end
       | None => None
       end.

(** [x < b] and [x > b] for a float [x] and an exact bound [b]; every
    comparison with a NaN is false. *)
Definition flt (x : pyfloat) (b : Q) : bool :=
  match x with
  | FFinite q => negb (Qle_bool b q)
  | FInf negative => negative
  | FNaN => false
  end.

Definition fgt (x : pyfloat) (b : Q) : bool :=
  match x with
  | FFinite q => negb (Qle_bool q b)
  | FInf negative => negb negative
  | FNaN => false
  end.

End PyStr.

(* ===================================================================== *)
(** ** Element trees and the path dialect *)
(* ===================================================================== *)

Module ET.

(** An lxml element: tag, attributes in insertion order, text, children.
    Every element of the document lives in the one namespace of the
    configuration, so a tag is its local name. Tail text is not part of the
    model: the store never writes any. *)
Inductive Element : Type :=
  mkElement { tag : string;
              attrib : list (string * string);
              text : option string;
              children : list Element }.

(** [etree.SubElement(parent, tag)] creates [Element tag] and appends it. *)
Definition new_element (t : string) : Element := mkElement t [] None [].
Definition leaf (t : string) (s : string) : Element := mkElement t [] (Some s) [].

Definition set_text (s : option string) (e : Element) : Element :=
  mkElement (tag e) (attrib e) s (children e).

Definition append (c : Element) (e : Element) : Element :=
  mkElement (tag e) (attrib e) (text e) (children e ++ [c]).

(** [element.clear()]: only the tag survives. *)
Definition clear (e : Element) : Element := new_element (tag e).

(** Assignment to a key of an insertion-ordered mapping: an existing key
    keeps its place, a new key goes last. Used for attributes and dicts. *)
Fixpoint assoc_set {V : Type} (k : string) (v : V) (l : list (string * V)) : list (string * V) :=
  match l with
  | [] => [(k, v)]
  | (k', v') :: l' =>
      if String.eqb k' k then (k, v) :: l' else (k', v') :: assoc_set k v l'
  end.

Fixpoint assoc_get {V : Type} (k : string) (l : list (string * V)) : option V :=
  match l with
  | [] => None
  | (k', v') :: l' => if String.eqb k' k then Some v' else assoc_get k l'
  end.

(** [element.set(name, value)] *)
Definition set_attr (name value : string) (e : Element) : Element :=
  mkElement (tag e) (assoc_set name value (attrib e)) (text e) (children e).

(** A node is addressed by the child indices leading to it from the root;
    a position plays the part of Python's reference to the element. *)
Definition position := list nat.

Fixpoint get (e : Element) (p : position) : option Element :=
  match p with
  | [] => Some e
  | i :: p' =>
      match nth_error (children e) i with
      | Some c => get c p'
      | None => None
      end
  end.

Fixpoint list_update {A : Type} (i : nat) (f : A -> A) (l : list A) : list A :=
  match l, i with
  | [], _ => []
  | x :: l', O => f x :: l'
  | x :: l', S i' => x :: list_update i' f l'
  end.

Fixpoint list_remove {A : Type} (i : nat) (l : list A) : list A :=
  match l, i with
  | [], _ => []
  | _ :: l', O => l'
  | x :: l', S i' => x :: list_remove i' l'
  end.

(** In-place mutation of the element at [p]. *)
Fixpoint update (p : position) (f : Element -> Element) (e : Element) : Element :=
  match p with
  | [] => f e
  | i :: p' =>
      mkElement (tag e) (attrib e) (text e) (list_update i (update p' f) (children e))
  end.

(** [parent.remove(child)] for the child at index [i]. *)
Definition remove_child (i : nat) (e : Element) : Element :=
  mkElement (tag e) (attrib e) (text e) (list_remove i (children e)).

(** [e.iterdescendants()]: the proper descendants in document order. *)
Fixpoint iterdescendants (e : Element) : list position :=
  match e with
  | mkElement _ _ _ cs =>
      (fix go (i : nat) (l : list Element) {struct l} : list position :=
         match l with
         | [] => []
         | c :: l' => ([i] :: map (cons i) (iterdescendants c)) ++ go (S i) l'
         end) 0 cs
  end.

(** [e.itertext()] joined: the text of [e] and of its descendants. *)
Fixpoint itertext (e : Element) : string :=
  match e with
  | mkElement _ _ t cs =>
      ((match t with Some s => s | None => "" end)
       ++ (fix go (l : list Element) : string :=
             match l with
             | [] => ""
             | c :: l' => itertext c ++ go l'
             end) cs)%string
  end.

(** One location step: a tag and an optional predicate [[child="value"]]. *)
Record Step : Type := mkStep { step_tag : string; step_pred : option (string * string) }.

(** The two path shapes the store uses: [.//s1/s2/...] searched below the
    context node, and [s1/s2/...] walked from the context node. *)
Inductive Path : Type :=
| Descendant (first : Step) (rest : list Step)
| Children (steps : list Step).

Definition pred_holds (pr : option (string * string)) (e : Element) : bool :=
  match pr with
  | None => true
  | Some (t, v) =>
      existsb (fun c => String.eqb (tag c) t && String.eqb (itertext c) v) (children e)
  end.

Definition step_matches (s : Step) (e : Element) : bool :=
  String.eqb (tag e) (step_tag s) && pred_holds (step_pred s) e.

Definition matches_at (root : Element) (s : Step) (p : position) : bool :=
  match get root p with
  | Some e => step_matches s e
  | None => false
  end.

Definition child_positions (root : Element) (p : position) : list position :=
  match get root p with
  | Some e => map (fun i => p ++ [i]) (seq 0 (List.length (children e)))
  | None => []
  end.

Definition descendant_positions (root : Element) (p : position) : list position :=
  match get root p with
  | Some e => map (app p) (iterdescendants e)
  | None => []
  end.

(** A child step applied to each node of the running result, in order. *)
Definition select_child (root : Element) (s : Step) (ctx : list position) : list position :=
  flat_map (fun p => filter (matches_at root s) (child_positions root p)) ctx.

Definition select_descendant (root : Element) (s : Step) (ctx : list position) : list position :=
  flat_map (fun p => filter (matches_at root s) (descendant_positions root p)) ctx.

Definition select_steps (root : Element) (steps : list Step) (ctx : list position) : list position :=
  fold_left (fun acc s => select_child root s acc) steps ctx.

(** [findall] from the context node [ctx] of the tree [root]. *)
Definition findall_from (root : Element) (ctx : position) (path : Path) : list position :=
  match path with
  | Descendant s rest => select_steps root rest (select_descendant root s [ctx])
  | Children steps => select_steps root steps [ctx]
  end.

(** [tree.findall(path)] and [tree.find(path)]. *)
Definition findall (root : Element) (path : Path) : list position :=
  findall_from root [] path.

Definition find (root : Element) (path : Path) : option position :=
  hd_error (findall root path).

(** The values of [path/text()] and of [path/@name], in match order. *)
Definition xpath_text (root : Element) (path : Path) : list string :=
  flat_map (fun p => match get root p with
                     | Some e => match text e with Some s => [s] | None => [] end
                     | None => []
                     end) (findall root path).

Definition xpath_attr (root : Element) (path : Path) (name : string) : list string :=
  flat_map (fun p => match get root p with
                     | Some e => match assoc_get name (attrib e) with
                                 | Some s => [s]
                                 | None => []
                                 end
                     | None => []
                     end) (findall root path).

(** [e.findtext(tag)]: the text of the first child with that tag, [""] for a
    child without text, [None] without such a child. *)
Definition findtext (t : string) (e : Element) : option string :=
  match List.find (fun c => String.eqb (tag c) t) (children e) with
  | Some c => Some (match text c with Some s => s | None => "" end)
  | None => None
  end.

(** The tags from below the root down to [p]: the key under which the
    schema catalogue files the element. *)
Fixpoint tag_path (e : Element) (p : position) : list string :=
  match p with
  | [] => []
  | i :: p' =>
      match nth_error (children e) i with
      | Some c => tag c :: tag_path c p'
      | None => []
      end
  end.

(** [x in l] for strings. *)
Definition mem (x : string) (l : list string) : bool := existsb (String.eqb x) l.

(** Shorthands for writing paths. *)
Definition st (t : string) : Step := mkStep t None.
Definition st_named (t : string) (name : string) : Step := mkStep t (Some ("name", name)).

End ET.

(* ===================================================================== *)
(** ** Exceptions, soft errors and the values of the bulk codec *)
(* ===================================================================== *)

(** [class Error(Enum)] *)
Inductive Error : Type :=
| OUT_OF_RANGE
| INTEGER_ONLY
| FLOAT_ONLY
| REFERENCED
| EMPTY.

(** The exceptions the store raises or lets through. [Cancel] is the
    store's own; [DocumentInvalid] and [XMLSyntaxError] come from the
    validating parser of the tree library. *)
Inductive Exn : Type :=
| Cancel
| LookupError
| ValueError
| RuntimeError
| FileExistsError
| OverflowError
| AssertionError
| TypeError
| AttributeError
| KeyError
| OSError
| DocumentInvalid
| XMLSyntaxError.

Definition Exn_eqb (a b : Exn) : bool :=
  match a, b with
  | Cancel, Cancel | LookupError, LookupError | ValueError, ValueError
  | RuntimeError, RuntimeError | FileExistsError, FileExistsError
  | OverflowError, OverflowError | AssertionError, AssertionError
  | TypeError, TypeError | AttributeError, AttributeError
  | KeyError, KeyError | OSError, OSError
  | DocumentInvalid, DocumentInvalid | XMLSyntaxError, XMLSyntaxError => true
  | _, _ => false
  end.

Module Bulk.
Import ET.

(** The Python values a caller hands to [setBulk] and gets from [getBulk]:
    scalars, insertion-ordered dicts with string keys, and lists. Keys are
    taken to be XML names where they name an element or an attribute: the
    tree library's refusal of other names is outside the model. *)
Inductive PyVal : Type :=
| PStr (s : string)
| PInt (z : Z)
| PBool (b : bool)
| PNone
| PDict (items : list (string * PyVal))
| PList (members : list PyVal).

(** [str(v)]. The text Python prints for a dict or a list is left to
    [repr], which the caller supplies. *)
Definition str (repr : PyVal -> string) (v : PyVal) : string :=
  match v with
  | PStr s => s
  | PInt z => PyStr.str_of_Z z
  | PBool true => "True"
  | PBool false => "False"
  | PNone => "None"
  | _ => repr v
  end.

(** [a == b]: dicts compare by key, whatever the insertion order; lists
    compare member by member; [True] and [False] are the integers 1, 0. *)
Fixpoint py_eq (a b : PyVal) {struct a} : bool :=
  match a, b with
  | PStr s, PStr s' => String.eqb s s'
  | PInt z, PInt z' => Z.eqb z z'
  | PInt z, PBool b' => Z.eqb z (if b' then 1 else 0)
  | PBool a', PInt z' => Z.eqb (if a' then 1 else 0) z'
  | PBool a', PBool b' => Bool.eqb a' b'
  | PNone, PNone => true
  | PDict d, PDict d' =>
      Nat.eqb (List.length d) (List.length d')
      && (fix each (l : list (string * PyVal)) : bool :=
            match l with
            | [] => true
            | (k, v) :: l' =>
                match assoc_get k d' with
                | Some v' => py_eq v v' && each l'
                | None => false
                end
            end) d
  | PList l, PList l' =>
      (fix each (m m' : list PyVal) {struct m} : bool :=
         match m, m' with
         | [], [] => true
         | x :: r, x' :: r' => py_eq x x' && each r r'
         | _, _ => false
         end) l l'
  | _, _ => false
  end.

Section Codec.
Variable repr : PyVal -> string.

(** [_setBulkInternal(element, data)]: the element after the call, and the
    exception that stopped it, if any. What was built before an exception
    stays attached, as in the source, where [SubElement] appends at once. *)
Fixpoint setBulkInternal (element : Element) (data : PyVal) {struct data}
  : Element * option Exn :=
  match data with
  | PDict items =>
      (fix each (l : list (string * PyVal)) (element : Element) {struct l}
         : Element * option Exn :=
         match l with
         | [] => (element, None)
         | (k, v) :: l' =>
             let (element', exn) :=
               if PyStr.startswith "@" k then
                 match v with
                 | PStr s => (set_attr (PyStr.tail k) s element, None)
                 | _ => (element, Some TypeError)
                 end
               else if PyStr.startswith "$" k then
                 (set_text (Some (str repr v)) element, None)
               else
                 match v with
                 | PDict _ =>
                     let (child, x) := setBulkInternal (new_element k) v in
                     (append child element, x)
                 | PList members =>
                     match members with
                     | [] => (append (new_element k) element, None)
                     | PDict _ :: _ =>
                         (fix every (m : list PyVal) (element : Element) {struct m}
                            : Element * option Exn :=
                            match m with
                            | [] => (element, None)
                            | item :: m' =>
                                match item with
                                | PDict _ =>
                                    let (child, x) := setBulkInternal (new_element k) item in
                                    match x with
                                    | None => every m' (append child element)
                                    | Some _ => (append child element, x)
                                    end
                                | _ => (element, Some ValueError)
                                end
                            end) members element
                     | _ =>
                         (fold_left (fun el item => append (leaf k (str repr item)) el)
                                    members element, None)
                     end
                 | _ => (append (leaf k (str repr v)) element, None)
                 end in
             match exn with
             | None => each l' element'
             | Some _ => (element', exn)
             end
         end) items element
  | _ => (element, Some AttributeError)
  end.

End Codec.

(** One child's result entered into [data] under its tag: a second result
    under a tag turns the entry into a list, later ones are appended. *)
Definition add_result (t : string) (result : PyVal) (data : list (string * PyVal))
  : list (string * PyVal) :=
  match assoc_get t data with
  | Some (PList members) => assoc_set t (PList (members ++ [result])) data
  | Some first => assoc_set t (PList [first; result]) data
  | None => assoc_set t result data
  end.

Definition add_attr (data : list (string * PyVal)) (kv : string * string)
  : list (string * PyVal) :=
  assoc_set ("@" ++ fst kv)%string (PStr (snd kv)) data.

(** [_getBulkInternal(element)] *)
Fixpoint getBulkInternal (element : Element) : PyVal :=
  match element with
  | mkElement _ attrs txt cs =>
      let data :=
        (fix each (l : list Element) (data : list (string * PyVal)) {struct l}
           : list (string * PyVal) :=
           match l with
           | [] => data
           | child :: l' => each l' (add_result (tag child) (getBulkInternal child) data)
           end) cs (fold_left add_attr attrs []) in
      match txt with
      | Some s =>
          match data with
          | [] => PStr s
          | _ => PDict (assoc_set "$" (PStr s) data)
          end
      | None => PDict data
      end
  end.

End Bulk.

(* ===================================================================== *)
(** ** The store *)
(* ===================================================================== *)

Module Store.
Import ET Bulk.

(** What [setValue] reads off [schema.type], the type the schema catalogue
    declares for an element. *)
Record SchemaType : Type := mkSchemaType {
  has_simple_content : bool;
  local_name : string;
  base_type : option string;          (* [base_type.local_name], if any *)
  is_decimal : bool;
  is_simple : bool;
  min_value : option Q;
  max_value : option Q;
  content_primitive_name : string;    (* [content.primitive_type.local_name] *)
  content_min_value : option Q;
  content_max_value : option Q;
  is_restriction : bool;
  enumeration : option (list string)
}.

(** A row of the material database, every property already printed by [str];
    [None] is an empty cell. *)
Record MaterialRow : Type := mkMaterialRow {
  chemicalFormula : option string;
  phase : option string;
  molecularWeight : option string;
  absorptionCoefficient : option string;
  surfaceTension : option string;
  saturationPressure : option string;
  emissivity : option string;
  density : option string;
  specificHeat : option string;
  viscosity : option string;
  thermalConductivity : option string;
  sutherlandCoefficient : option string;
  sutherlandTemperature : option string
}.

(** The resource files and library behaviour the store is built on: the
    schema (its catalogue of types and its validity check), the document
    and entity templates, the material database, the rounding of [float]
    and the printing of containers. *)
Record Resources : Type := mkResources {
  schema_find : list string -> option SchemaType;
  schema_valid : Element -> bool;
  float_round : Q -> PyStr.pyfloat;
  container_repr : PyVal -> string;
  XML_PATH : Element;
  CELL_ZONE_PATH : Element;
  BOUNDARY_CONDITION_PATH : Element;
  FORCE_MONITOR_PATH : Element;
  POINT_MONITOR_PATH : Element;
  SURFACE_MONITOR_PATH : Element;
  VOLUME_MONITOR_PATH : Element;
  materialDB : list (string * MaterialRow)
}.

Definition FORCE_MONITOR_DEFAULT_NAME := "force-mon-".
Definition POINT_MONITOR_DEFAULT_NAME := "point-mon-".
Definition SURFACE_MONITOR_DEFAULT_NAME := "surface-mon-".
Definition VOLUME_MONITOR_DEFAULT_NAME := "volume-mon-".

Definition MONITOR_MAX_INDEX := 100.
Definition MATERIAL_MAX_INDEX := 1000.
Definition CELL_ZONE_MAX_INDEX := 1000.
Definition BOUNDARY_CONDITION_MAX_INDEX := 10000.

(** A container file: its [configuration] dataset, if present, with whether
    its type is a string type, and the document written to it. *)
Record H5File : Type := mkH5File { configuration : option (bool * Element) }.

(** The fields of the store object, and the files it saves to. *)
Record CoreDB : Type := mkCoreDB {
  _modified : bool;
  _filePath : option string;
  _inContext : bool;
  _backupTree : option Element;
  _lastError : option Error;
  _xmlTree : Element;
  files : list (string * H5File)
}.

Definition set_modified (b : bool) (self : CoreDB) : CoreDB :=
  mkCoreDB b (_filePath self) (_inContext self) (_backupTree self)
           (_lastError self) (_xmlTree self) (files self).

Definition set_lastError (e : option Error) (self : CoreDB) : CoreDB :=
  mkCoreDB (_modified self) (_filePath self) (_inContext self) (_backupTree self)
           e (_xmlTree self) (files self).

Definition set_xmlTree (t : Element) (self : CoreDB) : CoreDB :=
  mkCoreDB (_modified self) (_filePath self) (_inContext self) (_backupTree self)
           (_lastError self) t (files self).

(** Mutation of the element at [p] of the document. *)
Definition mutate (p : position) (f : Element -> Element) (self : CoreDB) : CoreDB :=
  set_xmlTree (update p f (_xmlTree self)) self.

(** A call returns a value or raises; either way the store is left in the
    state the call had reached. *)
Inductive Result (A : Type) : Type :=
| Return (a : A)
| Raise (e : Exn).
Arguments Return {A} a.
Arguments Raise {A} e.

Definition M (A : Type) : Type := CoreDB -> CoreDB * Result A.

Definition ret {A} (a : A) : M A := fun self => (self, Return a).
Definition raise {A} (e : Exn) : M A := fun self => (self, Raise e).
Definition bind {A B} (c : M A) (k : A -> M B) : M B :=
  fun self =>
    match c self with
    | (self', Return a) => k a self'
    | (self', Raise e) => (self', Raise e)
    end.

Notation "x <- c ;; k" := (bind c (fun x => k))
  (at level 61, c at next level, right associativity).
Notation "c ;;; k" := (bind c (fun _ => k))
  (at level 61, right associativity).

Section WithResources.
Variable R : Resources.

(** [self._xmlSchema.assertValid(self._xmlTree)] *)
Definition assertValid : M unit :=
  fun self =>
    if schema_valid R (_xmlTree self) then (self, Return tt)
    else (self, Raise DocumentInvalid).

(** [findall] followed by [if len(elements) != 1: raise LookupError]. *)
Definition single (xpath : Path) : M position :=
  fun self =>
    match findall (_xmlTree self) xpath with
    | [element] => (self, Return element)
    | _ => (self, Raise LookupError)
    end.

Definition element_at (p : position) (self : CoreDB) : Element :=
  match get (_xmlTree self) p with
  | Some e => e
  | None => new_element ""
  end.

Definition getAttribute (xpath : Path) (name : string) : M string :=
  element <- single xpath ;;
  fun self =>
    match assoc_get name (attrib (element_at element self)) with
    | Some value => (self, Return value)
    | None => (self, Raise LookupError)
    end.

Definition setAttribute (xpath : Path) (name value : string) : M unit :=
  element <- single xpath ;;
  fun self =>
    match assoc_get name (attrib (element_at element self)) with
    | Some _ => (mutate element (set_attr name value) self, Return tt)
    | None => (self, Raise LookupError)
    end.

(** The schema entry of the element at [p]: [self._schema.find] on its path,
    refusing an absent entry and a type without simple content. *)
Definition leaf_schema (p : position) : M SchemaType :=
  fun self =>
    match schema_find R (tag_path (_xmlTree self) p) with
    | None => (self, Raise LookupError)
    | Some schema =>
        if has_simple_content schema then (self, Return schema)
        else (self, Raise LookupError)
    end.

Definition getValue (xpath : Path) : M (option string) :=
  element <- single xpath ;;
  _ <- leaf_schema element ;;
  fun self => (self, Return (text (element_at element self))).

(** [return Error.X] after [self._lastError = Error.X]. *)
Definition fail_with (e : Error) : M (option Error) :=
  fun self => (set_lastError (Some e) self, Return (Some e)).

(** [element.text = s] followed by [self._modified = True]. *)
Definition store_text (element : position) (s : string) : M unit :=
  fun self => (set_modified true (mutate element (set_text (Some s)) self), Return tt).

(** [minValue is not None and decimal < minValue] and its mirror. *)
Definition below (decimal : PyStr.pyfloat) (minValue : option Q) : bool :=
  match minValue with
  | Some lo => PyStr.flt decimal lo
  | None => false
  end.

Definition above (decimal : PyStr.pyfloat) (maxValue : option Q) : bool :=
  match maxValue with
  | Some hi => PyStr.fgt decimal hi
  | None => false
  end.

Definition of_int (z : Z) : PyStr.pyfloat := PyStr.FFinite (inject_Z z).

(** ['integer' in name] *)
Fixpoint contains (needle s : string) : bool :=
  String.prefix needle s
  || match s with
     | EmptyString => false
     | String _ s' => contains needle s'
     end.

Definition is_inputNumberType (schema : SchemaType) : bool :=
  String.eqb (local_name schema) "inputNumberType"
  || match base_type schema with
     | Some b => String.eqb b "inputNumberType"
     | None => false
     end.

(** The range check and the store shared by the two scalar branches. *)
Definition check_and_store (element : position) (value : string)
    (decimal : PyStr.pyfloat) (minValue maxValue : option Q) : M (option Error) :=
  if below decimal minValue then fail_with OUT_OF_RANGE
  else if above decimal maxValue then fail_with OUT_OF_RANGE
  else store_text element (PyStr.strip (PyStr.lower value)) ;;;
       assertValid ;;; ret None.

Definition setValue (xpath : Path) (value : string) : M (option Error) :=
  element <- single xpath ;;
  schema <- leaf_schema element ;;
  if is_inputNumberType schema then
    match PyStr.float (float_round R) value with
    | None => fail_with FLOAT_ONLY
    | Some decimal =>
        check_and_store element value decimal (min_value schema) (max_value schema)
    end
  else if String.eqb (local_name schema) "inputNumberListType" then
    let numbers := PyStr.split value in
    if forallb (fun n => match PyStr.float (float_round R) n with
                         | Some _ => true
                         | None => false
                         end) numbers
    then store_text element (PyStr.join " " numbers) ;;; assertValid ;;; ret None
    else fail_with FLOAT_ONLY
  else if is_decimal schema then
    let name := PyStr.lower (if is_simple schema then local_name schema
                             else content_primitive_name schema) in
    let minValue := if is_simple schema then min_value schema
                    else content_min_value schema in
    let maxValue := if is_simple schema then max_value schema
                    else content_max_value schema in
    if contains "integer" name then
      match PyStr.int value with
      | None => fail_with INTEGER_ONLY
      | Some decimal => check_and_store element value (of_int decimal) minValue maxValue
      end
    else
      match PyStr.float (float_round R) value with
      | None => fail_with FLOAT_ONLY
      | Some decimal => check_and_store element value decimal minValue maxValue
      end
  else
    if is_restriction schema then
      match enumeration schema with
      | None => raise TypeError
      | Some allowed =>
          if mem value allowed
          then store_text element (PyStr.strip value) ;;; assertValid ;;; ret None
          else raise ValueError
      end
    else store_text element (PyStr.strip value) ;;; assertValid ;;; ret None.

(** [setBulk]: the matched element is cleared and rebuilt in place; an
    exception from the rebuilding leaves what was built so far. *)
Definition setBulk (xpath : Path) (value : PyVal) : M unit :=
  fun self =>
    if negb (_inContext self) then (self, Raise RuntimeError)
    else match value with
         | PDict _ =>
             match findall (_xmlTree self) xpath with
             | [element] =>
                 let (built, exn) :=
                   setBulkInternal (container_repr R)
                                   (clear (element_at element self)) value in
                 let self' := mutate element (fun _ => built) self in
                 match exn with
                 | Some e => (self', Raise e)
                 | None => assertValid self'
                 end
             | _ => (self, Raise LookupError)
             end
         | _ => (self, Raise ValueError)
         end.

Definition getBulk (xpath : Path) : M PyVal :=
  element <- single xpath ;;
  fun self => (self, Return (getBulkInternal (element_at element self))).

(** [__enter__] *)
Definition enter : M unit :=
  fun self =>
    (mkCoreDB (_modified self) (_filePath self) true (Some (_xmlTree self))
              None (_xmlTree self) (files self), Return tt).

(** [__exit__(eType, ...)]: [true] when the exception is swallowed. Inside
    [with] the backup is the snapshot taken by [__enter__]. Called without
    a backup the source would assign [None] to the tree; the model, whose
    tree is never absent, keeps the tree in that case. *)
Definition exit (eType : option Exn) : M bool :=
  fun self =>
    let tree :=
      match _lastError self, eType with
      | None, None => _xmlTree self
      | _, _ => match _backupTree self with
                | Some backup => backup
                | None => _xmlTree self
                end
      end in
    (mkCoreDB (_modified self) (_filePath self) false None None tree (files self),
     Return (match eType with
             | Some Cancel => true
             | _ => false
             end)).

(** [with self: body] *)
Definition with_ {A} (body : M A) : M (option A) :=
  fun self =>
    let (s0, _) := enter self in
    match body s0 with
    | (s1, Return a) => let (s2, _) := exit None s1 in (s2, Return (Some a))
    | (s1, Raise e) =>
        match exit (Some e) s1 with
        | (s2, Return true) => (s2, Return None)
        | (s2, _) => (s2, Raise e)
        end
    end.

(** [for index in range(1, maxIndex): if str(index) not in idList: break]
    with [else: raise OverflowError]; [None] is the [else]. *)
Definition free_index (maxIndex : nat) (idList : list string) : option nat :=
  List.find (fun index => negb (mem (PyStr.str_of_nat index) idList))
            (seq 1 (maxIndex - 1)).

(** [self._materialDB[name]] *)
Definition db_row (name : string) : option MaterialRow := assoc_get name (materialDB R).

(** [_materialPropertySubElement]: no element for an empty cell. *)
Definition _materialPropertySubElement (t : string) (cell : option string) : list Element :=
  match cell with
  | Some s => [leaf t s]
  | None => []
  end.

(** The [material] element [addMaterial] builds under [materials]. *)
Definition material_element (index : nat) (name : string) (mdb : MaterialRow) : Element :=
  let specification := leaf "specification" "constant" in
  let polynomial := leaf "polynomial" "" in
  mkElement "material" [("mid", PyStr.str_of_nat index)] None
    ([leaf "name" name]
     ++ _materialPropertySubElement "chemicalFormula" (chemicalFormula mdb)
     ++ _materialPropertySubElement "phase" (phase mdb)
     ++ _materialPropertySubElement "molecularWeight" (molecularWeight mdb)
     ++ _materialPropertySubElement "absorptionCoefficient" (absorptionCoefficient mdb)
     ++ _materialPropertySubElement "surfaceTension" (surfaceTension mdb)
     ++ _materialPropertySubElement "saturationPressure" (saturationPressure mdb)
     ++ _materialPropertySubElement "emissivity" (emissivity mdb)
     ++ [mkElement "density" [] None
           (specification :: _materialPropertySubElement "constant" (density mdb))]
     ++ [mkElement "specificHeat" [] None
           (specification :: _materialPropertySubElement "constant" (specificHeat mdb)
            ++ [polynomial])]
     ++ match viscosity mdb with
        | Some _ =>
            [mkElement "viscosity" [] None
               (specification :: _materialPropertySubElement "constant" (viscosity mdb)
                ++ [polynomial]
                ++ match phase mdb with
                   | Some ph =>
                       if String.eqb ph "gas"
                       then [mkElement "sutherland" [] None
                               (_materialPropertySubElement "coefficient"
                                  (sutherlandCoefficient mdb)
                                ++ _materialPropertySubElement "temperature"
                                  (sutherlandTemperature mdb))]
                       else []
                   | None => []
                   end)]
        | None => []
        end
     ++ [mkElement "thermalConductivity" [] None
           (specification :: _materialPropertySubElement "constant" (thermalConductivity mdb)
            ++ [polynomial])]).

Definition materials_path : Path := Descendant (st "materials") [].
Definition material_path : Path := Descendant (st "materials") [st "material"].

(** One row of [getMaterials] per matched element, in match order. *)
Fixpoint material_rows (root : Element) (elements : list position)
  : Result (list (Z * option string * option string * option string)) :=
  match elements with
  | [] => Return []
  | p :: rest =>
      match get root p with
      | None => Raise LookupError
      | Some e =>
          match assoc_get "mid" (attrib e) with
          | None => Raise KeyError
          | Some mid =>
              match PyStr.int mid with
              | None => Raise ValueError
              | Some id =>
                  match material_rows root rest with
                  | Return rows =>
                      Return ((id, findtext "name" e, findtext "chemicalFormula" e,
                               findtext "phase" e) :: rows)
                  | Raise x => Raise x
                  end
              end
          end
      end
  end.

Definition getMaterials : M (list (Z * option string * option string * option string)) :=
  fun self =>
    (self, material_rows (_xmlTree self) (findall (_xmlTree self) material_path)).

Definition getMaterialsFromDB : list (string * option string * option string) :=
  map (fun kv => (fst kv, chemicalFormula (snd kv), phase (snd kv))) (materialDB R).

Definition addMaterial (name : string) : M nat :=
  fun self =>
    let root := _xmlTree self in
    match db_row name with
    | None => (self, Raise LookupError)
    | Some mdb =>
        match find root (Descendant (st "materials") [st_named "material" name]) with
        | Some _ => (self, Raise FileExistsError)
        | None =>
            let idList := xpath_attr root material_path "mid" in
            match free_index MATERIAL_MAX_INDEX idList with
            | None => (self, Raise OverflowError)
            | Some index =>
                match find root materials_path with
                | None => (self, Raise TypeError)
                | Some materialsElement =>
                    (assertValid ;;; ret index)
                      (mutate materialsElement
                              (append (material_element index name mdb)) self)
                end
            end
        end
    end.

(** The index of a node among its parent's children. *)
Definition child_index (p : position) : nat := List.last p 0.

Definition removeMaterial (name : string) : M (option Error) :=
  fun self =>
    let root := _xmlTree self in
    match find root materials_path with
    | None => (self, Raise AttributeError)
    | Some parent =>
        match hd_error (findall_from root parent (Children [st_named "material" name])) with
        | None => (self, Raise LookupError)
        | Some material =>
            (* check if the material is referenced by other elements *)
            match assoc_get "mid" (attrib (element_at material self)) with
            | None => (self, Raise KeyError)
            | Some mid =>
                let idList :=
                  xpath_text root (Descendant (st "cellZones") [st "region"; st "material"]) in
                if mem mid idList then (self, Return (Some REFERENCED))
                else if Nat.eqb (List.length (findall root material_path)) 1
                then (self, Return (Some EMPTY))  (* this is the last material in the list *)
                else (mutate parent (remove_child (child_index material)) self, Return None)
            end
        end
    end.

(** [e.find(t).text = s] on a template root: [None] when [e] has no such
    child, where the source fails on [None.text]. *)
Fixpoint set_first_child_text (t s : string) (cs : list Element) : option (list Element) :=
  match cs with
  | [] => None
  | c :: cs' =>
      if String.eqb (tag c) t then Some (set_text (Some s) c :: cs')
      else match set_first_child_text t s cs' with
           | Some r => Some (c :: r)
           | None => None
           end
  end.

Definition set_child_text (t s : string) (e : Element) : option Element :=
  match set_first_child_text t s (children e) with
  | Some cs => Some (mkElement (tag e) (attrib e) (text e) cs)
  | None => None
  end.

Definition addRegion (rname : string) : M unit :=
  fun self =>
    let root := _xmlTree self in
    match find root (Descendant (st "regions") [st_named "region" rname]) with
    | Some _ => (self, Raise FileExistsError)
    | None =>
        match find root (Descendant (st "regions") []) with
        | None => (self, Raise TypeError)
        | Some parent =>
            let begun := mkElement "region" [] None [leaf "name" rname] in
            let self1 := mutate parent (append begun) self in
            (* set default material for the region *)
            match getMaterials self1 with
            | (_, Raise x) => (self1, Raise x)
            | (_, Return []) => (self1, Raise AssertionError)  (* One material should exist *)
            | (_, Return ((mid, _, _, _) :: _)) =>
                let region :=
                  mkElement "region" [] None
                    [leaf "name" rname;
                     leaf "material" (PyStr.str_of_Z mid);
                     mkElement "cellZones" [] None [CELL_ZONE_PATH R];
                     new_element "boundaryConditions"] in
                (assertValid ;;; ret tt) (mutate parent (append region) self)
            end
        end
    end.

Definition getRegions : M (list string) :=
  fun self => (self, Return (xpath_text (_xmlTree self)
                                        (Descendant (st "region") [st "name"]))).

(** The common course of [addCellZone] and [addBoundaryCondition]: the
    template gets its name (and more, by [patch]) and the new id, and is
    appended to the container of the region. *)
Definition add_scoped (maxIndex : nat) (rname ename container entity idattr : string)
    (template : Element) (patch : Element -> option Element) : M nat :=
  fun self =>
    let root := _xmlTree self in
    let scope := Descendant (st_named "region" rname) [st container] in
    match find root (Descendant (st_named "region" rname)
                                [st container; st_named entity ename]) with
    | Some _ => (self, Raise FileExistsError)
    | None =>
        let idList := xpath_attr root (Descendant (st_named "region" rname)
                                                  [st container; st entity]) idattr in
        match free_index maxIndex idList with
        | None => (self, Raise OverflowError)
        | Some index =>
            match set_child_text "name" ename template with
            | None => (self, Raise AttributeError)
            | Some named =>
                match patch (set_attr idattr (PyStr.str_of_nat index) named) with
                | None => (self, Raise AttributeError)
                | Some entity_element =>
                    match find root scope with
                    | None => (self, Raise AttributeError)
                    | Some parent =>
                        (assertValid ;;; ret index)
                          (mutate parent (append entity_element) self)
                    end
                end
            end
        end
    end.

Definition addCellZone (rname zname : string) : M nat :=
  add_scoped CELL_ZONE_MAX_INDEX rname zname "cellZones" "cellZone" "czid"
             (CELL_ZONE_PATH R) Some.

Definition addBoundaryCondition (rname bname : string) (geometricalType : option string)
  : M nat :=
  add_scoped BOUNDARY_CONDITION_MAX_INDEX rname bname
             "boundaryConditions" "boundaryCondition" "bcid"
             (BOUNDARY_CONDITION_PATH R)
             (fun bc => match geometricalType with
                        | Some g => set_child_text "geometricalType" g bc
                        | None => Some bc
                        end).

(** Rows of [getCellZones] and [getBoundaryConditions]: the id and the text
    of the listed children, which must exist. *)
Fixpoint entity_rows (root : Element) (idattr : string) (fields : list string)
    (elements : list position) : Result (list (Z * list (option string))) :=
  match elements with
  | [] => Return []
  | p :: rest =>
      match get root p with
      | None => Raise LookupError
      | Some e =>
          match assoc_get idattr (attrib e) with
          | None => Raise KeyError
          | Some i =>
              match PyStr.int i with
              | None => Raise ValueError
              | Some id =>
                  if forallb (fun f => existsb (fun c => String.eqb (tag c) f) (children e))
                             fields
                  then match entity_rows root idattr fields rest with
                       | Return rows =>
                           Return ((id, map (fun f =>
                                               match List.find (fun c => String.eqb (tag c) f)
                                                               (children e) with
                                               | Some c => text c
                                               | None => None
                                               end) fields) :: rows)
                       | Raise x => Raise x
                       end
                  else Raise AttributeError
              end
          end
      end
  end.

Definition getCellZones (rname : string) : M (list (Z * list (option string))) :=
  fun self =>
    (self, entity_rows (_xmlTree self) "czid" ["name"]
             (findall (_xmlTree self)
                (Descendant (st_named "region" rname) [st "cellZones"; st "cellZone"]))).

Definition getBoundaryConditions (rname : string) : M (list (Z * list (option string))) :=
  fun self =>
    (self, entity_rows (_xmlTree self) "bcid" ["name"; "physicalType"]
             (findall (_xmlTree self)
                (Descendant (st_named "region" rname)
                            [st "boundaryConditions"; st "boundaryCondition"]))).

(** The four monitor registries differ in their group, tag, name prefix
    and template only. *)
Definition monitor_names (group kind : string) (root : Element) : list string :=
  xpath_text root (Descendant (st "monitors") [st group; st kind; st "name"]).

Definition free_name (prefix : string) (names : list string) : option string :=
  List.find (fun monitorName => negb (mem monitorName names))
            (map (fun index => (prefix ++ PyStr.str_of_nat index)%string)
                 (seq 1 (MONITOR_MAX_INDEX - 1))).

Definition add_monitor (group kind prefix : string) (template : Element) : M string :=
  fun self =>
    let root := _xmlTree self in
    match free_name prefix (monitor_names group kind root) with
    | None => (self, Raise OverflowError)
    | Some monitorName =>
        match set_child_text "name" monitorName template with
        | None => (self, Raise AttributeError)
        | Some monitor =>
            match find root (Descendant (st "monitors") [st group]) with
            | None => (self, Raise AttributeError)
            | Some parent =>
                (assertValid ;;; ret monitorName) (mutate parent (append monitor) self)
            end
        end
    end.

(** [parent.remove(monitor)] raises [ValueError] unless [monitor] is a
    child of [parent]. *)
Definition remove_monitor (group kind name : string) : M unit :=
  fun self =>
    let root := _xmlTree self in
    match find root (Descendant (st "monitors") [st group; st_named kind name]) with
    | None => (self, Raise LookupError)
    | Some monitor =>
        match find root (Descendant (st "monitors") [st group]) with
        | None => (self, Raise AttributeError)
        | Some parent =>
            if list_eq_dec Nat.eq_dec monitor (parent ++ [child_index monitor])
            then (mutate parent (remove_child (child_index monitor)) self, Return tt)
            else (self, Raise ValueError)
        end
    end.

Definition get_monitors (group kind : string) : M (list string) :=
  fun self => (self, Return (monitor_names group kind (_xmlTree self))).

Definition addForceMonitor : M string :=
  add_monitor "forces" "forceMonitor" FORCE_MONITOR_DEFAULT_NAME (FORCE_MONITOR_PATH R).
Definition removeForceMonitor (name : string) : M unit :=
  remove_monitor "forces" "forceMonitor" name.
Definition getForceMonitors : M (list string) := get_monitors "forces" "forceMonitor".

Definition addPointMonitor : M string :=
  add_monitor "points" "pointMonitor" POINT_MONITOR_DEFAULT_NAME (POINT_MONITOR_PATH R).
Definition removePointMonitor (name : string) : M unit :=
  remove_monitor "points" "pointMonitor" name.
Definition getPointMonitors : M (list string) := get_monitors "points" "pointMonitor".

Definition addSurfaceMonitor : M string :=
  add_monitor "surfaces" "surfaceMonitor" SURFACE_MONITOR_DEFAULT_NAME
              (SURFACE_MONITOR_PATH R).
Definition removeSurfaceMonitor (name : string) : M unit :=
  remove_monitor "surfaces" "surfaceMonitor" name.
Definition getSurfaceMonitors : M (list string) := get_monitors "surfaces" "surfaceMonitor".

Definition addVolumeMonitor : M string :=
  add_monitor "volumes" "volumeMonitor" VOLUME_MONITOR_DEFAULT_NAME (VOLUME_MONITOR_PATH R).
Definition removeVolumeMonitor (name : string) : M unit :=
  remove_monitor "volumes" "volumeMonitor" name.
Definition getVolumeMonitors : M (list string) := get_monitors "volumes" "volumeMonitor".

Definition isModified (self : CoreDB) : bool := _modified self.

(** [saveAs]: the file is created or truncated and holds the document in a
    string dataset. *)
Definition saveAs (path : string) : M unit :=
  fun self =>
    (mkCoreDB false (Some path) (_inContext self) (_backupTree self) (_lastError self)
              (_xmlTree self)
              (assoc_set path (mkH5File (Some (true, _xmlTree self))) (files self)),
     Return tt).

Definition save : M unit :=
  fun self =>
    match _filePath self with
    | None => (self, Raise TypeError)
    | Some path =>
        match assoc_get path (files self) with
        | None => (self, Raise OSError)
        | Some f =>
            match configuration f with
            | None => (self, Raise KeyError)
            | Some (string_dtype, _) =>
                if string_dtype
                then (mkCoreDB false (_filePath self) (_inContext self) (_backupTree self)
                               (_lastError self) (_xmlTree self)
                               (assoc_set path (mkH5File (Some (true, _xmlTree self)))
                                          (files self)),
                      Return tt)
                else (self, Raise ValueError)
            end
        end
    end.

(** [load]: the stored document goes through the validating parser and
    replaces the tree. *)
Definition load (path : string) : M unit :=
  fun self =>
    match assoc_get path (files self) with
    | None => (self, Raise OSError)
    | Some f =>
        match configuration f with
        | None => (self, Raise KeyError)
        | Some (string_dtype, root) =>
            if string_dtype
            then if schema_valid R root
                 then (mkCoreDB false (Some path) (_inContext self) (_backupTree self)
                                (_lastError self) root (files self),
                       Return tt)
                 else (self, Raise XMLSyntaxError)
            else (self, Raise ValueError)
        end
    end.

(** [__init__]: the document template is parsed by the validating parser,
    and the default material is added. *)
Definition init (disk : list (string * H5File)) : CoreDB * Result unit :=
  let self := mkCoreDB false None false None None (XML_PATH R) disk in
  if schema_valid R (XML_PATH R)
  then (* Add 'air' as default material *)
       (addMaterial "air" ;;; ret tt) self
  else (self, Raise XMLSyntaxError).

End WithResources.

(** *** Callers

    A caller's code is a sequence of calls on the store. [Throw] is the
    caller's own [raise], for instance [raise Cancel] inside a session. *)
Inductive Call : Type :=
| GetAttribute (xpath : Path) (name : string)
| SetAttribute (xpath : Path) (name value : string)
| GetValue (xpath : Path)
| SetValue (xpath : Path) (value : string)
| SetBulk (xpath : Path) (value : PyVal)
| GetBulk (xpath : Path)
| GetMaterials
| AddMaterial (name : string)
| RemoveMaterial (name : string)
| AddRegion (rname : string)
| GetRegions
| AddCellZone (rname zname : string)
| GetCellZones (rname : string)
| AddBoundaryCondition (rname bname : string) (geometricalType : option string)
| GetBoundaryConditions (rname : string)
| AddForceMonitor | RemoveForceMonitor (name : string) | GetForceMonitors
| AddPointMonitor | RemovePointMonitor (name : string) | GetPointMonitors
| AddSurfaceMonitor | RemoveSurfaceMonitor (name : string) | GetSurfaceMonitors
| AddVolumeMonitor | RemoveVolumeMonitor (name : string) | GetVolumeMonitors
| IsModified
| SaveAs (path : string)
| Save
| Load (path : string)
| Throw (e : Exn).

(** What a call returns. *)
Inductive Value : Type :=
| VNone
| VError (e : Error)
| VText (s : option string)
| VStr (s : string)
| VIndex (n : nat)
| VBool (b : bool)
| VNames (names : list string)
| VBulk (v : PyVal)
| VMaterials (rows : list (Z * option string * option string * option string))
| VRows (rows : list (Z * list (option string))).

Definition soft (r : option Error) : Value :=
  match r with
  | Some e => VError e
  | None => VNone
  end.

Section Callers.
Variable R : Resources.

Definition fmap {A B} (f : A -> B) (c : M A) : M B := x <- c ;; ret (f x).

Definition call (c : Call) : M Value :=
  match c with
  | GetAttribute xpath name => fmap VStr (getAttribute xpath name)
  | SetAttribute xpath name value => fmap (fun _ => VNone) (setAttribute xpath name value)
  | GetValue xpath => fmap VText (getValue R xpath)
  | SetValue xpath value => fmap soft (setValue R xpath value)
  | SetBulk xpath value => fmap (fun _ => VNone) (setBulk R xpath value)
  | GetBulk xpath => fmap VBulk (getBulk xpath)
  | GetMaterials => fmap VMaterials getMaterials
  | AddMaterial name => fmap VIndex (addMaterial R name)
  | RemoveMaterial name => fmap soft (removeMaterial name)
  | AddRegion rname => fmap (fun _ => VNone) (addRegion R rname)
  | GetRegions => fmap VNames getRegions
  | AddCellZone rname zname => fmap VIndex (addCellZone R rname zname)
  | GetCellZones rname => fmap VRows (getCellZones rname)
  | AddBoundaryCondition rname bname g => fmap VIndex (addBoundaryCondition R rname bname g)
  | GetBoundaryConditions rname => fmap VRows (getBoundaryConditions rname)
  | AddForceMonitor => fmap VStr (addForceMonitor R)
  | RemoveForceMonitor name => fmap (fun _ => VNone) (removeForceMonitor name)
  | GetForceMonitors => fmap VNames getForceMonitors
  | AddPointMonitor => fmap VStr (addPointMonitor R)
  | RemovePointMonitor name => fmap (fun _ => VNone) (removePointMonitor name)
  | GetPointMonitors => fmap VNames getPointMonitors
  | AddSurfaceMonitor => fmap VStr (addSurfaceMonitor R)
  | RemoveSurfaceMonitor name => fmap (fun _ => VNone) (removeSurfaceMonitor name)
  | GetSurfaceMonitors => fmap VNames getSurfaceMonitors
  | AddVolumeMonitor => fmap VStr (addVolumeMonitor R)
  | RemoveVolumeMonitor name => fmap (fun _ => VNone) (removeVolumeMonitor name)
  | GetVolumeMonitors => fmap VNames getVolumeMonitors
  | IsModified => fun self => (self, Return (VBool (isModified self)))
  | SaveAs path => fmap (fun _ => VNone) (saveAs path)
  | Save => fmap (fun _ => VNone) save
  | Load path => fmap (fun _ => VNone) (load R path)
  | Throw e => raise e
  end.

(** Straight-line code: the calls in order, up to the first that raises. *)
Fixpoint block (body : list Call) : M (list Value) :=
  match body with
  | [] => ret []
  | c :: rest => v <- call c ;; vs <- block rest ;; ret (v :: vs)
  end.

(** The calls a block gets to make, each with its outcome. *)
Fixpoint trace (body : list Call) (self : CoreDB) : list (Call * Result Value) :=
  match body with
  | [] => []
  | c :: rest =>
      match call c self with
      | (self', Return v) => (c, Return v) :: trace rest self'
      | (_, Raise e) => [(c, Raise e)]
      end
  end.

(** [with db: body] *)
Definition session (body : list Call) : M (option (list Value)) := with_ (block body).

(** A caller's script: single calls, whose exceptions it handles, and
    sessions. The store after the script. *)
Inductive Action : Type :=
| Do (c : Call)
| With (body : list Call).

Definition perform (a : Action) (self : CoreDB) : CoreDB :=
  match a with
  | Do c => fst (call c self)
  | With body => fst (session body self)
  end.

Definition script (actions : list Action) (self : CoreDB) : CoreDB :=
  fold_left (fun s a => perform a s) actions self.

End Callers.
End Store.

(* ===================================================================== *)
(** ** Sample resources

    A small configuration in the shape the store expects, used to run the
    store on concrete inputs: a document template, a schema catalogue with
    one entry per kind of leaf, a validity check, entity templates and a
    material database of two rows. *)
(* ===================================================================== *)

Module Sample.
Import ET Bulk Store.

Definition template : Element :=
  mkElement "configuration" [] None
    [mkElement "general" [] None
       [leaf "pressure" "101325";
        leaf "underRelaxation" "0.7";
        leaf "maxIterations" "20";
        leaf "gravity" "0 0 -9.81";
        leaf "flowType" "incompressible";
        leaf "title" "case"];
     new_element "materials";
     new_element "regions";
     mkElement "monitors" [] None
       [new_element "forces"; new_element "points";
        new_element "surfaces"; new_element "volumes"]].

Definition plain_string : SchemaType :=
  mkSchemaType true "string" None false true None None "string" None None false None.

(** A leaf of [inputNumberType] restricted to [[lo, hi]]. *)
Definition input_number (lo hi : Q) : SchemaType :=
  mkSchemaType true "" (Some "inputNumberType") false true (Some lo) (Some hi)
               "string" None None true None.

(** A leaf of a simple type derived from [xs:decimal] or [xs:integer]. *)
Definition decimal_leaf (name : string) (lo hi : Q) : SchemaType :=
  mkSchemaType true name (Some name) true true (Some lo) (Some hi)
               name (Some lo) (Some hi) true None.

(** A float list whose declaration mentions bounds. *)
Definition number_list (lo hi : Q) : SchemaType :=
  mkSchemaType true "inputNumberListType" None false true (Some lo) (Some hi)
               "string" None None false None.

Definition flow_type : SchemaType :=
  mkSchemaType true "flowType" (Some "string") false true None None "string" None None
               true (Some ["incompressible"; "compressible"]).

Definition structural : SchemaType :=
  mkSchemaType false "" None false false None None "" None None false None.

Definition catalogue (path : list string) : option SchemaType :=
  match path with
  | ["general"; "pressure"] => Some (input_number 0 (100000000 # 1))
  | ["general"; "underRelaxation"] => Some (decimal_leaf "decimal" 0 1)
  | ["general"; "maxIterations"] => Some (decimal_leaf "positiveInteger" 1 (1000 # 1))
  | ["general"; "gravity"] => Some (number_list (-100 # 1) (100 # 1))
  | ["general"; "flowType"] => Some flow_type
  | ["general"; "title"] => Some plain_string
  | ["general"] => Some structural
  | ["materials"] => Some structural
  | ["regions"] => Some structural
  | _ => None
  end.

(** The lexical space of [xs:decimal]: an optional sign, digits with an
    optional point; no exponent, no separators. *)
Fixpoint all_digits (l : list ascii) : bool :=
  match l with
  | [] => true
  | c :: l' => PyStr.isdigit c && all_digits l'
  end.

Fixpoint digits_then_point (l : list ascii) : bool :=
  match l with
  | [] => true
  | c :: l' =>
      if Ascii.eqb c "." then all_digits l'
      else PyStr.isdigit c && digits_then_point l'
  end.

Definition xs_decimal (s : string) : bool :=
  let (_, l) := PyStr.sign (list_ascii_of_string s) in
  existsb PyStr.isdigit l && digits_then_point l.

(** A document is valid when every [underRelaxation] holds an [xs:decimal]
    and every [maxIterations] an integer numeral. *)
Definition texts_satisfy (check : string -> bool) (t : string) (root : Element) : bool :=
  forallb (fun p => match get root p with
                    | Some e => match text e with
                                | Some s => check s
                                | None => false
                                end
                    | None => true
                    end) (findall root (Descendant (st t) [])).

Definition valid (root : Element) : bool :=
  texts_satisfy xs_decimal "underRelaxation" root
  && texts_satisfy (fun s => xs_decimal s && negb (PyStr.contains_char "." s))
                   "maxIterations" root.

Definition cell_zone : Element :=
  mkElement "cellZone" [("czid", "1")] None [leaf "name" "All"; leaf "zoneType" "none"].

Definition boundary_condition : Element :=
  mkElement "boundaryCondition" [("bcid", "0")] None
    [mkElement "name" [] None []; mkElement "geometricalType" [] None [];
     leaf "physicalType" "wall"].

Definition monitor (kind : string) : Element :=
  mkElement kind [] None [mkElement "name" [] None []; leaf "writeInterval" "1"].

Definition air : MaterialRow :=
  mkMaterialRow (Some "N2+O2") (Some "gas") (Some "28.966") None None None None
                (Some "1.225") (Some "1006.0") (Some "1.79e-05") (Some "0.0245")
                (Some "1.46e-06") (Some "110.4").

Definition water : MaterialRow :=
  mkMaterialRow (Some "H2O") (Some "liquid") (Some "18.0152") None (Some "0.0719")
                (Some "2338.0") None
                (Some "998.2") (Some "4182.0") (Some "0.001003") (Some "0.6")
                None None.

Definition resources : Resources :=
  mkResources catalogue valid PyStr.FFinite (fun _ => "")
              template cell_zone boundary_condition
              (monitor "forceMonitor") (monitor "pointMonitor")
              (monitor "surfaceMonitor") (monitor "volumeMonitor")
              [("air", air); ("water", water)].

(** The store right after construction, on an empty disk. *)
Definition fresh : CoreDB := fst (init resources []).

(** A store whose region [R1] holds [n] cell zones, with the ids 1 to [n]. *)
Definition zone (i : nat) : Element :=
  mkElement "cellZone" [("czid", PyStr.str_of_nat i)] None
    [leaf "name" ("zone-" ++ PyStr.str_of_nat i)%string; leaf "zoneType" "none"].

Definition region_with_zones (n : nat) : Element :=
  mkElement "region" [] None
    [leaf "name" "R1"; leaf "material" "1";
     mkElement "cellZones" [] None (map zone (seq 1 n));
     new_element "boundaryConditions"].

Definition crowded (n : nat) : CoreDB :=
  mutate [2] (append (region_with_zones n)) fresh.

(** The store after a second material and a region have been added. *)
Definition two_materials_one_region : CoreDB :=
  script resources [Do (AddMaterial "water"); Do (AddRegion "R1")] fresh.

Definition pressure : Path := Descendant (st "general") [st "pressure"].
Definition underRelaxation : Path := Descendant (st "general") [st "underRelaxation"].
Definition maxIterations : Path := Descendant (st "general") [st "maxIterations"].
Definition gravity : Path := Descendant (st "general") [st "gravity"].

End Sample.


(* ===================================================================== *)
(** ** Notions used to state the properties *)
(* ===================================================================== *)

Module Props.
Import ET Bulk Store.

(** A trace entry of a [setValue] that returned an error value. *)
Definition rejected_by_setValue (entry : Call * Result Value) : bool :=
  match entry with
  | (SetValue _ _, Return (VError _)) => true
  | _ => false
  end.

(** A trace entry of a call that raised. *)
Definition raised (entry : Call * Result Value) : bool :=
  match entry with
  | (_, Raise _) => true
  | _ => false
  end.

(** Whether a declared type is a scalar number for [setValue], and then
    whether it is integer-named, and its declared bounds. *)
Definition numeric_leaf (schema : SchemaType) : option (bool * option Q * option Q) :=
  if is_inputNumberType schema then Some (false, min_value schema, max_value schema)
  else if String.eqb (local_name schema) "inputNumberListType" then None
  else if is_decimal schema then
    if is_simple schema
    then Some (contains "integer" (PyStr.lower (local_name schema)),
               min_value schema, max_value schema)
    else Some (contains "integer" (PyStr.lower (content_primitive_name schema)),
               content_min_value schema, content_max_value schema)
  else None.

(** The value parsed per the declared subtype: [int] for integer-named
    types, [float] otherwise. *)
Definition parse_declared (R : Resources) (integer : bool) (value : string)
  : option PyStr.pyfloat :=
  if integer then option_map of_int (PyStr.int value)
  else PyStr.float (float_round R) value.

Definition parse_error (integer : bool) : Error :=
  if integer then INTEGER_ONLY else FLOAT_ONLY.

(** [lo <= x <= hi] for a parsed value; no infinity and no NaN lies within
    finite bounds. *)
Definition within (x : PyStr.pyfloat) (lo hi : Q) : Prop :=
  match x with
  | PyStr.FFinite q => (lo <= q)%Q /\ (q <= hi)%Q
  | _ => False
  end.

(** The store after [setValue] has written [s] at [element]. *)
Definition written (element : position) (s : string) (self : CoreDB) : CoreDB :=
  set_modified true (mutate element (set_text (Some s)) self).

(** **** Mappings that survive the bulk codec

    [getBulk] only ever returns strings, dicts and lists of two or more
    members. A mapping is normal when it is of that form throughout: its
    scalars are strings, its lists have at least two members, all strings
    or all normal dicts, the only key with a dollar is ["$"], and no dict
    consists of a ["$"] entry alone. *)
Definition is_str (v : PyVal) : bool :=
  match v with PStr _ => true | _ => false end.

Definition is_dict (v : PyVal) : bool :=
  match v with PDict _ => true | _ => false end.

Definition is_attr_key (k : string) : bool := PyStr.startswith "@" k.
Definition is_text_key (k : string) : bool :=
  negb (PyStr.startswith "@" k) && PyStr.startswith "$" k.
Definition is_plain_key (k : string) : bool :=
  negb (PyStr.startswith "@" k) && negb (PyStr.startswith "$" k).

Fixpoint keys_distinct {V : Type} (items : list (string * V)) : bool :=
  match items with
  | [] => true
  | (k, _) :: rest =>
      negb (existsb (fun kv => String.eqb (fst kv) k) rest) && keys_distinct rest
  end.

Definition only_text {V : Type} (items : list (string * V)) : bool :=
  match items with
  | [(k, _)] => is_text_key k
  | _ => false
  end.

Fixpoint normal (v : PyVal) : bool :=
  match v with
  | PStr _ => true
  | PDict items =>
      keys_distinct items && negb (only_text items)
      && forallb (fun kv =>
                    if is_attr_key (fst kv) then is_str (snd kv)
                    else if is_text_key (fst kv)
                         then String.eqb (fst kv) "$" && is_str (snd kv)
                         else match snd kv with
                              | PStr _ => true
                              | PDict _ => normal (snd kv)
                              | PList members =>
                                  (2 <=? List.length members)
                                  && (forallb is_str members
                                      || forallb (fun m => is_dict m && normal m) members)
                              | _ => false
                              end) items
  | _ => false
  end.

(** The order in which [getBulk] lists the entries of a normal mapping:
    attributes, then elements, then the text. *)
Fixpoint canon (v : PyVal) : PyVal :=
  match v with
  | PDict items =>
      PDict (filter (fun kv => is_attr_key (fst kv)) items
             ++ filter (fun kv => is_plain_key (fst kv))
                       (map (fun kv => (fst kv, canon (snd kv))) items)
             ++ filter (fun kv => is_text_key (fst kv)) items)
  | PList members => PList (map canon members)
  | _ => v
  end.

(** The outcome of writing a checked value: the document is re-validated
    with the new text in place. *)
Definition after_write (R : Resources) (element : position) (txt : string) (s : CoreDB)
  : CoreDB * Result (option Error) :=
  (written element txt s,
   if schema_valid R (_xmlTree (written element txt s))
   then Return None else Raise DocumentInvalid).

(** The session fields and the flag as a call leaves them. *)
Definition untouched (s s' : CoreDB) : Prop :=
  _lastError s' = _lastError s /\ _backupTree s' = _backupTree s
  /\ _inContext s' = _inContext s.

(** **** The bulk codec, entry by entry

    The pieces of [_setBulkInternal] and [_getBulkInternal] named, so that
    their effect on one entry of a mapping can be stated. *)
Section CodecSteps.
Variable repr : PyVal -> string.

(** The element [_setBulkInternal] makes of a mapping under the tag [t]. *)
Definition built (t : string) (v : PyVal) : Element :=
  fst (setBulkInternal repr (new_element t) v).

(** The loop over a list whose first member is a dict. *)
Definition members_step (k : string) : list PyVal -> Element -> Element * option Exn :=
  fix every (m : list PyVal) (element : Element) {struct m} : Element * option Exn :=
    match m with
    | [] => (element, None)
    | item :: m' =>
        match item with
        | PDict _ =>
            let (child, x) := setBulkInternal repr (new_element k) item in
            match x with
            | None => every m' (append child element)
            | Some _ => (append child element, x)
            end
        | _ => (element, Some ValueError)
        end
    end.

(** One round of the loop over [data.items()]. *)
Definition entry_step (k : string) (v : PyVal) (element : Element) : Element * option Exn :=
  if PyStr.startswith "@" k then
    match v with
    | PStr s => (set_attr (PyStr.tail k) s element, None)
    | _ => (element, Some TypeError)
    end
  else if PyStr.startswith "$" k then
    (set_text (Some (str repr v)) element, None)
  else
    match v with
    | PDict _ =>
        let (child, x) := setBulkInternal repr (new_element k) v in
        (append child element, x)
    | PList members =>
        match members with
        | [] => (append (new_element k) element, None)
        | PDict _ :: _ => members_step k members element
        | _ => (fold_left (fun el item => append (leaf k (str repr item)) el)
                          members element, None)
        end
    | _ => (append (leaf k (str repr v)) element, None)
    end.

(** The children an element entry of a normal mapping adds. *)
Definition kids (k : string) (v : PyVal) : list Element :=
  match v with
  | PStr s => [leaf k s]
  | PDict _ => [built k v]
  | PList members =>
      map (fun m => match m with
                    | PStr s => leaf k s
                    | _ => built k m
                    end) members
  | _ => []
  end.
End CodecSteps.

(** What [normal] asks of one entry. *)
Definition entry_ok (kv : string * PyVal) : bool :=
  if is_attr_key (fst kv) then is_str (snd kv)
  else if is_text_key (fst kv) then String.eqb (fst kv) "$" && is_str (snd kv)
  else match snd kv with
       | PStr _ => true
       | PDict _ => normal (snd kv)
       | PList members =>
           (2 <=? List.length members)
           && (forallb is_str members
               || forallb (fun m => is_dict m && normal m) members)
       | _ => false
       end.

(** The attributes, the text and the children a normal mapping amounts
    to. *)
Definition attrs_of (items : list (string * PyVal)) : list (string * string) :=
  flat_map (fun kv => if is_attr_key (fst kv)
                      then match snd kv with
                           | PStr s => [(PyStr.tail (fst kv), s)]
                           | _ => []
                           end
                      else []) items.

Definition text_of (items : list (string * PyVal)) (before : option string) : option string :=
  fold_left (fun t kv => if is_text_key (fst kv)
                         then match snd kv with
                              | PStr s => Some s
                              | _ => t
                              end
                         else t) items before.

Definition kids_of (repr : PyVal -> string) (items : list (string * PyVal)) : list Element :=
  flat_map (fun kv => if is_plain_key (fst kv) then kids repr (fst kv) (snd kv) else [])
           items.

(** The loop of [_getBulkInternal] over the children. *)
Definition gather (cs : list Element) (data : list (string * PyVal)) : list (string * PyVal) :=
  fold_left (fun data c => add_result (tag c) (getBulkInternal c) data) cs data.

Section RoundTripNotions.
Variable repr : PyVal -> string.

(** What the round trip needs of a dict, for every tag it is built under. *)
Definition RT (v : PyVal) : Prop :=
  forall t, normal v = true -> is_dict v = true ->
    snd (setBulkInternal repr (new_element t) v) = None
    /\ tag (built repr t v) = t
    /\ getBulkInternal (built repr t v) = canon v.

Definition RTs (v : PyVal) : Prop :=
  match v with
  | PList members => Forall RT members
  | _ => RT v
  end.

(** A member of a run is a string or a normal dict; either way its element
    carries the key as tag and reads back as the member in canonical
    order. *)
Definition member_ok (m : PyVal) : bool := is_str m || (is_dict m && normal m).

Definition member_element (k : string) (m : PyVal) : Element :=
  match m with
  | PStr s => leaf k s
  | _ => built repr k m
  end.

End RoundTripNotions.

(** A normal value, or a list of members in order. *)
Definition settled (v : PyVal) : bool :=
  match v with
  | PList members => forallb member_ok members
  | _ => normal v
  end.

(** Induction on a Python value, its members included. *)
Section PyVal_nested_induction.
Variable P : PyVal -> Prop.
Hypothesis HStr : forall s, P (PStr s).
Hypothesis HInt : forall z, P (PInt z).
Hypothesis HBool : forall b, P (PBool b).
Hypothesis HNone : P PNone.
Hypothesis HDict : forall items, Forall (fun kv => P (snd kv)) items -> P (PDict items).
Hypothesis HList : forall members, Forall P members -> P (PList members).

Fixpoint PyVal_nested_ind (v : PyVal) : P v :=
  match v with
  | PStr s => HStr s
  | PInt z => HInt z
  | PBool b => HBool b
  | PNone => HNone
  | PDict items =>
      HDict items
        ((fix go (l : list (string * PyVal)) : Forall (fun kv => P (snd kv)) l :=
            match l with
            | [] => Forall_nil _
            | kv :: l' => Forall_cons kv (PyVal_nested_ind (snd kv)) (go l')
            end) items)
  | PList members =>
      HList members
        ((fix go (l : list PyVal) : Forall P l :=
            match l with
            | [] => Forall_nil _
            | m :: l' => Forall_cons m (PyVal_nested_ind m) (go l')
            end) members)
  end.
End PyVal_nested_induction.

(** **** Materials in the document

    Documents of the configuration keep their [materials] element right
    below the root. [flat] says so: no element tagged [materials] lies
    deeper than the children of the root. *)
Fixpoint mentions (t : string) (e : Element) : bool :=
  match e with
  | mkElement tg _ _ cs =>
      String.eqb tg t
      || (fix any (l : list Element) : bool :=
            match l with
            | [] => false
            | c :: l' => mentions t c || any l'
            end) cs
  end.

Definition clean (e : Element) : bool := negb (mentions "materials" e).

Definition flat (root : Element) : bool :=
  forallb (fun c => forallb clean (children c)) (children root).

(** The [material] children of an element, and of the [materials]
    elements below the root. *)
Definition mat_kids (c : Element) : nat :=
  List.length (filter (fun d => String.eqb (tag d) "material") (children c)).

Definition materials_in (e : Element) : nat :=
  if String.eqb (tag e) "materials" then mat_kids e else 0.

Definition top_count (root : Element) : nat :=
  list_sum (map materials_in (children root)).

(** The number of materials [getMaterials] lists. *)
Definition count_materials (self : CoreDB) : nat :=
  List.length (findall (_xmlTree self) material_path).

(** Resources in the expected shape: a flat document template, and entity
    templates without a [materials] element. *)
Definition resources_fit (R : Resources) : bool :=
  flat (XML_PATH R)
  && clean (CELL_ZONE_PATH R) && clean (BOUNDARY_CONDITION_PATH R)
  && clean (FORCE_MONITOR_PATH R) && clean (POINT_MONITOR_PATH R)
  && clean (SURFACE_MONITOR_PATH R) && clean (VOLUME_MONITOR_PATH R).

(** The calls that work on entities and typed values, as opposed to the
    wholesale replacement of a subtree or of the document. *)
Definition entity_call (c : Call) : bool :=
  match c with
  | SetBulk _ _ | Load _ => false
  | _ => true
  end.

Definition entity_action (a : Action) : bool :=
  match a with
  | Do c => entity_call c
  | With body => forallb entity_call body
  end.

(** The sum of [f] over the nodes at the positions [ps]. *)
Definition weight (f : Element -> nat) (root : Element) (ps : list position) : nat :=
  list_sum (map (fun p => match get root p with
                          | Some e => f e
                          | None => 0
                          end) ps).

(** [iterdescendants] on the children from index [i] on. *)
Fixpoint walk (i : nat) (l : list Element) : list position :=
  match l with
  | [] => []
  | c :: l' => ([i] :: map (cons i) (iterdescendants c)) ++ walk (S i) l'
  end.

Section Element_nested_induction.
Variable P : Element -> Prop.
Hypothesis HElement : forall t a x cs, Forall P cs -> P (mkElement t a x cs).

Fixpoint Element_nested_ind (e : Element) : P e :=
  match e with
  | mkElement t a x cs =>
      HElement t a x cs
        ((fix go (l : list Element) : Forall P l :=
            match l with
            | [] => Forall_nil _
            | c :: l' => Forall_cons c (Element_nested_ind c) (go l')
            end) cs)
  end.
End Element_nested_induction.

(** A change that keeps the tag and brings no [materials] element. *)
Definition mild (f : Element -> Element) : Prop :=
  forall e, tag (f e) = tag e /\ (clean e = true -> clean (f e) = true).

(** A change of a child of the root that keeps its tag, keeps its
    children free of [materials] elements and removes no material. *)
Definition gentle (H : Element -> Element) : Prop :=
  forall c, tag (H c) = tag c
            /\ (forallb clean (children c) = true ->
                forallb clean (children (H c)) = true)
            /\ mat_kids c <= mat_kids (H c).

(** The shape of the document, and a count of at least [n] materials. *)
Definition shaped (n : nat) (root : Element) : Prop :=
  flat root = true /\ n <= top_count root.

(** *** Notions for the further properties of the store *)

(** **** Trees that differ in attributes, or in attributes and texts

    [alike true] relates two trees of the same shape, tags and texts;
    [alike false] two trees of the same shape and tags. *)
Fixpoint alike (texts : bool) (e e' : Element) {struct e} : Prop :=
  match e, e' with
  | mkElement t _ x cs, mkElement t' _ x' cs' =>
      t = t' /\ (texts = true -> x = x')
      /\ (fix all (l l' : list Element) {struct l} : Prop :=
            match l, l' with
            | [], [] => True
            | c :: r, c' :: r' => alike texts c c' /\ all r r'
            | _, _ => False
            end) cs cs'
  end.

(** A path whose steps carry no predicate. *)
Definition plain_step (s : Step) : bool :=
  match step_pred s with
  | None => true
  | Some _ => false
  end.

Definition plain_path (path : Path) : bool :=
  match path with
  | Descendant s rest => plain_step s && forallb plain_step rest
  | Children steps => forallb plain_step steps
  end.

(** The text of the node at a position, if there is such a node. *)
Definition text_at (root : Element) (p : position) : option (option string) :=
  option_map text (get root p).

(** The text [setValue] stores for a value it accepts: numbers are
    stripped and lowered, number lists are joined by single blanks,
    anything else is stripped. *)
Definition stored_text (schema : SchemaType) (value : string) : string :=
  match numeric_leaf schema with
  | Some _ => PyStr.strip (PyStr.lower value)
  | None =>
      if String.eqb (local_name schema) "inputNumberListType"
      then PyStr.join " " (PyStr.split value)
      else PyStr.strip value
  end.

(** The calls that leave the disk and the file path alone. *)
Definition offline (c : Call) : bool :=
  match c with
  | SaveAs _ | Save | Load _ => false
  | _ => true
  end.

Definition offline_action (a : Action) : bool :=
  match a with
  | Do c => offline c
  | With body => forallb offline body
  end.

(** The calls that change the tree the store holds only under the eyes of
    the validator. Left out are [setAttribute] and the removals, which do
    not validate, and [load], which replaces the tree. *)
Definition validating (c : Call) : bool :=
  match c with
  | SetAttribute _ _ _ | RemoveMaterial _
  | RemoveForceMonitor _ | RemovePointMonitor _
  | RemoveSurfaceMonitor _ | RemoveVolumeMonitor _ | Load _ => false
  | _ => true
  end.

(** The calls that attach what they build as they go. *)
Definition builds_in_place (c : Call) : bool :=
  match c with
  | SetBulk _ _ | AddRegion _ => true
  | _ => false
  end.

(** The id the allocation loop picks: the smallest number from 1 below
    [maxIndex] whose decimal is not in use. *)
Definition smallest_free (maxIndex : nat) (idList : list string) (index : nat) : Prop :=
  1 <= index < maxIndex
  /\ mem (PyStr.str_of_nat index) idList = false
  /\ forall j, 1 <= j < index -> mem (PyStr.str_of_nat j) idList = true.

Definition exhausted (maxIndex : nat) (idList : list string) : Prop :=
  forall j, 1 <= j < maxIndex -> mem (PyStr.str_of_nat j) idList = true.

(** The ids in use that the three allocating calls look at. *)
Definition material_ids (root : Element) : list string :=
  xpath_attr root material_path "mid".

Definition cell_zone_ids (rname : string) (root : Element) : list string :=
  xpath_attr root (Descendant (st_named "region" rname) [st "cellZones"; st "cellZone"])
             "czid".

Definition boundary_condition_ids (rname : string) (root : Element) : list string :=
  xpath_attr root (Descendant (st_named "region" rname)
                              [st "boundaryConditions"; st "boundaryCondition"]) "bcid".

(** The four monitor registries: the adding call, the group and the tag of
    its elements, and the prefix of its default names. *)
Definition registries (R : Resources) : list (M string * string * string * string) :=
  [(addForceMonitor R, "forces", "forceMonitor", FORCE_MONITOR_DEFAULT_NAME);
   (addPointMonitor R, "points", "pointMonitor", POINT_MONITOR_DEFAULT_NAME);
   (addSurfaceMonitor R, "surfaces", "surfaceMonitor", SURFACE_MONITOR_DEFAULT_NAME);
   (addVolumeMonitor R, "volumes", "volumeMonitor", VOLUME_MONITOR_DEFAULT_NAME)].

(** The tag, attributes and text of the node at a position. *)
Definition label_at (root : Element) (p : position)
  : option (string * list (string * string) * option string) :=
  option_map (fun e => (tag e, attrib e, text e)) (get root p).

(** **** The values [getBulk] returns

    A readable value is a string or a dict with distinct keys whose values
    are strings, readable dicts, or lists of two or more strings and
    readable dicts. *)
Fixpoint readable (v : PyVal) : bool :=
  match v with
  | PStr _ => true
  | PDict items =>
      keys_distinct items
      && forallb (fun kv =>
                    match snd kv with
                    | PStr _ => true
                    | PDict _ => readable (snd kv)
                    | PList members =>
                        (2 <=? List.length members)
                        && forallb (fun m => match m with
                                             | PStr _ => true
                                             | PDict _ => readable m
                                             | _ => false
                                             end) members
                    | _ => false
                    end) items
  | _ => false
  end.

(** A string or a readable dict: what one element reads as. *)
Definition readable_member (m : PyVal) : bool :=
  match m with
  | PStr _ => true
  | PDict _ => readable m
  | _ => false
  end.

(** What a key of a readable dict may hold. *)
Definition readable_entry (v : PyVal) : bool :=
  match v with
  | PList members => (2 <=? List.length members) && forallb readable_member members
  | _ => readable_member v
  end.

(** A template whose first [name] child, if any, has no children: once
    named, the element is found under its name. *)
Definition name_child_is_leaf (template : Element) : bool :=
  match List.find (fun c => String.eqb (tag c) "name") (children template) with
  | Some c => match children c with [] => true | _ :: _ => false end
  | None => true
  end.

(** The cell-zone and boundary-condition templates as the scoped paths
    expect them. *)
Definition entity_templates_fit (R : Resources) : bool :=
  String.eqb (tag (CELL_ZONE_PATH R)) "cellZone"
  && name_child_is_leaf (CELL_ZONE_PATH R)
  && String.eqb (tag (BOUNDARY_CONDITION_PATH R)) "boundaryCondition"
  && name_child_is_leaf (BOUNDARY_CONDITION_PATH R).

(** [float] and [int] on the stripped characters of their argument. *)
Definition float_of_chars (round : Q -> PyStr.pyfloat) (stripped : list ascii)
  : option PyStr.pyfloat :=
  let (neg, l) := PyStr.sign stripped in
  let word := string_of_list_ascii (map PyStr.lower_char l) in
  if String.eqb word "inf" || String.eqb word "infinity" then Some (PyStr.FInf neg)
  else if String.eqb word "nan" then Some PyStr.FNaN
  else match PyStr.number l with
       | Some (m, fd, r) =>
           match PyStr.exponent r with
           | Some e =>
               Some (round (PyStr.scale10 (if neg then (- m)%Z else m) (e - Z.of_nat fd)))
           | None => None
           end
       | None => None
       end.

Definition int_of_chars (stripped : list ascii) : option Z :=
  let (neg, l) := PyStr.sign stripped in
  match PyStr.digitpart l with
  | Some (v, _, []) => Some (if neg then (- v)%Z else v)
  | _ => None
  end.

(** A list of characters that does not start with a blank. *)
Definition starts_clean (l : list ascii) : bool :=
  match l with
  | [] => true
  | c :: _ => negb (PyStr.isspace c)
  end.

(** A leaf whose values are checked against an enumeration. *)
Definition enumerated (schema : SchemaType) : bool :=
  match numeric_leaf schema with
  | Some _ => false
  | None =>
      negb (String.eqb (local_name schema) "inputNumberListType")
      && is_restriction schema
  end.

(** Whether [setValue] accepts a value for a leaf of the declared type:
    a number must parse and lie within the declared bounds, the tokens of
    a number list must parse, an enumerated value must be one of the
    enumeration as it stands. *)
Definition accepts (R : Resources) (schema : SchemaType) (value : string) : bool :=
  match numeric_leaf schema with
  | Some (integer, lo, hi) =>
      match parse_declared R integer value with
      | Some x => negb (below x lo) && negb (above x hi)
      | None => false
      end
  | None =>
      if String.eqb (local_name schema) "inputNumberListType"
      then forallb (fun n => match PyStr.float (float_round R) n with
                             | Some _ => true
                             | None => false
                             end) (PyStr.split value)
      else if is_restriction schema
           then match enumeration schema with
                | Some allowed => mem value allowed
                | None => false
                end
           else true
  end.

(** A step that matches a node whatever is appended to its child tagged
    [container]: it has no predicate, or its predicate looks at children
    of another tag. *)
Definition keeps_matching (s : Step) (container : string) : bool :=
  match step_pred s with
  | None => true
  | Some (t, _) => negb (String.eqb container t)
  end.

(** The text of the first child with the tag [f], as the listing calls
    read it. *)
Definition field_text (f : string) (e : Element) : option string :=
  match List.find (fun c => String.eqb (tag c) f) (children e) with
  | Some c => text c
  | None => None
  end.

(** Templates whose root carries the tag the listing paths look for. *)
Definition templates_tagged (R : Resources) : bool :=
  String.eqb (tag (CELL_ZONE_PATH R)) "cellZone"
  && String.eqb (tag (BOUNDARY_CONDITION_PATH R)) "boundaryCondition"
  && String.eqb (tag (FORCE_MONITOR_PATH R)) "forceMonitor"
  && String.eqb (tag (POINT_MONITOR_PATH R)) "pointMonitor"
  && String.eqb (tag (SURFACE_MONITOR_PATH R)) "surfaceMonitor"
  && String.eqb (tag (VOLUME_MONITOR_PATH R)) "volumeMonitor".

(** The exceptions of [_setBulkInternal], and a value on which it raises
    no other. *)
Definition bulk_exn (x : Exn) : Prop := x = TypeError \/ x = ValueError \/ x = AttributeError.

Definition raises_bulk_exn (repr : PyVal -> string) (v : PyVal) : Prop :=
  forall el x, snd (setBulkInternal repr el v) = Some x -> bulk_exn x.

(** What the loops of [_getBulkInternal] keep true of [data]. *)
Definition tidy (data : list (string * PyVal)) : Prop :=
  keys_distinct data = true /\ forallb (fun kv => readable_entry (snd kv)) data = true.

(** A parse result with the remaining characters lowered. *)
Definition lower_rest (parsed : Z * nat * list ascii) : Z * nat * list ascii :=
  let '(v, k, r) := parsed in (v, k, map PyStr.lower_char r).

(** A token of [split]: a non-empty run without blanks. *)
Definition token (w : list ascii) : Prop :=
  w <> [] /\ Forall (fun c => PyStr.isspace c = false) w.

End Props.

(* ===================================================================== *)
(** ** Properties *)
(* ===================================================================== *)

Import ET Bulk Store Props.

Example strip_ex : PyStr.strip "  1E5 " = "1E5".
Proof. reflexivity. Qed.
Example int_ex : PyStr.int " -1_0 " = Some (-10)%Z.
Proof. reflexivity. Qed.
Example float_ex : PyStr.float PyStr.FFinite "1.5e1" = Some (PyStr.FFinite (15 # 1)).
Proof. reflexivity. Qed.
Example float_frac_ex : PyStr.float PyStr.FFinite "-.25" = Some (PyStr.FFinite (-25 # 100)).
Proof. reflexivity. Qed.
Example split_ex : PyStr.split " 1  2.5 x " = ["1"; "2.5"; "x"].
Proof. reflexivity. Qed.

(** Case analysis on the innermost [match] of the goal first. *)
Ltac innermost scrutinee :=
  lazymatch scrutinee with
  | context [match _ with _ => _ end] => fail
  | _ => idtac
  end.

Ltac break_match :=
  first
    [ match goal with
      | |- context [match ?x with _ => _ end] => innermost x; destruct x eqn:?
      end
    | match goal with
      | |- context [match ?x with _ => _ end] => destruct x eqn:?
      end ].

Ltac unfold_ops :=
  unfold fmap, getAttribute, setAttribute, getValue, setBulk, getBulk, getMaterials,
    addMaterial, removeMaterial, addRegion, getRegions, addCellZone, getCellZones,
    addBoundaryCondition, getBoundaryConditions, add_scoped,
    addForceMonitor, removeForceMonitor, getForceMonitors,
    addPointMonitor, removePointMonitor, getPointMonitors,
    addSurfaceMonitor, removeSurfaceMonitor, getSurfaceMonitors,
    addVolumeMonitor, removeVolumeMonitor, getVolumeMonitors,
    add_monitor, remove_monitor, get_monitors,
    saveAs, save, load, single, leaf_schema, assertValid, bind, ret, raise.

(** *** What a call may touch *)

Section Frames.
Variable R : Resources.

Lemma store_then_validate element txt s :
  (store_text element txt ;;; assertValid R ;;; ret (@None Error)) s
  = after_write R element txt s.
Proof.
  unfold bind, store_text, assertValid, ret, after_write, written. cbn.
  now destruct (schema_valid R _).
Qed.

Lemma check_and_store_cases element value decimal lo hi s :
  ((below decimal lo || above decimal hi = true) /\
   check_and_store R element value decimal lo hi s
   = (set_lastError (Some OUT_OF_RANGE) s, Return (Some OUT_OF_RANGE)))
  \/ (below decimal lo = false /\ above decimal hi = false /\
      check_and_store R element value decimal lo hi s
      = after_write R element (PyStr.strip (PyStr.lower value)) s).
Proof.
  unfold check_and_store.
  destruct (below decimal lo); [now left|].
  destruct (above decimal hi); [now left|].
  right. repeat split. apply store_then_validate.
Qed.

(** [setValue] ends in one of three ways: a soft error with only the flag
    set, an exception before anything was touched, or a write followed by
    the re-validation. *)
Lemma setValue_cases xpath value s :
  (exists e, (e = OUT_OF_RANGE \/ e = INTEGER_ONLY \/ e = FLOAT_ONLY) /\
             setValue R xpath value s = (set_lastError (Some e) s, Return (Some e)))
  \/ (exists x, setValue R xpath value s = (s, Raise x))
  \/ (exists element txt,
        findall (_xmlTree s) xpath = [element] /\
        setValue R xpath value s = after_write R element txt s).
Proof.
  destruct (setValue R xpath value s) as [s1 r1] eqn:E. revert E.
  unfold setValue. unfold bind at 1. unfold single. cbv beta.
  destruct (findall (_xmlTree s) xpath) as [|element [|]] eqn:Hf;
    try (intros [= <- <-]; right; left; eexists; reflexivity).
  unfold bind at 1. unfold leaf_schema. cbv beta.
  destruct (schema_find R _) as [schema|];
    try (intros [= <- <-]; right; left; eexists; reflexivity).
  destruct (has_simple_content schema);
    try (intros [= <- <-]; right; left; eexists; reflexivity).
  assert (Hcs : forall decimal lo hi,
    check_and_store R element value decimal lo hi s
      = (set_lastError (Some OUT_OF_RANGE) s, Return (Some OUT_OF_RANGE))
    \/ (exists txt, check_and_store R element value decimal lo hi s
                    = after_write R element txt s)).
  { intros. destruct (check_and_store_cases element value decimal lo hi s)
      as [[_ H]|(_ & _ & H)]; [now left | right; eexists; exact H]. }
  repeat break_match;
    try (intros [= <- <-]; left; eexists; split; [|reflexivity]; tauto);
    try (intros [= <- <-]; right; left; eexists; reflexivity);
    try (rewrite store_then_validate; intros [= <- <-]; right; right;
         exists element; eexists; split; reflexivity);
    match goal with
    | |- context [check_and_store R element value ?d ?lo ?hi s] =>
        destruct (Hcs d lo hi) as [He|[txt He]]; rewrite He; intros [= <- <-];
        [left; eexists; split; [|reflexivity]; tauto
        |right; right; exists element, txt; split; reflexivity]
    end.
Qed.

Lemma call_untouched c s :
  (forall xpath value, c <> SetValue xpath value) ->
  untouched s (fst (call R c s)).
Proof.
  intros Hc. unfold untouched.
  destruct c; try (exfalso; eapply Hc; reflexivity);
    cbn [call]; unfold_ops; repeat break_match; cbn; auto.
Qed.

Lemma call_setValue xpath value s :
  call R (SetValue xpath value) s
  = (fst (setValue R xpath value s),
     match snd (setValue R xpath value s) with
     | Return r => Return (soft r)
     | Raise x => Raise x
     end).
Proof.
  cbn [call]. unfold fmap, bind, ret.
  now destruct (setValue R xpath value s) as [s' [r|x]].
Qed.

(** No call touches the backup or the in-session mark. *)
Lemma call_session_fields c s :
  _backupTree (fst (call R c s)) = _backupTree s
  /\ _inContext (fst (call R c s)) = _inContext s.
Proof.
  destruct c;
    try (match goal with
         | |- context [call R ?c s] =>
             destruct (call_untouched c s) as (_ & ? & ?); [discriminate | now split]
         end).
  rewrite call_setValue. cbn [fst].
  destruct (setValue_cases xpath value s)
    as [(e & _ & H)|[(x & H)|(el & txt & _ & H)]]; rewrite H; now split.
Qed.

(** A flag that is set stays set: no call clears it. *)
Lemma call_keeps_flag c s :
  _lastError s <> None -> _lastError (fst (call R c s)) <> None.
Proof.
  intros Hs. destruct c;
    try (match goal with
         | |- context [call R ?c s] =>
             destruct (call_untouched c s) as (-> & _ & _); [discriminate | assumption]
         end).
  rewrite call_setValue. cbn [fst].
  destruct (setValue_cases xpath value s)
    as [(e & _ & H)|[(x & H)|(el & txt & _ & H)]]; rewrite H; cbn; auto; discriminate.
Qed.

(** The flag after a call: set by a rejecting [setValue], else as before. *)
Lemma call_flag c s :
  _lastError (fst (call R c s)) =
  match c, snd (call R c s) with
  | SetValue _ _, Return (VError e) => Some e
  | _, _ => _lastError s
  end.
Proof.
  destruct c;
    try (match goal with
         | |- context [call R ?c s] =>
             destruct (call_untouched c s) as (-> & _ & _); [discriminate|];
             now destruct (snd (call R c s)) as [[]|]
         end).
  rewrite call_setValue. cbn [fst snd].
  destruct (setValue_cases xpath value s)
    as [(e & _ & H)|[(x & H)|(el & txt & _ & H)]]; rewrite H; cbn; auto.
  unfold after_write. cbn. now destruct (schema_valid R _).
Qed.

End Frames.

(** *** Sessions *)

Section Sessions.
Variable R : Resources.

Lemma block_cons c rest s :
  block R (c :: rest) s =
  match call R c s with
  | (s', Return v) =>
      match block R rest s' with
      | (s'', Return vs) => (s'', Return (v :: vs))
      | (s'', Raise e) => (s'', Raise e)
      end
  | (s', Raise e) => (s', Raise e)
  end.
Proof.
  cbn [block]. unfold bind, ret.
  destruct (call R c s) as [s' [v|e]]; [|reflexivity].
  now destruct (block R rest s') as [s'' [vs|e]].
Qed.

Lemma call_flag_iff c s :
  _lastError (fst (call R c s)) <> None <->
  _lastError s <> None \/ rejected_by_setValue (c, snd (call R c s)) = true.
Proof.
  rewrite call_flag. unfold rejected_by_setValue.
  destruct c; try (split; [now left | intros [H|H]; [assumption | discriminate]]).
  destruct (snd (call R (SetValue xpath value) s)) as [[]|];
    try (split; [now left | intros [H|H]; [assumption | discriminate]]).
  split; [now right | discriminate].
Qed.

(** A block leaves the backup alone; it ends with the flag set exactly
    when the flag was set before or a [setValue] of it returned an error;
    it raises exactly when its last call raised. *)
Lemma block_facts body : forall s,
  _backupTree (fst (block R body s)) = _backupTree s
  /\ (_lastError (fst (block R body s)) <> None <->
      _lastError s <> None \/ existsb rejected_by_setValue (trace R body s) = true)
  /\ ((exists e, snd (block R body s) = Raise e) <->
      existsb raised (trace R body s) = true).
Proof.
  induction body as [|c rest IH]; intros s.
  - cbn. repeat split; try tauto.
    + intros [H|H]; [assumption | discriminate].
    + intros [e H]; discriminate.
    + discriminate.
  - rewrite block_cons. cbn [trace].
    pose proof (call_session_fields R c s) as [Hb _].
    pose proof (call_flag_iff c s) as Hf.
    destruct (call R c s) as [s' [v|e]] eqn:Hc; cbn [fst snd] in Hb, Hf.
    + destruct (IH s') as (IHb & IHf & IHr).
      cbn [existsb]. rewrite orb_true_iff.
      assert (Hra : raised (c, Return v) = false) by reflexivity.
      rewrite Hra. cbn [orb].
      destruct (block R rest s') as [s'' [vs|e]] eqn:Hrest; cbn [fst snd] in *;
        (split; [congruence|]); (split; [tauto|]); rewrite <- IHr.
      * split; intros [e H]; discriminate.
      * split; eauto.
    + cbn [fst snd existsb]. split; [assumption|].
      rewrite orb_false_r. split; [exact Hf|].
      cbn. split; eauto.
Qed.

(** The tree a session leaves behind. *)
Lemma session_tree body s :
  _xmlTree (fst (session R body s)) =
  match _lastError (fst (block R body (fst (enter s)))),
        snd (block R body (fst (enter s))) with
  | None, Return _ => _xmlTree (fst (block R body (fst (enter s))))
  | _, _ => _xmlTree s
  end.
Proof.
  unfold session, with_. cbn [enter fst].
  set (s0 := mkCoreDB _ _ _ _ _ _ _).
  destruct (block_facts body s0) as (Hb & _ & _).
  destruct (block R body s0) as [s1 [vs|e]]; cbn [fst snd] in *.
  - unfold exit. cbn. rewrite Hb. cbn. now destruct (_lastError s1).
  - unfold exit. rewrite Hb. cbn.
    destruct (_lastError s1), e; reflexivity.
Qed.

End Sessions.

(** C2 (amended). The tree after a session is the snapshot taken at entry
    exactly when some [setValue] of the session returned an error value
    (whatever was called afterwards) or the body raised an exception, the
    cancellation signal included; in every other case the tree is the one
    the body left, with all its edits. Error values returned by
    [removeMaterial] do not count. *)
Theorem session_all_or_nothing (R : Resources) (body : list Call) (s : CoreDB) :
  let inside := fst (enter s) in
  _xmlTree (fst (session R body s)) =
  if existsb rejected_by_setValue (trace R body inside)
     || existsb raised (trace R body inside)
  then _xmlTree s
  else _xmlTree (fst (block R body inside)).
Proof.
  intros inside. rewrite session_tree. fold inside.
  destruct (block_facts R body inside) as (_ & Hf & Hr).
  assert (Hin : _lastError inside = None) by reflexivity.
  destruct (existsb rejected_by_setValue (trace R body inside)) eqn:Hrej.
  - cbn [orb].
    destruct (_lastError (fst (block R body inside))) eqn:He; [reflexivity|].
    exfalso. apply (proj2 Hf); [now right | reflexivity].
  - cbn [orb].
    assert (He : _lastError (fst (block R body inside)) = None).
    { destruct (_lastError (fst (block R body inside))) eqn:He; [|reflexivity].
      exfalso. assert (Hne : Some e <> None) by discriminate.
      apply Hf in Hne. destruct Hne as [H|H]; [now apply H | discriminate]. }
    rewrite He.
    destruct (existsb raised (trace R body inside)) eqn:Hra.
    + destruct (proj2 Hr eq_refl) as [e ->]. reflexivity.
    + destruct (snd (block R body inside)) eqn:Hs; [reflexivity|].
      assert (Hex : exists e0, Raise (A:=list Value) e = Raise e0) by eauto.
      apply Hr in Hex. discriminate.
Qed.

(** C2 as stated fails where [removeMaterial] returns [Empty] inside a
    session: a call failed content validation and nothing corrected it, yet
    the session is not rolled back, and the edit made before stands. *)
Lemma session_survives_Empty :
  let body := [SetValue Sample.pressure "5"; RemoveMaterial "air"] in
  let after := fst (session Sample.resources body Sample.fresh) in
  map snd (trace Sample.resources body (fst (enter Sample.fresh)))
    = [Return VNone; Return (VError EMPTY)]
  /\ snd (getValue Sample.resources Sample.pressure Sample.fresh) = Return (Some "101325")
  /\ snd (getValue Sample.resources Sample.pressure after) = Return (Some "5")
  /\ _xmlTree after <> _xmlTree Sample.fresh.
Proof.
  cbv zeta. repeat split; try (vm_compute; reflexivity).
  vm_compute. discriminate.
Qed.

Section SessionFlag.
Variable R : Resources.

Lemma trace_app before rest : forall s vs,
  snd (block R before s) = Return vs ->
  trace R (before ++ rest) s = trace R before s ++ trace R rest (fst (block R before s)).
Proof.
  induction before as [|c before IH]; intros s vs Hb.
  - reflexivity.
  - rewrite block_cons in Hb |- *. cbn [app trace].
    destruct (call R c s) as [s' [v|e]]; [|discriminate].
    destruct (block R before s') as [s'' [ws|e]] eqn:Hrest; [|discriminate].
    cbn [fst]. rewrite (IH s' ws) by now rewrite Hrest.
    now rewrite Hrest.
Qed.

Lemma fmap_returns {A B} (f : A -> B) (m : M A) s v :
  snd (fmap f m s) = Return v -> exists a, snd (m s) = Return a /\ v = f a.
Proof.
  unfold fmap, bind, ret. destruct (m s) as [s' [a|e]]; cbn; [|discriminate].
  intros [= <-]. eauto.
Qed.

Lemma fmap_state {A B} (f : A -> B) (m : M A) s : fst (fmap f m s) = fst (m s).
Proof. unfold fmap, bind, ret. now destruct (m s) as [s' [a|e]]. Qed.

Lemma removeMaterial_soft name s e :
  snd (removeMaterial name s) = Return (Some e) ->
  fst (removeMaterial name s) = s /\ (e = REFERENCED \/ e = EMPTY).
Proof.
  unfold removeMaterial. repeat break_match; cbn; intros [= <-] || discriminate; auto.
Qed.

End SessionFlag.

(** C6 (amended). Once a [setValue] inside a session has returned an error
    value the session is rolled back at its end, whatever the calls that
    follow do: a later call that stores a valid value does not withdraw the
    mark, and the tree after the session is the snapshot. *)
Theorem rejected_session_is_rolled_back (R : Resources) (before after : list Call)
    (xpath : Path) (value : string) (e : Error) (vs : list Value) (s : CoreDB) :
  snd (block R before (fst (enter s))) = Return vs ->
  snd (call R (SetValue xpath value) (fst (block R before (fst (enter s)))))
    = Return (VError e) ->
  _xmlTree (fst (session R (before ++ SetValue xpath value :: after) s)) = _xmlTree s.
Proof.
  intros Hbefore Hcall. rewrite session_tree.
  set (inside := fst (enter s)) in *.
  destruct (block_facts R (before ++ SetValue xpath value :: after) inside)
    as (_ & Hflag & _).
  assert (Hmarked : _lastError (fst (block R (before ++ SetValue xpath value :: after)
                                           inside)) <> None).
  { apply Hflag. right.
    rewrite (trace_app R before _ _ vs Hbefore), existsb_app. cbn [trace].
    destruct (call R (SetValue xpath value) _) as [s' [v|x]];
      cbn [snd] in Hcall; [|discriminate].
    injection Hcall as ->. cbn [existsb rejected_by_setValue].
    apply orb_true_r. }
  now destruct (_lastError _).
Qed.

Lemma rejected_session_is_rolled_back_witness :
  _xmlTree (fst (session Sample.resources
                         ([SetValue Sample.gravity "0 0 -1"]
                            ++ SetValue Sample.pressure "-5"
                            :: [SetValue Sample.pressure "5"]) Sample.fresh))
  = _xmlTree Sample.fresh.
Proof.
  apply (rejected_session_is_rolled_back Sample.resources _ _ _ _ OUT_OF_RANGE [VNone]);
    vm_compute; reflexivity.
Defined.

(** C6 as stated fails: the second call corrects the rejected value and
    leaves a valid document inside the session, and still the session ends
    rolled back, the corrected value gone. *)
Lemma corrected_session_still_rolled_back :
  let body := [SetValue Sample.pressure "-5"; SetValue Sample.pressure "5"] in
  let inside := fst (block Sample.resources body (fst (enter Sample.fresh))) in
  let after := fst (session Sample.resources body Sample.fresh) in
  map snd (trace Sample.resources body (fst (enter Sample.fresh)))
    = [Return (VError OUT_OF_RANGE); Return VNone]
  /\ schema_valid Sample.resources (_xmlTree inside) = true
  /\ snd (getValue Sample.resources Sample.pressure inside) = Return (Some "5")
  /\ snd (getValue Sample.resources Sample.pressure after) = Return (Some "101325")
  /\ _xmlTree after = _xmlTree Sample.fresh.
Proof. cbv zeta. repeat split; vm_compute; reflexivity. Qed.

(** C7 (amended). A call that returns an error value leaves the tree and
    the backup as they were, so nothing done earlier is undone. Returned by
    [setValue] (OutOfRange, IntegerOnly, FloatOnly) the error is also
    recorded in the flag; returned by [removeMaterial] (Referenced, Empty)
    it is not: the store is left exactly as it was, flag included. No other
    call returns an error value. *)
Theorem error_value_effects (R : Resources) (c : Call) (s : CoreDB) (e : Error) :
  snd (call R c s) = Return (VError e) ->
  _xmlTree (fst (call R c s)) = _xmlTree s
  /\ _backupTree (fst (call R c s)) = _backupTree s
  /\ ((exists xpath value, c = SetValue xpath value
        /\ _lastError (fst (call R c s)) = Some e
        /\ (e = OUT_OF_RANGE \/ e = INTEGER_ONLY \/ e = FLOAT_ONLY))
      \/ (exists name, c = RemoveMaterial name
           /\ fst (call R c s) = s
           /\ (e = REFERENCED \/ e = EMPTY))).
Proof.
  intros H. split; [|split; [apply call_session_fields|]].
  - destruct c; cbn [call] in H |- *;
      try (apply fmap_returns in H; destruct H as (a & _ & Ha); discriminate);
      try discriminate.
    + rewrite fmap_state. apply fmap_returns in H. destruct H as (a & Ha & Hv).
      destruct (setValue_cases R xpath value s)
        as [(e' & _ & Hs)|[(x & Hs)|(el & txt & _ & Hs)]]; rewrite Hs in Ha |- *;
        cbn in *; try reflexivity; try discriminate.
      unfold after_write in Ha. cbn in Ha.
      destruct (schema_valid R _); [|discriminate].
      injection Ha as <-. discriminate.
    + rewrite fmap_state. apply fmap_returns in H. destruct H as (a & Ha & Hv).
      destruct a as [e'|]; [|discriminate].
      now destruct (removeMaterial_soft name s e' Ha) as [-> _].
  - destruct c; cbn [call] in H |- *;
      try (apply fmap_returns in H; destruct H as (a & _ & Ha); discriminate);
      try discriminate.
    + left. exists xpath, value. split; [reflexivity|].
      rewrite fmap_state. apply fmap_returns in H. destruct H as (a & Ha & Hv).
      destruct (setValue_cases R xpath value s)
        as [(e' & He' & Hs)|[(x & Hs)|(el & txt & _ & Hs)]]; rewrite Hs in Ha |- *;
        cbn in *.
      * injection Ha as <-. injection Hv as ->. now split.
      * discriminate.
      * unfold after_write in Ha. cbn in Ha.
        destruct (schema_valid R _); [|discriminate].
        injection Ha as <-. discriminate.
    + right. exists name. split; [reflexivity|].
      rewrite fmap_state. apply fmap_returns in H. destruct H as (a & Ha & Hv).
      destruct a as [e'|]; [|discriminate]. injection Hv as ->.
      exact (removeMaterial_soft name s e' Ha).
Qed.

Lemma error_value_effects_witness :
  let s := fst (call Sample.resources (SetValue Sample.gravity "0 0 -1")
                     (fst (enter Sample.fresh))) in
  let c := SetValue Sample.maxIterations "ten" in
  _xmlTree (fst (call Sample.resources c s)) = _xmlTree s
  /\ _backupTree (fst (call Sample.resources c s)) = _backupTree s
  /\ ((exists xpath value, c = SetValue xpath value
        /\ _lastError (fst (call Sample.resources c s)) = Some INTEGER_ONLY
        /\ (INTEGER_ONLY = OUT_OF_RANGE \/ INTEGER_ONLY = INTEGER_ONLY
            \/ INTEGER_ONLY = FLOAT_ONLY))
      \/ (exists name, c = RemoveMaterial name
           /\ fst (call Sample.resources c s) = s
           /\ (INTEGER_ONLY = REFERENCED \/ INTEGER_ONLY = EMPTY))).
Proof.
  cbv zeta. apply (error_value_effects Sample.resources). vm_compute. reflexivity.
Defined.

(** C7 as stated fails for [removeMaterial]: inside a session it returns
    [Empty] without setting the flag, and the session then ends with its
    edits in place instead of being rolled back. *)
Lemma Empty_is_not_flagged :
  let inside := fst (enter Sample.fresh) in
  let body := [SetValue Sample.gravity "0 0 -1"; RemoveMaterial "air"] in
  _inContext inside = true
  /\ snd (call Sample.resources (RemoveMaterial "air") inside) = Return (VError EMPTY)
  /\ _lastError (fst (call Sample.resources (RemoveMaterial "air") inside)) = None
  /\ snd (getValue Sample.resources Sample.gravity
            (fst (session Sample.resources body Sample.fresh))) = Return (Some "0 0 -1")
  /\ snd (getValue Sample.resources Sample.gravity Sample.fresh)
     = Return (Some "0 0 -9.81").
Proof. cbv zeta. repeat split; vm_compute; reflexivity. Qed.

(** *** Typed values *)

Section TypedValues.
Variable R : Resources.

Lemma flt_spec q lo : PyStr.flt (PyStr.FFinite q) lo = false <-> (lo <= q)%Q.
Proof.
  cbn. rewrite negb_false_iff. apply Qle_bool_iff.
Qed.

Lemma fgt_spec q hi : PyStr.fgt (PyStr.FFinite q) hi = false <-> (q <= hi)%Q.
Proof.
  cbn. rewrite negb_false_iff. apply Qle_bool_iff.
Qed.

(** Apart from NaN, passing both comparisons of the source is lying within
    the bounds. *)
Lemma range_check x lo hi :
  x <> PyStr.FNaN ->
  (below x (Some lo) = false /\ above x (Some hi) = false) <-> within x lo hi.
Proof.
  intros Hx. destruct x as [q|[|]|]; cbn [below above within].
  - now rewrite flt_spec, fgt_spec.
  - cbn. split; [intros [H _]; discriminate | tauto].
  - cbn. split; [intros [_ H]; discriminate | tauto].
  - contradiction.
Qed.

(** On a scalar number [setValue] parses as declared and hands over to the
    range check. *)
Lemma setValue_on_number s xpath element schema integer lo hi value :
  findall (_xmlTree s) xpath = [element] ->
  schema_find R (tag_path (_xmlTree s) element) = Some schema ->
  has_simple_content schema = true ->
  numeric_leaf schema = Some (integer, lo, hi) ->
  setValue R xpath value s =
  match parse_declared R integer value with
  | None => fail_with (parse_error integer) s
  | Some x => check_and_store R element value x lo hi s
  end.
Proof.
  intros Hf Hs Hc Hn.
  unfold setValue. unfold bind at 1. unfold single. rewrite Hf.
  unfold bind at 1. unfold leaf_schema. rewrite Hs, Hc.
  unfold numeric_leaf in Hn. unfold parse_declared, parse_error.
  destruct (is_inputNumberType schema).
  { injection Hn as <- <- <-. now destruct (PyStr.float _ _). }
  destruct (local_name schema =? "inputNumberListType")%string; [discriminate|].
  destruct (is_decimal schema); [|discriminate].
  destruct (is_simple schema); injection Hn as <- <- <-;
    destruct (contains "integer" _);
    first [now destruct (PyStr.int value) | now destruct (PyStr.float _ _)].
Qed.

Lemma getValue_set_lastError e xpath s :
  snd (getValue R xpath (set_lastError e s)) = snd (getValue R xpath s).
Proof.
  unfold getValue, bind, single, leaf_schema, element_at.
  change (_xmlTree (set_lastError e s)) with (_xmlTree s).
  destruct (findall (_xmlTree s) xpath) as [|p [|]]; try reflexivity.
  change (_xmlTree (set_lastError e s)) with (_xmlTree s).
  destruct (schema_find R _) as [schema|]; [|reflexivity].
  destruct (has_simple_content schema); reflexivity.
Qed.

End TypedValues.




(** A NaN is neither below the minimum nor above the maximum for the
    comparisons of the source: on a bounded float ["nan"] is written like a
    value within the bounds. *)
Lemma nan_is_written (R : Resources) (s : CoreDB) (xpath : Path) (element : position)
    (schema : SchemaType) (lo hi : option Q) :
  findall (_xmlTree s) xpath = [element] ->
  schema_find R (tag_path (_xmlTree s) element) = Some schema ->
  has_simple_content schema = true ->
  numeric_leaf schema = Some (false, lo, hi) ->
  setValue R xpath "nan" s = after_write R element "nan" s.
Proof.
  intros Hf Hs Hc Hn.
  rewrite (setValue_on_number R s xpath element schema false lo hi "nan" Hf Hs Hc Hn).
  change (parse_declared R false "nan") with (Some PyStr.FNaN).
  unfold check_and_store.
  assert (Hlo : below PyStr.FNaN lo = false) by now destruct lo.
  assert (Hhi : above PyStr.FNaN hi = false) by now destruct hi.
  rewrite Hlo, Hhi. apply store_then_validate.
Qed.

Example nan_on_pressure :
  let outcome := setValue Sample.resources Sample.pressure "NaN" Sample.fresh in
  snd outcome = Return None
  /\ snd (getValue Sample.resources Sample.pressure (fst outcome)) = Return (Some "nan").
Proof. cbv zeta. split; vm_compute; reflexivity. Qed.




(** C10 (amended). The modified flag is set by every [setValue] that gets
    as far as writing the value, also when the validation that follows
    raises; a [setValue] that returns an error value or raises before
    writing leaves it as it is. [saveAs], [save] and [load] reset it when
    they return and change nothing when they raise. Every other call
    leaves it as it is. *)
Theorem modified_flag (R : Resources) (c : Call) (s : CoreDB) :
  let s' := fst (call R c s) in
  match c with
  | SetValue xpath value =>
      match snd (call R c s) with
      | Return VNone => _modified s' = true
      | Return _ => _modified s' = _modified s
      | Raise x =>
          s' = s
          \/ (x = DocumentInvalid /\ _modified s' = true
              /\ exists element txt, s' = written element txt s)
      end
  | SaveAs _ | Save | Load _ =>
      match snd (call R c s) with
      | Return _ => _modified s' = false
      | Raise _ => s' = s
      end
  | _ => _modified s' = _modified s
  end.
Proof.
  cbv zeta. destruct c;
    try (cbn [call]; unfold_ops; repeat break_match; cbn; auto; fail);
    try (cbn [call]; unfold_ops; cbn; repeat (break_match; cbn); auto; fail).
  rewrite call_setValue. cbn [fst snd].
  destruct (setValue_cases R xpath value s)
    as [(e & _ & H)|[(x & H)|(el & txt & _ & H)]]; rewrite H; cbn; auto.
  unfold after_write. cbn [fst snd]. destruct (schema_valid R _); cbn; auto.
  right. repeat split. eauto.
Qed.

(** C10 as stated fails: this [setValue] does not succeed, it raises from
    the validation of the document, and the flag is set all the same. *)
Lemma modified_set_by_failed_setValue :
  let outcome := setValue Sample.resources Sample.maxIterations "1_0" Sample.fresh in
  isModified Sample.fresh = false
  /\ snd outcome = Raise DocumentInvalid
  /\ isModified (fst outcome) = true.
Proof. cbv zeta. repeat split; vm_compute; reflexivity. Qed.

(** *** Identities and references *)

Lemma find_seq_first (f : nat -> bool) : forall n a i,
  List.find f (seq a n) = Some i ->
  a <= i < a + n /\ f i = true /\ forall j, a <= j < i -> f j = false.
Proof.
  induction n as [|n IH]; intros a i H; [discriminate|].
  cbn in H. destruct (f a) eqn:Ha.
  - injection H as <-. repeat split; try lia; assumption.
  - apply IH in H. destruct H as (Hi & Hfi & Hmin).
    repeat split; try lia; try assumption.
    intros j Hj. destruct (Nat.eq_dec j a) as [->|Hne]; [assumption|].
    apply Hmin. lia.
Qed.

Lemma find_seq_none (f : nat -> bool) : forall n a,
  List.find f (seq a n) = None <-> forall j, a <= j < a + n -> f j = false.
Proof.
  induction n as [|n IH]; intros a.
  - cbn. split; [intros _ j Hj; lia | reflexivity].
  - cbn. destruct (f a) eqn:Ha.
    + split; [discriminate|]. intros H. rewrite H in Ha by lia. discriminate.
    + rewrite IH. split; intros H j Hj.
      * destruct (Nat.eq_dec j a) as [->|Hne]; [assumption | apply H; lia].
      * apply H. lia.
Qed.

(** The loop of the [add] operations yields the smallest index from 1 whose
    decimal form is not in use, below [maxIndex]; it gives up exactly when
    1 to [maxIndex - 1] are all in use. *)
Lemma free_index_smallest maxIndex idList index :
  free_index maxIndex idList = Some index ->
  1 <= index < maxIndex
  /\ mem (PyStr.str_of_nat index) idList = false
  /\ forall j, 1 <= j < index -> mem (PyStr.str_of_nat j) idList = true.
Proof.
  unfold free_index. intros H. apply find_seq_first in H.
  destruct H as (Hi & Hf & Hmin). repeat split; try lia.
  - now apply negb_true_iff.
  - intros j Hj. specialize (Hmin j Hj). now apply negb_false_iff.
Qed.

Lemma free_index_exhausted maxIndex idList :
  free_index maxIndex idList = None <->
  forall j, 1 <= j < maxIndex -> mem (PyStr.str_of_nat j) idList = true.
Proof.
  unfold free_index. rewrite find_seq_none. split; intros H j Hj.
  - apply negb_false_iff. apply H. lia.
  - apply negb_false_iff. apply H. lia.
Qed.

(** C4, at the failing input. A region holds cell zones with the ids 1 to
    999; the id 1000, which is CELL_ZONE_MAX_INDEX, is free. [addCellZone]
    raises OverflowError and adds nothing: the loop stops one short of the
    ceiling. *)
Theorem addCellZone_stops_short_of_ceiling :
  let s := Sample.crowded 999 in
  let idList := xpath_attr (_xmlTree s)
                  (Descendant (st_named "region" "R1") [st "cellZones"; st "cellZone"])
                  "czid" in
  CELL_ZONE_MAX_INDEX = 1000
  /\ List.length idList = 999
  /\ mem (PyStr.str_of_nat 1000) idList = false
  /\ addCellZone Sample.resources "R1" "outlet" s = (s, Raise OverflowError).
Proof. cbv zeta. repeat split; vm_compute; reflexivity. Qed.

(** One id less in use and the same call succeeds with the smallest free
    id, and an id set free by a removal is handed out again. *)
Example addCellZone_below_ceiling :
  snd (addCellZone Sample.resources "R1" "outlet" (Sample.crowded 998)) = Return 999.
Proof. vm_compute. reflexivity. Qed.

Example material_id_reused :
  let s1 := script Sample.resources
              [Do (AddMaterial "water"); Do (RemoveMaterial "air")] Sample.fresh in
  snd (getMaterials s1) = Return [(2%Z, Some "water", Some "H2O", Some "liquid")]
  /\ snd (addMaterial Sample.resources "air" s1) = Return 1.
Proof. cbv zeta. split; vm_compute; reflexivity. Qed.

(** C8, at the failing input. The region [R1] refers to the material with
    id 1, [air]. [removeMaterial "air"] looks for references under
    [cellZones/region/material], where no region lives: it finds none,
    returns [None] and detaches the material, and the region is left
    pointing at an id that no longer exists. *)
Theorem removeMaterial_misses_region_reference :
  let s := Sample.two_materials_one_region in
  let outcome := removeMaterial "air" s in
  snd (getMaterials s)
    = Return [(1%Z, Some "air", Some "N2+O2", Some "gas");
              (2%Z, Some "water", Some "H2O", Some "liquid")]
  /\ snd (getRegions s) = Return ["R1"]
  /\ xpath_text (_xmlTree s) (Descendant (st "regions") [st "region"; st "material"])
     = ["1"]
  /\ xpath_text (_xmlTree s) (Descendant (st "cellZones") [st "region"; st "material"])
     = []
  /\ snd outcome = Return None
  /\ snd (getMaterials (fst outcome))
     = Return [(2%Z, Some "water", Some "H2O", Some "liquid")]
  /\ xpath_text (_xmlTree (fst outcome))
                (Descendant (st "regions") [st "region"; st "material"]) = ["1"].
Proof. cbv zeta. repeat split; vm_compute; reflexivity. Qed.

(** The other outcomes of [removeMaterial] are as described: the sole
    material is kept, an unknown name is a [LookupError]. *)
Example removeMaterial_sole :
  removeMaterial "air" Sample.fresh = (Sample.fresh, Return (Some EMPTY)).
Proof. vm_compute. reflexivity. Qed.

Example removeMaterial_unknown :
  removeMaterial "steam" Sample.fresh = (Sample.fresh, Raise LookupError).
Proof. vm_compute. reflexivity. Qed.

(** *** The bulk codec *)
Section RoundTrip.
Variable repr : PyVal -> string.

Lemma setBulkInternal_nil el : setBulkInternal repr el (PDict []) = (el, None).
Proof. reflexivity. Qed.

Lemma setBulkInternal_cons el k v rest :
  setBulkInternal repr el (PDict ((k, v) :: rest)) =
  match entry_step repr k v el with
  | (el', None) => setBulkInternal repr el' (PDict rest)
  | (el', Some x) => (el', Some x)
  end.
Proof.
  cbn [setBulkInternal]. unfold entry_step.
  destruct (PyStr.startswith "@" k); [destruct v; reflexivity|].
  destruct (PyStr.startswith "$" k); [reflexivity|].
  destruct v as [s|z|b| |items|members]; try reflexivity.
  - fold (setBulkInternal repr (new_element k) (PDict items)).
    destruct (setBulkInternal repr (new_element k) (PDict items)) as [child [x|]];
      reflexivity.
  - destruct members as [|[s|z|b| |items|ms] members']; try reflexivity.
    change (members_step repr k (PDict items :: members') el)
      with (let (child, x) := setBulkInternal repr (new_element k) (PDict items) in
            match x with
            | None => members_step repr k members' (append child el)
            | Some _ => (append child el, x)
            end).
    fold (setBulkInternal repr (new_element k) (PDict items)).
    destruct (setBulkInternal repr (new_element k) (PDict items)) as [child [x|]];
      [reflexivity|].
    fold (members_step repr k).
    destruct (members_step repr k members' (append child el)) as [el' [x|]];
      reflexivity.
Qed.

Lemma getBulkInternal_unfold t attrs txt cs :
  getBulkInternal (mkElement t attrs txt cs) =
  let data := gather cs (fold_left add_attr attrs []) in
  match txt with
  | Some s =>
      match data with
      | [] => PStr s
      | _ :: _ => PDict (assoc_set "$" (PStr s) data)
      end
  | None => PDict data
  end.
Proof.
  cbn [getBulkInternal].
  assert (H : forall data,
    (fix each (l : list Element) (data : list (string * PyVal)) {struct l} :=
       match l with
       | [] => data
       | child :: l' => each l' (add_result (tag child) (getBulkInternal child) data)
       end) cs data = gather cs data).
  { unfold gather. induction cs as [|c cs IH]; intros data; [reflexivity|].
    cbn [fold_left]. apply IH. }
  rewrite H. reflexivity.
Qed.
End RoundTrip.

Section Assoc.
Context {V : Type}.

Lemma assoc_get_none (k : string) (l : list (string * V)) :
  assoc_get k l = None <-> ~ In k (map fst l).
Proof.
  induction l as [|[k' v'] l IH]; cbn; [tauto|].
  destruct (String.eqb_spec k' k) as [->|Hne].
  - split; [discriminate | intros H; exfalso; apply H; now left].
  - rewrite IH. split; [intros H [H'|H']; [congruence | tauto] | tauto].
Qed.

Lemma assoc_set_fresh (k : string) (v : V) (l : list (string * V)) :
  assoc_get k l = None -> assoc_set k v l = l ++ [(k, v)].
Proof.
  induction l as [|[k' v'] l IH]; cbn; [reflexivity|].
  destruct (String.eqb k' k); [discriminate|]. intros H. now rewrite IH.
Qed.

Lemma assoc_get_last (k : string) (v : V) (l : list (string * V)) :
  assoc_get k l = None -> assoc_get k (l ++ [(k, v)]) = Some v.
Proof.
  induction l as [|[k' v'] l IH]; cbn.
  - now rewrite String.eqb_refl.
  - destruct (String.eqb k' k); [discriminate | exact IH].
Qed.

Lemma assoc_set_last (k : string) (v w : V) (l : list (string * V)) :
  assoc_get k l = None -> assoc_set k w (l ++ [(k, v)]) = l ++ [(k, w)].
Proof.
  induction l as [|[k' v'] l IH]; cbn.
  - now rewrite String.eqb_refl.
  - destruct (String.eqb k' k); [discriminate|]. intros H. now rewrite IH.
Qed.

Lemma assoc_get_in (k : string) (v : V) (l : list (string * V)) :
  keys_distinct l = true -> In (k, v) l -> assoc_get k l = Some v.
Proof.
  induction l as [|[k' v'] l IH]; cbn; [tauto|].
  intros Hd [H|H].
  - injection H as -> ->. now rewrite String.eqb_refl.
  - apply andb_true_iff in Hd. destruct Hd as [Hfresh Hd].
    destruct (String.eqb_spec k' k) as [->|Hne]; [|now apply IH].
    exfalso. apply negb_true_iff in Hfresh.
    assert (Hex : existsb (fun kv => String.eqb (fst kv) k) l = true).
    { apply existsb_exists. exists (k, v). split; [assumption|]. cbn.
      apply String.eqb_refl. }
    congruence.
Qed.

Lemma keys_distinct_NoDup (l : list (string * V)) :
  keys_distinct l = true <-> NoDup (map fst l).
Proof.
  induction l as [|[k v] l IH]; cbn.
  - split; [constructor | reflexivity].
  - rewrite andb_true_iff, IH, negb_true_iff. split.
    + intros [Hf Hn]. constructor; [|assumption]. intros Hin.
      apply in_map_iff in Hin. destruct Hin as ([k' v'] & Hk & Hin). cbn in Hk. subst.
      assert (Hex : existsb (fun kv => String.eqb (fst kv) k) l = true).
      { apply existsb_exists. exists (k, v'). split; [assumption|].
        cbn. apply String.eqb_refl. }
      congruence.
    + intros Hn. inversion Hn as [|? ? Hnotin Hnd]; subst. split; [|assumption].
      destruct (existsb _ l) eqn:Hex; [|reflexivity]. exfalso. apply Hnotin.
      apply existsb_exists in Hex. destruct Hex as ([k' v'] & Hin & Hk). cbn in Hk.
      apply String.eqb_eq in Hk. subst. apply in_map_iff. exists (k, v'). now split.
Qed.

End Assoc.

Lemma startswith_at k : PyStr.startswith "@" k = true -> k = ("@" ++ PyStr.tail k)%string.
Proof.
  unfold PyStr.startswith. destruct k as [|c k]; cbn; [discriminate|].
  destruct (Ascii.eqb_spec "@"%char c) as [<-|]; cbn; [reflexivity|].
  destruct c as [[] [] [] [] [] [] [] []]; cbn; try discriminate; congruence.
Qed.

Section BuildShape.
Variable repr : PyVal -> string.



Lemma RT_build t v :
  RT repr v -> normal v = true -> is_dict v = true ->
  setBulkInternal repr (new_element t) v = (built repr t v, None).
Proof.
  intros H Hn Hd. destruct (H t Hn Hd) as (Hs & _ & _). unfold built.
  destruct (setBulkInternal repr (new_element t) v) as [e x]. cbn in *. now subst.
Qed.

Lemma append_shape c el :
  append c el = mkElement (tag el) (attrib el) (text el) (children el ++ [c]).
Proof. reflexivity. Qed.

Lemma members_step_ok k members :
  Forall (RT repr) members ->
  forallb (fun m => is_dict m && normal m) members = true ->
  forall el,
    members_step repr k members el
    = (mkElement (tag el) (attrib el) (text el)
                 (children el ++ map (built repr k) members), None).
Proof.
  induction 1 as [|m members Hm _ IH]; intros Hall el.
  - cbn. rewrite app_nil_r. now destruct el.
  - cbn [forallb] in Hall. apply andb_true_iff in Hall. destruct Hall as [Hm' Hall].
    apply andb_true_iff in Hm'. destruct Hm' as [Hd Hn].
    destruct m as [| | | |items|]; try discriminate.
    change (members_step repr k (PDict items :: members) el)
      with (let (child, x) := setBulkInternal repr (new_element k) (PDict items) in
            match x with
            | None => members_step repr k members (append child el)
            | Some _ => (append child el, x)
            end).
    rewrite (RT_build k _ Hm Hn Hd). rewrite (IH Hall). cbn [map].
    cbn [append tag attrib text children]. now rewrite <- app_assoc.
Qed.

Lemma fold_append_leaves k members : forall el,
  fold_left (fun el item => append (leaf k (str repr item)) el) members el
  = mkElement (tag el) (attrib el) (text el)
              (children el ++ map (fun m => leaf k (str repr m)) members).
Proof.
  induction members as [|m members IH]; intros el.
  - cbn. rewrite app_nil_r. now destruct el.
  - cbn [fold_left map]. rewrite IH. cbn [append tag attrib text children].
    now rewrite <- app_assoc.
Qed.

Lemma plain_key_prefixes k :
  is_plain_key k = true ->
  PyStr.startswith "@" k = false /\ PyStr.startswith "$" k = false.
Proof.
  unfold is_plain_key. intros H. apply andb_true_iff in H.
  now rewrite !negb_true_iff in H.
Qed.

Lemma entry_step_plain k v el :
  is_plain_key k = true -> entry_ok (k, v) = true -> RTs repr v ->
  entry_step repr k v el
  = (mkElement (tag el) (attrib el) (text el) (children el ++ kids repr k v), None).
Proof.
  intros Hk Hok Hrt. destruct (plain_key_prefixes k Hk) as [Hat Hdollar].
  unfold entry_step. rewrite Hat, Hdollar.
  unfold entry_ok in Hok. cbn [fst snd] in Hok.
  unfold is_attr_key, is_text_key in Hok. rewrite Hat, Hdollar in Hok. cbn in Hok.
  destruct v as [s|z|b| |items|members]; try discriminate.
  - reflexivity.
  - cbn [RTs] in Hrt. rewrite (RT_build k _ Hrt Hok eq_refl). reflexivity.
  - cbn [RTs] in Hrt. apply andb_true_iff in Hok. destruct Hok as [Hlen Hall].
    destruct members as [|m1 members]; [discriminate|].
    apply orb_true_iff in Hall. destruct Hall as [Hall|Hall].
    + (* strings *)
      assert (Hkids : map (fun m => leaf k (str repr m)) (m1 :: members)
                      = kids repr k (PList (m1 :: members))).
      { cbn [kids]. apply map_ext_in. intros m Hin.
        rewrite forallb_forall in Hall. specialize (Hall m Hin).
        destruct m; try discriminate. reflexivity. }
      rewrite <- Hkids.
      destruct m1; try discriminate. now rewrite fold_append_leaves.
    + (* dicts *)
      assert (Hkids : map (built repr k) (m1 :: members)
                      = kids repr k (PList (m1 :: members))).
      { cbn [kids]. apply map_ext_in. intros m Hin.
        rewrite forallb_forall in Hall. specialize (Hall m Hin).
        destruct m; try discriminate. reflexivity. }
      rewrite <- Hkids.
      destruct m1; try discriminate. now apply members_step_ok.
Qed.

Lemma build_shape items :
  Forall (fun kv => RTs repr (snd kv)) items ->
  forallb entry_ok items = true ->
  forall el,
    NoDup (map fst (attrib el) ++ map fst (attrs_of items)) ->
    setBulkInternal repr el (PDict items)
    = (mkElement (tag el) (attrib el ++ attrs_of items) (text_of items (text el))
                 (children el ++ kids_of repr items), None).
Proof.
  induction 1 as [|[k v] items Hv _ IH]; intros Hok el Hnd.
  - cbn. rewrite !app_nil_r. now destruct el.
  - cbn [forallb] in Hok. apply andb_true_iff in Hok. destruct Hok as [Hkv Hok].
    rewrite setBulkInternal_cons. cbn [snd] in Hv.
    destruct (is_attr_key k) eqn:Hattr; [|destruct (is_text_key k) eqn:Htext].
    + (* an attribute *)
      unfold entry_ok in Hkv. cbn [fst snd] in Hkv. rewrite Hattr in Hkv.
      destruct v as [s| | | | |]; try discriminate.
      unfold entry_step. unfold is_attr_key in Hattr. rewrite Hattr.
      assert (Hplain : is_plain_key k = false)
        by (unfold is_plain_key; now rewrite Hattr).
      assert (Htxt : is_text_key k = false)
        by (unfold is_text_key; now rewrite Hattr).
      assert (Hao : attrs_of ((k, PStr s) :: items) = (PyStr.tail k, s) :: attrs_of items).
      { unfold attrs_of. cbn [flat_map fst snd]. unfold is_attr_key. now rewrite Hattr. }
      rewrite Hao in Hnd |- *.
      assert (Hfresh : assoc_get (PyStr.tail k) (attrib el) = None).
      { apply assoc_get_none. intros Hin.
        apply NoDup_remove_2 in Hnd. apply Hnd. apply in_or_app. now left. }
      rewrite IH; [|assumption|].
      * cbn [set_attr tag attrib text children]. rewrite (assoc_set_fresh _ _ _ Hfresh).
        rewrite <- app_assoc. cbn [app].
        unfold text_of, kids_of. cbn [fold_left flat_map fst snd].
        now rewrite Htxt, Hplain.
      * cbn [set_attr attrib]. rewrite (assoc_set_fresh _ _ _ Hfresh).
        rewrite map_app. cbn [map fst]. rewrite <- app_assoc. cbn [app].
        cbn [map fst] in Hnd.
        apply NoDup_remove_1 in Hnd as Hnd1.
        apply NoDup_remove_2 in Hnd as Hnd2.
        apply NoDup_Add with (a := PyStr.tail k) (l := map fst (attrib el) ++ map fst (attrs_of items));
          [|split; assumption].
        apply Add_app.
    + (* the text *)
      unfold entry_ok in Hkv. cbn [fst snd] in Hkv. rewrite Hattr, Htext in Hkv.
      apply andb_true_iff in Hkv. destruct Hkv as [Hk Hs].
      destruct v as [s| | | | |]; try discriminate.
      unfold entry_step.
      unfold is_attr_key in Hattr. unfold is_text_key in Htext.
      rewrite Hattr in Htext |- *. cbn [negb andb] in Htext. rewrite Htext.
      assert (Hplain : is_plain_key k = false)
        by (unfold is_plain_key; now rewrite Hattr, Htext).
      assert (Hao : attrs_of ((k, PStr s) :: items) = attrs_of items).
      { unfold attrs_of. cbn [flat_map fst snd]. unfold is_attr_key. now rewrite Hattr. }
      rewrite Hao in Hnd |- *.
      rewrite IH; [|assumption|exact Hnd].
      cbn [set_text tag attrib text children str].
      unfold text_of, kids_of. cbn [fold_left flat_map fst snd].
      unfold is_text_key. now rewrite Hattr, Htext, Hplain.
    + (* an element or a run of elements *)
      assert (Hplain : is_plain_key k = true).
      { unfold is_plain_key. unfold is_attr_key in Hattr. unfold is_text_key in Htext.
        rewrite Hattr in Htext |- *. cbn in Htext |- *. now rewrite Htext. }
      rewrite (entry_step_plain k v el Hplain Hkv Hv).
      assert (Hao : attrs_of ((k, v) :: items) = attrs_of items).
      { unfold attrs_of. cbn [flat_map fst snd]. now rewrite Hattr. }
      rewrite Hao in Hnd |- *.
      rewrite IH; [|assumption|exact Hnd].
      cbn [tag attrib text children].
      unfold text_of, kids_of. cbn [fold_left flat_map fst snd].
      rewrite Htext, Hplain. now rewrite <- app_assoc.
Qed.

End BuildShape.

Section ReadBack.
Variable repr : PyVal -> string.

Lemma fold_add_attr A : forall data,
  NoDup (map fst data ++ map (fun a => ("@" ++ fst a)%string) A) ->
  fold_left add_attr A data
  = data ++ map (fun a => (("@" ++ fst a)%string, PStr (snd a))) A.
Proof.
  induction A as [|[a s] A IH]; intros data Hnd.
  - cbn. now rewrite app_nil_r.
  - cbn [fold_left map fst snd] in *. unfold add_attr at 2. cbn [fst snd].
    assert (Hfresh : assoc_get ("@" ++ a)%string data = None).
    { apply assoc_get_none. intros Hin.
      apply NoDup_remove_2 in Hnd. apply Hnd. apply in_or_app. now left. }
    rewrite (assoc_set_fresh _ _ _ Hfresh). rewrite IH.
    + now rewrite <- app_assoc.
    + rewrite map_app. cbn [map fst]. rewrite <- app_assoc. cbn [app].
      apply NoDup_remove_1 in Hnd as Hnd1. apply NoDup_remove_2 in Hnd as Hnd2.
      apply NoDup_Add with (a := ("@" ++ a)%string)
                           (l := map fst data ++ map (fun a0 => ("@" ++ fst a0)%string) A);
        [apply Add_app | split; assumption].
Qed.

(** The entries [getBulk] makes of the attributes are the attribute entries
    of the mapping. *)
Lemma attr_entries items :
  forallb entry_ok items = true ->
  map (fun a => (("@" ++ fst a)%string, PStr (snd a))) (attrs_of items)
  = filter (fun kv => is_attr_key (fst kv)) items.
Proof.
  induction items as [|[k v] items IH]; intros Hok; [reflexivity|].
  cbn [forallb] in Hok. apply andb_true_iff in Hok. destruct Hok as [Hkv Hok].
  unfold attrs_of. cbn [flat_map filter fst snd]. fold (attrs_of items).
  destruct (is_attr_key k) eqn:Hattr; [|now apply IH].
  unfold entry_ok in Hkv. cbn [fst snd] in Hkv. rewrite Hattr in Hkv.
  destruct v as [s| | | | |]; try discriminate.
  cbn [app map fst snd]. rewrite IH by assumption.
  unfold is_attr_key in Hattr. now rewrite <- (startswith_at k Hattr).
Qed.

Lemma leaf_read k s : getBulkInternal (leaf k s) = PStr s.
Proof. reflexivity. Qed.

Lemma add_result_fresh t r data :
  assoc_get t data = None -> add_result t r data = data ++ [(t, r)].
Proof.
  intros H. unfold add_result. rewrite H. now apply assoc_set_fresh.
Qed.

Lemma add_result_second t r1 r2 data :
  assoc_get t data = None -> (forall l, r1 <> PList l) ->
  add_result t r2 (data ++ [(t, r1)]) = data ++ [(t, PList [r1; r2])].
Proof.
  intros H Hr. unfold add_result. rewrite (assoc_get_last _ _ _ H).
  destruct r1; try now rewrite assoc_set_last. now specialize (Hr members).
Qed.

Lemma add_result_more t acc r data :
  assoc_get t data = None ->
  add_result t r (data ++ [(t, PList acc)]) = data ++ [(t, PList (acc ++ [r]))].
Proof.
  intros H. unfold add_result. rewrite (assoc_get_last _ _ _ H).
  now rewrite assoc_set_last.
Qed.



Lemma member_read k m :
  RT repr m -> member_ok m = true ->
  tag (member_element repr k m) = k
  /\ getBulkInternal (member_element repr k m) = canon m
  /\ forall l, canon m <> PList l.
Proof.
  intros Hrt Hok. unfold member_ok in Hok.
  destruct m as [s| | | |items|]; try discriminate.
  - repeat split. intros l. discriminate.
  - cbn in Hok. destruct (Hrt k Hok eq_refl) as (_ & Ht & Hg).
    repeat split; try assumption. intros l. cbn. discriminate.
Qed.

Lemma gather_more k members : forall acc data,
  Forall (RT repr) members -> forallb member_ok members = true ->
  assoc_get k data = None ->
  gather (map (member_element repr k) members) (data ++ [(k, PList acc)])
  = data ++ [(k, PList (acc ++ map canon members))].
Proof.
  induction members as [|m members IH]; intros acc data Hrt Hok Hfresh.
  - cbn. now rewrite app_nil_r.
  - inversion Hrt as [|? ? Hm Hrest]; subst.
    cbn [forallb] in Hok. apply andb_true_iff in Hok. destruct Hok as [Hmok Hok].
    destruct (member_read k m Hm Hmok) as (Ht & Hg & _).
    cbn [map]. unfold gather. cbn [fold_left]. fold (gather (map (member_element repr k) members)).
    rewrite Ht, Hg, (add_result_more _ _ _ _ Hfresh).
    rewrite IH by assumption. now rewrite <- app_assoc.
Qed.

Lemma gather_entry k v data :
  is_plain_key k = true -> entry_ok (k, v) = true -> RTs repr v ->
  assoc_get k data = None ->
  gather (kids repr k v) data = data ++ [(k, canon v)].
Proof.
  intros Hk Hok Hrt Hfresh. destruct (plain_key_prefixes k Hk) as [Hat Hdollar].
  unfold entry_ok in Hok. cbn [fst snd] in Hok.
  unfold is_attr_key, is_text_key in Hok. rewrite Hat, Hdollar in Hok. cbn in Hok.
  destruct v as [s|z|b| |items|members]; try discriminate.
  - cbn. now apply add_result_fresh.
  - cbn [RTs] in Hrt. destruct (Hrt k Hok eq_refl) as (_ & Ht & Hg).
    cbn [kids]. unfold gather. cbn [fold_left]. rewrite Ht, Hg.
    now apply add_result_fresh.
  - cbn [RTs] in Hrt. apply andb_true_iff in Hok. destruct Hok as [Hlen Hall].
    assert (Hmem : forallb member_ok members = true).
    { apply forallb_forall. intros m Hin. unfold member_ok.
      apply orb_true_iff in Hall. destruct Hall as [Hall|Hall];
        rewrite forallb_forall in Hall; specialize (Hall m Hin);
        rewrite Hall; [reflexivity | apply orb_true_r]. }
    change (kids repr k (PList members)) with (map (member_element repr k) members).
    destruct members as [|m1 [|m2 members]]; try discriminate.
    inversion Hrt as [|? ? Hm1 Hrt']; subst.
    inversion Hrt' as [|? ? Hm2 Hrest]; subst.
    cbn [forallb] in Hmem.
    apply andb_true_iff in Hmem. destruct Hmem as [Hok1 Hmem].
    apply andb_true_iff in Hmem. destruct Hmem as [Hok2 Hmem].
    destruct (member_read k m1 Hm1 Hok1) as (Ht1 & Hg1 & Hnl1).
    destruct (member_read k m2 Hm2 Hok2) as (Ht2 & Hg2 & _).
    cbn [map]. unfold gather. cbn [fold_left].
    fold (gather (map (member_element repr k) members)).
    rewrite Ht1, Hg1, (add_result_fresh _ _ _ Hfresh).
    rewrite Ht2, Hg2, (add_result_second _ _ _ _ Hfresh Hnl1).
    now rewrite gather_more.
Qed.

Lemma gather_app cs1 cs2 data : gather (cs1 ++ cs2) data = gather cs2 (gather cs1 data).
Proof. unfold gather. apply fold_left_app. Qed.

Lemma gather_kids_of items :
  Forall (fun kv => RTs repr (snd kv)) items ->
  forallb entry_ok items = true ->
  forall data,
    NoDup (map fst data
           ++ map fst (filter (fun kv => is_plain_key (fst kv)) items)) ->
    gather (kids_of repr items) data
    = data ++ filter (fun kv => is_plain_key (fst kv))
                     (map (fun kv => (fst kv, canon (snd kv))) items).
Proof.
  induction 1 as [|[k v] items Hv _ IH]; intros Hok data Hnd.
  - cbn. now rewrite app_nil_r.
  - cbn [forallb] in Hok. apply andb_true_iff in Hok. destruct Hok as [Hkv Hok].
    unfold kids_of. cbn [flat_map map filter fst snd] in *. fold (kids_of repr items).
    destruct (is_plain_key k) eqn:Hplain.
    + cbn [map fst] in Hnd.
      assert (Hfresh : assoc_get k data = None).
      { apply assoc_get_none. intros Hin.
        apply NoDup_remove_2 in Hnd. apply Hnd. apply in_or_app. now left. }
      rewrite gather_app, (gather_entry k v data Hplain Hkv Hv Hfresh).
      rewrite IH; [now rewrite <- app_assoc | assumption |].
      rewrite map_app. cbn [map fst]. rewrite <- app_assoc. cbn [app].
      apply NoDup_remove_1 in Hnd as Hnd1. apply NoDup_remove_2 in Hnd as Hnd2.
      apply NoDup_Add with (a := k)
        (l := map fst data
              ++ map fst (filter (fun kv => is_plain_key (fst kv)) items));
        [apply Add_app | split; assumption].
    + cbn [app]. now apply IH.
Qed.

End ReadBack.

Section Assemble.
Variable repr : PyVal -> string.

Lemma distinct_keys_kept {V : Type} (keep : string * V -> bool)
    (items : list (string * V)) :
  NoDup (map fst items) -> NoDup (map fst (filter keep items)).
Proof.
  induction items as [|kv items IH]; cbn [filter map]; [trivial|].
  intros Hnd. inversion Hnd as [|? ? Hnotin Hnd']; subst.
  destruct (keep kv); [|now apply IH]. cbn [map]. constructor; [|now apply IH].
  intros Hin. apply Hnotin. apply in_map_iff in Hin. destruct Hin as (y & Hy & Hin).
  apply filter_In in Hin. apply in_map_iff. exists y. tauto.
Qed.

Lemma filter_map_key (p : string -> bool) (g : PyVal -> PyVal) (items : list (string * PyVal)) :
  filter (fun kv => p (fst kv)) (map (fun kv => (fst kv, g (snd kv))) items)
  = map (fun kv => (fst kv, g (snd kv))) (filter (fun kv => p (fst kv)) items).
Proof.
  induction items as [|[k v] items IH]; cbn; [reflexivity|].
  destruct (p k); cbn; now rewrite IH.
Qed.

(** A normal mapping has at most one text entry, and it is what is left
    as the text. *)
Lemma text_entry items : forall before,
  keys_distinct items = true -> forallb entry_ok items = true ->
  (filter (fun kv => is_text_key (fst kv)) items = []
   /\ text_of items before = before)
  \/ exists s, filter (fun kv => is_text_key (fst kv)) items = [("$", PStr s)]
               /\ text_of items before = Some s.
Proof.
  induction items as [|[k v] items IH]; intros before Hd Hok; [now left|].
  cbn [keys_distinct] in Hd. apply andb_true_iff in Hd. destruct Hd as [Hfresh Hd].
  cbn [forallb] in Hok. apply andb_true_iff in Hok. destruct Hok as [Hkv Hok].
  unfold text_of. cbn [filter fold_left fst snd]. fold (text_of items).
  destruct (is_text_key k) eqn:Htext; [|now apply IH].
  unfold entry_ok in Hkv. cbn [fst snd] in Hkv. rewrite Htext in Hkv.
  assert (Hattr : is_attr_key k = false).
  { unfold is_text_key in Htext. unfold is_attr_key.
    destruct (PyStr.startswith "@" k); [discriminate | reflexivity]. }
  rewrite Hattr in Hkv. apply andb_true_iff in Hkv. destruct Hkv as [Hk Hs].
  apply String.eqb_eq in Hk. subst k.
  destruct v as [s| | | | |]; try discriminate.
  right. exists s.
  assert (Hnone : filter (fun kv => is_text_key (fst kv)) items = []).
  { apply negb_true_iff in Hfresh.
    destruct (filter (fun kv => is_text_key (fst kv)) items) as [|[k' v'] rest] eqn:Hf;
      [reflexivity|]. exfalso.
    assert (Hin : In (k', v') (filter (fun kv => is_text_key (fst kv)) items))
      by (rewrite Hf; now left).
    apply filter_In in Hin. destruct Hin as [Hin Hk']. cbn in Hk'.
    rewrite forallb_forall in Hok. specialize (Hok _ Hin).
    unfold entry_ok in Hok. cbn [fst snd] in Hok. rewrite Hk' in Hok.
    assert (Hattr' : is_attr_key k' = false).
    { unfold is_text_key in Hk'. unfold is_attr_key.
      destruct (PyStr.startswith "@" k'); [discriminate | reflexivity]. }
    rewrite Hattr' in Hok. apply andb_true_iff in Hok. destruct Hok as [Hk'' _].
    assert (Hex : existsb (fun kv => String.eqb (fst kv) "$") items = true).
    { apply existsb_exists. exists (k', v'). now split. }
    congruence. }
  rewrite Hnone. split; [reflexivity|].
  destruct (IH (Some s) Hd Hok) as [[_ H]|(s' & H & _)]; [assumption | congruence].
Qed.

(** Without attributes and elements a mapping is all text entries. *)
Lemma only_text_entries (items : list (string * PyVal)) :
  filter (fun kv => is_attr_key (fst kv)) items = [] ->
  filter (fun kv => is_plain_key (fst kv)) items = [] ->
  filter (fun kv => is_text_key (fst kv)) items = items.
Proof.
  induction items as [|[k v] items IH]; [reflexivity|].
  cbn [filter fst]. unfold is_plain_key, is_text_key, is_attr_key in *.
  destruct (PyStr.startswith "@" k); cbn [negb andb]; [intros H; discriminate H|].
  destruct (PyStr.startswith "$" k); cbn [negb andb]; [|intros _ H; discriminate H].
  intros Ha Hp. f_equal. now apply IH.
Qed.

Lemma NoDup_attr_plain (l : list (string * PyVal)) :
  NoDup (map fst l) ->
  NoDup (map fst (filter (fun kv => is_attr_key (fst kv)) l)
         ++ map fst (filter (fun kv => is_plain_key (fst kv)) l)).
Proof.
  induction l as [|[k v] l IHl]; [constructor|].
  cbn [map fst filter]. intros H. inversion H as [|? ? Hnotin Hl]; subst.
  assert (Hsub : forall p q, In k (map fst (filter p l) ++ map fst (filter q l)) ->
                             In k (map fst l)).
  { intros p q Hin. apply in_app_or in Hin.
    destruct Hin as [Hin|Hin]; apply in_map_iff in Hin;
      destruct Hin as (y & Hy & Hin); apply filter_In in Hin;
      apply in_map_iff; exists y; tauto. }
  unfold is_plain_key at 1. unfold is_attr_key at 1 3.
  destruct (PyStr.startswith "@" k) eqn:Hat; cbn [negb andb map fst app].
  - constructor; [|now apply IHl]. intros Hin. apply Hnotin. eapply Hsub, Hin.
  - destruct (PyStr.startswith "$" k); cbn [negb andb map fst app]; [now apply IHl|].
    eapply NoDup_Add; [apply Add_app|]. split; [now apply IHl|].
    intros Hin. apply Hnotin. eapply Hsub, Hin.
Qed.

Lemma RT_dict items :
  Forall (fun kv => RTs repr (snd kv)) items -> RT repr (PDict items).
Proof.
  intros Hrt t Hn _.
  change (normal (PDict items))
    with (keys_distinct items && negb (only_text items) && forallb entry_ok items) in Hn.
  apply andb_true_iff in Hn. destruct Hn as [Hn Hok].
  apply andb_true_iff in Hn. destruct Hn as [Hd Hnot].
  apply negb_true_iff in Hnot.
  pose proof (proj1 (keys_distinct_NoDup items) Hd) as Hnd.
  pose proof (attr_entries items Hok) as Hattrs.
  assert (Hnames : NoDup (map fst (attrs_of items))).
  { apply (NoDup_map_inv (fun a => ("@" ++ a)%string)). rewrite map_map.
    replace (map (fun x => ("@" ++ fst x)%string) (attrs_of items))
      with (map fst (map (fun a => (("@" ++ fst a)%string, PStr (snd a)))
                         (attrs_of items)))
      by (rewrite map_map; reflexivity).
    rewrite Hattrs. now apply distinct_keys_kept. }
  pose proof (build_shape repr items Hrt Hok (new_element t) Hnames) as Hbuild.
  cbn [new_element tag attrib text children app] in Hbuild.
  unfold built. rewrite Hbuild. cbn [fst snd tag].
  split; [reflexivity|]. split; [reflexivity|].
  rewrite getBulkInternal_unfold. cbv zeta.
  rewrite (fold_add_attr (attrs_of items) []).
  2:{ cbn [map app].
      replace (map (fun a => ("@" ++ fst a)%string) (attrs_of items))
        with (map fst (map (fun a => (("@" ++ fst a)%string, PStr (snd a)))
                           (attrs_of items)))
        by (rewrite map_map; reflexivity).
      rewrite Hattrs. now apply distinct_keys_kept. }
  cbn [app]. rewrite Hattrs.
  rewrite (gather_kids_of repr items Hrt Hok).
  2:{ now apply NoDup_attr_plain. }
  cbn [canon].
  destruct (text_entry items None Hd Hok) as [[Hnone Htxt]|(s & Hone & Htxt)];
    rewrite Htxt, Hnone || rewrite Htxt, Hone.
  - now rewrite app_nil_r.
  - set (data := filter (fun kv => is_attr_key (fst kv)) items
                 ++ filter (fun kv => is_plain_key (fst kv))
                           (map (fun kv => (fst kv, canon (snd kv))) items)).
    assert (Hfresh : assoc_get "$" data = None).
    { apply assoc_get_none. intros Hin. apply in_map_iff in Hin.
      destruct Hin as ([k v] & Hk & Hin). cbn in Hk. subst k.
      apply in_app_or in Hin. destruct Hin as [Hin|Hin];
        apply filter_In in Hin; destruct Hin as [_ Hin]; cbn in Hin; discriminate. }
    rewrite (assoc_set_fresh _ _ _ Hfresh).
    destruct data as [|entry data'] eqn:Hdata.
    + exfalso. apply app_eq_nil in Hdata. destruct Hdata as [Ha Hp].
      rewrite filter_map_key in Hp. apply map_eq_nil in Hp.
      pose proof (only_text_entries items Ha Hp) as Hall.
      rewrite Hone in Hall. rewrite <- Hall in Hnot. cbn in Hnot. discriminate.
    + subst data. rewrite <- Hdata. now rewrite <- app_assoc.
Qed.

End Assemble.



Section RoundTripAll.
Variable repr : PyVal -> string.

Lemma RTs_RT v : RTs repr v -> RT repr v.
Proof.
  destruct v; try (intros H; exact H). intros _ t Hn. discriminate.
Qed.

Lemma RT_all v : RTs repr v.
Proof.
  induction v using PyVal_nested_ind;
    try (intros t Hn Hd; discriminate).
  - cbn [RTs]. now apply RT_dict.
  - cbn [RTs]. eapply Forall_impl; [|eassumption]. apply RTs_RT.
Qed.

End RoundTripAll.

(** *** Equality up to the order of keys *)

Lemma py_eq_dict c d :
  py_eq (PDict c) (PDict d)
  = Nat.eqb (List.length c) (List.length d)
    && forallb (fun kv => match assoc_get (fst kv) d with
                          | Some v' => py_eq (snd kv) v'
                          | None => false
                          end) c.
Proof.
  cbn [py_eq]. f_equal.
  induction c as [|[k v] c IH]; [reflexivity|].
  cbn [forallb fst snd]. destruct (assoc_get k d); [|reflexivity]. now rewrite IH.
Qed.

Lemma py_eq_list_map (g : PyVal -> PyVal) l :
  Forall (fun m => py_eq (g m) m = true) l -> py_eq (PList (map g l)) (PList l) = true.
Proof.
  induction 1 as [|m l Hm _ IH]; [reflexivity|].
  cbn [map]. change (py_eq (g m) m && py_eq (PList (map g l)) (PList l) = true).
  now rewrite Hm, IH.
Qed.

Lemma key_partition (items : list (string * PyVal)) :
  List.length (filter (fun kv => is_attr_key (fst kv)) items)
  + List.length (filter (fun kv => is_plain_key (fst kv)) items)
  + List.length (filter (fun kv => is_text_key (fst kv)) items)
  = List.length items.
Proof.
  induction items as [|[k v] items IH]; [reflexivity|].
  cbn [filter fst]. unfold is_plain_key at 1. unfold is_text_key at 1.
  unfold is_attr_key at 1.
  destruct (PyStr.startswith "@" k); cbn [negb andb List.length];
    [lia|]. destruct (PyStr.startswith "$" k); cbn [negb andb List.length]; lia.
Qed.



Lemma member_settled m : member_ok m = true -> settled m = true.
Proof.
  unfold member_ok. destruct m; cbn; try discriminate; auto.
Qed.

Lemma canon_eq v : settled v = true -> py_eq (canon v) v = true.
Proof.
  induction v using PyVal_nested_ind; intros Hs; try discriminate.
  - cbn. apply String.eqb_refl.
  - (* a dict *)
    cbn [settled] in Hs.
    change (normal (PDict items))
      with (keys_distinct items && negb (only_text items) && forallb entry_ok items) in Hs.
    apply andb_true_iff in Hs. destruct Hs as [Hs Hok].
    apply andb_true_iff in Hs. destruct Hs as [Hd _].
    cbn [canon]. rewrite py_eq_dict. apply andb_true_iff. split.
    + apply Nat.eqb_eq. rewrite !length_app, filter_map_key, length_map.
      rewrite Nat.add_assoc. apply key_partition.
    + rewrite filter_map_key, !forallb_app, !andb_true_iff.
      rewrite forallb_forall in Hok. rewrite Forall_forall in H.
      repeat split; apply forallb_forall.
      * intros [k v] Hin. apply filter_In in Hin. destruct Hin as [Hin Hk].
        cbn [fst snd] in *. rewrite (assoc_get_in k v items Hd Hin).
        specialize (Hok _ Hin). unfold entry_ok in Hok. cbn [fst snd] in Hok.
        rewrite Hk in Hok. destruct v; try discriminate. cbn. apply String.eqb_refl.
      * intros [k v'] Hin. apply in_map_iff in Hin.
        destruct Hin as ([k0 v] & [= <- <-] & Hin).
        apply filter_In in Hin. destruct Hin as [Hin Hk]. cbn [fst snd] in *.
        rewrite (assoc_get_in k0 v items Hd Hin). apply (H _ Hin).
        specialize (Hok _ Hin). unfold entry_ok in Hok. cbn [fst snd] in Hok.
        destruct (plain_key_prefixes k0 Hk) as [Hat Hdollar].
        unfold is_attr_key, is_text_key in Hok. rewrite Hat, Hdollar in Hok.
        cbn [negb andb] in Hok.
        destruct v as [s| | | |d|members]; try discriminate; try assumption.
        cbn [snd settled]. apply andb_true_iff in Hok. destruct Hok as [_ Hall].
        apply forallb_forall. intros m Hm. unfold member_ok.
        apply orb_true_iff in Hall. destruct Hall as [Hall|Hall];
          rewrite forallb_forall in Hall; specialize (Hall m Hm);
          rewrite Hall; [reflexivity | apply orb_true_r].
      * intros [k v] Hin. apply filter_In in Hin. destruct Hin as [Hin Hk].
        cbn [fst snd] in *. rewrite (assoc_get_in k v items Hd Hin).
        specialize (Hok _ Hin). unfold entry_ok in Hok. cbn [fst snd] in Hok.
        rewrite Hk in Hok.
        assert (Hattr : is_attr_key k = false).
        { unfold is_text_key in Hk. unfold is_attr_key.
          destruct (PyStr.startswith "@" k); [discriminate | reflexivity]. }
        rewrite Hattr in Hok. apply andb_true_iff in Hok. destruct Hok as [_ Hv].
        destruct v; try discriminate. cbn. apply String.eqb_refl.
  - (* a list *)
    cbn [settled] in Hs. cbn [canon]. apply py_eq_list_map.
    rewrite Forall_forall in *. intros m Hm. apply (H m Hm).
    rewrite forallb_forall in Hs. apply member_settled. now apply Hs.
Qed.

(** *** Positions *)

Lemma get_update p f : forall root e,
  get root p = Some e -> get (update p f root) p = Some (f e).
Proof.
  induction p as [|i p IH]; intros root e H.
  - cbn in *. now injection H as ->.
  - cbn [get update children] in *.
    destruct (nth_error (children root) i) as [c|] eqn:Hc; [|discriminate].
    assert (Hn : nth_error (list_update i (update p f) (children root)) i
                 = Some (update p f c)).
    { revert Hc. generalize (children root). clear.
      induction i as [|i IHi]; intros [|x l] H; cbn in *; try discriminate.
      - now injection H as ->.
      - now apply IHi. }
    rewrite Hn. now apply IH.
Qed.

Lemma matches_at_valid root s p : matches_at root s p = true -> get root p <> None.
Proof. unfold matches_at. destruct (get root p); [discriminate | discriminate]. Qed.

Lemma select_child_valid root s ctx p :
  In p (select_child root s ctx) -> get root p <> None.
Proof.
  unfold select_child. intros H. apply in_flat_map in H. destruct H as (q & _ & H).
  apply filter_In in H. now apply (matches_at_valid root s).
Qed.

Lemma select_steps_valid root steps : forall ctx p,
  (forall q, In q ctx -> get root q <> None) ->
  In p (select_steps root steps ctx) -> get root p <> None.
Proof.
  unfold select_steps. induction steps as [|s steps IH]; intros ctx p Hctx H.
  - now apply Hctx.
  - cbn [fold_left] in H. apply (IH (select_child root s ctx)); [|assumption].
    intros q Hq. now apply (select_child_valid root s ctx).
Qed.

(** Every match of a path is a node of the tree. *)
Lemma findall_valid root path p : In p (findall root path) -> get root p <> None.
Proof.
  unfold findall, findall_from. destruct path as [s rest|steps]; intros H.
  - apply (select_steps_valid root rest (select_descendant root s [[]]) p);
      [|assumption].
    intros q Hq. unfold select_descendant in Hq. apply in_flat_map in Hq.
    destruct Hq as (c & _ & Hq). apply filter_In in Hq.
    now apply (matches_at_valid root s).
  - apply (select_steps_valid root steps [[]] p); [|assumption].
    intros q [<-|[]]. discriminate.
Qed.




Example other_shapes_not_round_tripped :
  let regions := Descendant (st "regions") [] in
  let back d := snd (getBulk regions
                       (fst (setBulk Sample.resources regions d (fst (enter Sample.fresh))))) in
  back (PDict [("count", PInt 3)]) = Return (PDict [("count", PStr "3")])
  /\ back (PDict [("region", PList [])]) = Return (PDict [("region", PDict [])])
  /\ back (PDict [("region", PDict [("$", PStr "x")])])
     = Return (PDict [("region", PStr "x")])
  /\ back (PDict [("$", PStr "x")]) = Return (PStr "x").
Proof. cbv zeta. repeat split; vm_compute; reflexivity. Qed.


(** *** Materials are never all removed *)

Lemma mentions_unfold t e :
  mentions t e = String.eqb (tag e) t || existsb (mentions t) (children e).
Proof.
  destruct e as [tg a x cs]. reflexivity.
Qed.

Lemma clean_unfold e :
  clean e = negb (String.eqb (tag e) "materials") && forallb clean (children e).
Proof.
  unfold clean at 1. rewrite mentions_unfold, negb_orb. f_equal.
  induction (children e) as [|c cs IH]; [reflexivity|].
  cbn [existsb forallb]. rewrite negb_orb, IH. reflexivity.
Qed.

Lemma list_update_nth {A} (f : A -> A) : forall i (l : list A) x,
  nth_error l i = Some x -> nth_error (list_update i f l) i = Some (f x).
Proof.
  induction i as [|i IH]; intros [|y l] x H; cbn in *; try discriminate.
  - now injection H as ->.
  - now apply IH.
Qed.

Lemma forallb_list_update {A} (p : A -> bool) (f : A -> A) : forall i (l : list A),
  (forall x, p x = true -> p (f x) = true) ->
  forallb p l = true -> forallb p (list_update i f l) = true.
Proof.
  induction i as [|i IH]; intros [|y l] Hf H; cbn in *; try reflexivity;
    apply andb_true_iff in H; destruct H as [Hy Hl]; apply andb_true_iff; split; auto.
Qed.

Lemma forallb_list_remove {A} (p : A -> bool) : forall i (l : list A),
  forallb p l = true -> forallb p (list_remove i l) = true.
Proof.
  induction i as [|i IH]; intros [|y l] H; cbn in *; try reflexivity;
    apply andb_true_iff in H; destruct H as [Hy Hl]; auto.
  apply andb_true_iff; split; auto.
Qed.

Lemma list_sum_update (F : Element -> nat) (H : Element -> Element) : forall i l,
  (forall c, F c <= F (H c)) ->
  list_sum (map F l) <= list_sum (map F (list_update i H l)).
Proof.
  assert (Hcons : forall x (r : list nat), list_sum (x :: r) = x + list_sum r)
    by reflexivity.
  induction i as [|i IH]; intros [|y l] Hle; cbn [list_update map];
    rewrite ?Hcons; try lia.
  - specialize (Hle y). lia.
  - specialize (IH l Hle). lia.
Qed.



Lemma mild_update f q : mild f -> mild (update q f).
Proof.
  intros Hf. induction q as [|k q IH]; [exact Hf|].
  intros e. split; [reflexivity|].
  rewrite !clean_unfold. cbn [update tag children].
  intros H. apply andb_true_iff in H. destruct H as [Ht Hc].
  apply andb_true_iff. split; [assumption|].
  apply forallb_list_update; [|assumption]. intros x. apply IH.
Qed.

Lemma filter_tag_update (t : string) (g : Element -> Element) : forall k l,
  (forall d, tag (g d) = tag d) ->
  List.length (filter (fun d => String.eqb (tag d) t) (list_update k g l))
  = List.length (filter (fun d => String.eqb (tag d) t) l).
Proof.
  induction k as [|k IH]; intros [|y l] Hg; cbn [list_update filter]; try reflexivity.
  - rewrite Hg. now destruct (String.eqb (tag y) t).
  - destruct (String.eqb (tag y) t); cbn [List.length]; now rewrite IH.
Qed.

Lemma gentle_deep f k q : mild f -> gentle (update (k :: q) f).
Proof.
  intros Hf c. pose proof (mild_update f q Hf) as Hg.
  cbn [update tag children]. repeat split.
  - intros H. apply forallb_list_update; [|assumption]. intros x. apply Hg.
  - unfold mat_kids. cbn [children]. rewrite filter_tag_update; [lia|].
    intros d. apply Hg.
Qed.

Lemma mild_append x : clean x = true -> mild (append x).
Proof.
  intros Hx e. split; [reflexivity|]. rewrite !clean_unfold. cbn [append tag children].
  intros H. apply andb_true_iff in H. destruct H as [Ht Hc].
  rewrite Ht, forallb_app, Hc. cbn. now rewrite Hx.
Qed.

Lemma gentle_append x : clean x = true -> gentle (append x).
Proof.
  intros Hx c. cbn [append tag children]. repeat split.
  - intros H. rewrite forallb_app, H. cbn. now rewrite Hx.
  - unfold mat_kids. cbn [append children]. rewrite filter_app, length_app. lia.
Qed.

Lemma mild_quiet f :
  (forall e, tag (f e) = tag e /\ children (f e) = children e) -> mild f.
Proof.
  intros Hf e. destruct (Hf e) as [Ht Hc]. split; [assumption|].
  rewrite !clean_unfold. now rewrite Ht, Hc.
Qed.

Lemma gentle_quiet f :
  (forall e, tag (f e) = tag e /\ children (f e) = children e) -> gentle f.
Proof.
  intros Hf c. destruct (Hf c) as [Ht Hc]. unfold mat_kids. rewrite Hc. auto.
Qed.

Lemma mild_remove i : mild (remove_child i).
Proof.
  intros e. split; [reflexivity|]. rewrite !clean_unfold. cbn [remove_child tag children].
  intros H. apply andb_true_iff in H. destruct H as [Ht Hc].
  rewrite Ht. cbn. now apply forallb_list_remove.
Qed.



Lemma shaped_gentle n j H root :
  gentle H -> shaped n root -> shaped n (update [j] H root).
Proof.
  intros HH [Hflat Hcount]. unfold shaped, flat, top_count in *.
  cbn [update children]. split.
  - apply forallb_list_update; [|assumption]. intros c. apply HH.
  - etransitivity; [exact Hcount|]. apply list_sum_update.
    intros c. destruct (HH c) as (Ht & _ & Hk). unfold materials_in. rewrite Ht.
    destruct (String.eqb (tag c) "materials"); lia.
Qed.

Lemma shaped_deep n j k q f root :
  mild f -> shaped n root -> shaped n (update (j :: k :: q) f root).
Proof.
  intros Hf. apply (shaped_gentle n j (update (k :: q) f)). now apply gentle_deep.
Qed.

Lemma shaped_quiet n p f root :
  (forall e, tag (f e) = tag e /\ children (f e) = children e) ->
  shaped n root -> shaped n (update p f root).
Proof.
  intros Hf Hs. destruct p as [|j [|k q]].
  - cbn [update]. destruct (Hf root) as [_ Hc]. unfold shaped, flat, top_count in *.
    now rewrite Hc.
  - apply shaped_gentle; [now apply gentle_quiet | assumption].
  - apply shaped_deep; [now apply mild_quiet | assumption].
Qed.

Lemma shaped_append n p x root :
  clean x = true -> p <> [] -> shaped n root -> shaped n (update p (append x) root).
Proof.
  intros Hx Hp Hs. destruct p as [|j [|k q]]; [contradiction| |].
  - apply shaped_gentle; [now apply gentle_append | assumption].
  - apply shaped_deep; [now apply mild_append | assumption].
Qed.

Lemma shaped_remove n p i root :
  2 <= List.length p -> shaped n root -> shaped n (update p (remove_child i) root).
Proof.
  intros Hp Hs. destruct p as [|j [|k q]]; cbn in Hp; try lia.
  apply shaped_deep; [apply mild_remove | assumption].
Qed.

(** *** Positions of matches *)

Lemma iterdescendants_walk e : iterdescendants e = walk 0 (children e).
Proof. destruct e. reflexivity. Qed.

Lemma walk_nonempty l : forall i p, In p (walk i l) -> p <> [].
Proof.
  induction l as [|c l IH]; intros i p H; [contradiction|].
  cbn [walk] in H. apply in_app_or in H. destruct H as [[<-|H]|H].
  - discriminate.
  - apply in_map_iff in H. destruct H as (q & <- & _). discriminate.
  - now apply (IH (S i)).
Qed.

Lemma get_app root p i :
  get root (p ++ [i]) =
  match get root p with
  | Some c => nth_error (children c) i
  | None => None
  end.
Proof.
  revert root. induction p as [|j p IH]; intros root.
  - cbn. now destruct (nth_error (children root) i).
  - cbn [app get]. destruct (nth_error (children root) j); [apply IH | reflexivity].
Qed.

Lemma select_child_in root s ctx p :
  In p (select_child root s ctx) ->
  exists q i, In q ctx /\ p = q ++ [i] /\ matches_at root s p = true.
Proof.
  unfold select_child. intros H. apply in_flat_map in H. destruct H as (q & Hq & H).
  apply filter_In in H. destruct H as [H Hm]. unfold child_positions in H.
  destruct (get root q); [|contradiction]. apply in_map_iff in H.
  destruct H as (i & <- & _). eauto.
Qed.

Lemma select_steps_depth root steps : forall ctx n p,
  (forall q, In q ctx -> n <= List.length q) ->
  In p (select_steps root steps ctx) -> n + List.length steps <= List.length p.
Proof.
  unfold select_steps. induction steps as [|s steps IH]; intros ctx n p Hctx H.
  - cbn in *. specialize (Hctx p H). lia.
  - cbn [fold_left List.length] in *.
    specialize (IH (select_child root s ctx) (S n) p). cbn in IH.
    rewrite Nat.add_succ_r. apply IH; [|assumption].
    intros q Hq. apply select_child_in in Hq. destruct Hq as (q' & i & Hq' & -> & _).
    rewrite length_app. cbn. specialize (Hctx q' Hq'). lia.
Qed.

Lemma select_descendant_in root s p :
  In p (select_descendant root s [[]]) ->
  In p (iterdescendants root) /\ matches_at root s p = true.
Proof.
  unfold select_descendant. cbn [flat_map]. rewrite app_nil_r.
  intros H. apply filter_In in H. destruct H as [H Hm].
  unfold descendant_positions in H. cbn [get] in H.
  apply in_map_iff in H. destruct H as (q & <- & H). now split.
Qed.

(** A match of [.//s/s1/.../sn] lies at least [n + 1] levels down. *)
Lemma findall_depth root s rest p :
  In p (findall root (Descendant s rest)) -> S (List.length rest) <= List.length p.
Proof.
  unfold findall, findall_from. intros H.
  apply (select_steps_depth root rest _ 1 p) in H; [exact H|].
  intros q Hq. apply select_descendant_in in Hq. destruct Hq as [Hq _].
  rewrite iterdescendants_walk in Hq. apply walk_nonempty in Hq.
  destruct q; [contradiction | cbn; lia].
Qed.

Lemma find_in root path p : find root path = Some p -> In p (findall root path).
Proof.
  unfold find. destruct (findall root path); cbn; [discriminate|].
  intros [= ->]. now left.
Qed.

(** Below a clean element every element is clean. *)
Lemma clean_get q : forall d e,
  clean d = true -> get d q = Some e -> clean e = true.
Proof.
  induction q as [|k q IH]; intros d e Hd H.
  - cbn in H. now injection H as <-.
  - cbn [get] in H. destruct (nth_error (children d) k) as [c|] eqn:Hc; [|discriminate].
    apply (IH c e); [|assumption].
    rewrite clean_unfold in Hd. apply andb_true_iff in Hd. destruct Hd as [_ Hd].
    rewrite forallb_forall in Hd. apply Hd. eapply nth_error_In, Hc.
Qed.

Lemma clean_tag e : clean e = true -> String.eqb (tag e) "materials" = false.
Proof.
  rewrite clean_unfold. intros H. apply andb_true_iff in H.
  now apply negb_true_iff.
Qed.

(** In a flat document the [materials] elements are children of the
    root. *)
Lemma flat_materials root p e :
  flat root = true -> get root p = Some e -> String.eqb (tag e) "materials" = true ->
  p <> [] ->
  exists j, p = [j] /\ nth_error (children root) j = Some e.
Proof.
  intros Hflat Hget Htag Hp. destruct p as [|j [|k q]]; [contradiction| |].
  - exists j. split; [reflexivity|]. cbn in Hget.
    now destruct (nth_error (children root) j).
  - exfalso. cbn [get] in Hget.
    destruct (nth_error (children root) j) as [c|] eqn:Hc; [|discriminate].
    destruct (nth_error (children c) k) as [d|] eqn:Hd; [|discriminate].
    unfold flat in Hflat. rewrite forallb_forall in Hflat.
    specialize (Hflat c (nth_error_In _ _ Hc)). rewrite forallb_forall in Hflat.
    specialize (Hflat d (nth_error_In _ _ Hd)).
    pose proof (clean_tag e (clean_get q d e Hflat Hget)). congruence.
Qed.

Lemma matches_at_tag root t p :
  matches_at root (st t) p = true ->
  exists e, get root p = Some e /\ String.eqb (tag e) t = true.
Proof.
  unfold matches_at, step_matches, st. cbn [step_tag step_pred pred_holds].
  destruct (get root p) as [e|]; [|discriminate]. rewrite andb_true_r. eauto.
Qed.

Lemma matches_at_named root t name p :
  matches_at root (st_named t name) p = true ->
  exists e, get root p = Some e /\ String.eqb (tag e) t = true.
Proof.
  unfold matches_at, step_matches, st_named. cbn [step_tag step_pred].
  destruct (get root p) as [e|]; [|discriminate]. intros H.
  apply andb_true_iff in H. destruct H as [H _]. eauto.
Qed.

(** *** Counting the materials *)

Lemma list_sum_cons x (r : list nat) : list_sum (x :: r) = x + list_sum r.
Proof. reflexivity. Qed.

Lemma length_flat_map {A B} (f : A -> list B) (l : list A) :
  List.length (flat_map f l) = list_sum (map (fun x => List.length (f x)) l).
Proof.
  induction l as [|x l IH]; [reflexivity|].
  cbn [flat_map map]. now rewrite length_app, list_sum_cons, IH.
Qed.

Lemma sum_over_filter {A} (t : A -> bool) (h : A -> nat) (l : list A) :
  list_sum (map h (filter t l))
  = list_sum (map (fun x => if t x then h x else 0) l).
Proof.
  induction l as [|x l IH]; [reflexivity|].
  cbn [filter map]. destruct (t x); cbn [map]; rewrite !list_sum_cons, IH; lia.
Qed.

Lemma filter_by_index (f : Element -> bool) : forall l pre,
  List.length
    (filter (fun i => match nth_error (pre ++ l) i with
                      | Some d => f d
                      | None => false
                      end) (seq (List.length pre) (List.length l)))
  = List.length (filter f l).
Proof.
  induction l as [|d l IH]; intros pre; [reflexivity|].
  cbn [List.length seq filter].
  rewrite nth_error_app2 by lia. rewrite Nat.sub_diag. cbn [nth_error].
  specialize (IH (pre ++ [d])). rewrite <- app_assoc, length_app in IH.
  cbn [app List.length] in IH. rewrite Nat.add_1_r in IH.
  destruct (f d); cbn [List.length]; now rewrite IH.
Qed.

(** The matches of a tag among the children of the node at [p]. *)
Lemma children_matching root t p :
  List.length (filter (matches_at root (st t)) (child_positions root p))
  = match get root p with
    | Some c => List.length (filter (fun d => String.eqb (tag d) t) (children c))
    | None => 0
    end.
Proof.
  unfold child_positions. destruct (get root p) as [c|] eqn:Hc; [|reflexivity].
  rewrite <- (filter_by_index (fun d => String.eqb (tag d) t) (children c) []).
  cbn [app List.length].
  generalize (seq 0 (List.length (children c))). intros l.
  induction l as [|i l IH]; [reflexivity|].
  cbn [map filter].
  assert (Hm : matches_at root (st t) (p ++ [i])
               = match nth_error (children c) i with
                 | Some d => String.eqb (tag d) t
                 | None => false
                 end).
  { unfold matches_at. rewrite get_app, Hc.
    unfold step_matches, st. cbn [step_tag step_pred pred_holds].
    destruct (nth_error (children c) i); [apply andb_true_r | reflexivity]. }
  rewrite Hm.
  destruct (nth_error (children c) i) as [d|]; [|exact IH].
  destruct (String.eqb (tag d) t); cbn [List.length]; now rewrite IH.
Qed.

Lemma count_as_weight root :
  List.length (findall root material_path)
  = weight materials_in root (iterdescendants root).
Proof.
  unfold findall, findall_from, material_path, select_steps. cbn [fold_left].
  unfold select_child. rewrite length_flat_map.
  unfold select_descendant. cbn [flat_map]. rewrite app_nil_r.
  unfold descendant_positions. cbn [get]. rewrite map_id.
  rewrite sum_over_filter. unfold weight. f_equal. apply map_ext. intros p.
  rewrite children_matching. unfold matches_at, step_matches, st.
  cbn [step_tag step_pred pred_holds].
  destruct (get root p) as [e|]; [|reflexivity].
  rewrite andb_true_r. unfold materials_in, mat_kids. reflexivity.
Qed.

Lemma weight_app f root ps qs :
  weight f root (ps ++ qs) = weight f root ps + weight f root qs.
Proof. unfold weight. now rewrite map_app, list_sum_app. Qed.

Lemma weight_below f t a x cs i c ps :
  nth_error cs i = Some c ->
  weight f (mkElement t a x cs) (map (cons i) ps) = weight f c ps.
Proof.
  intros Hc. unfold weight. rewrite map_map. f_equal. apply map_ext. intros p.
  cbn [get children]. now rewrite Hc.
Qed.

Lemma weight_walk f t a x : forall l pre,
  weight f (mkElement t a x (pre ++ l)) (walk (List.length pre) l)
  = list_sum (map (fun c => f c + weight f c (iterdescendants c)) l).
Proof.
  induction l as [|c l IH]; intros pre; [reflexivity|].
  cbn [walk map]. rewrite list_sum_cons, weight_app.
  assert (Hc : nth_error (pre ++ c :: l) (List.length pre) = Some c).
  { rewrite nth_error_app2 by lia. now rewrite Nat.sub_diag. }
  specialize (IH (pre ++ [c])). rewrite <- app_assoc, length_app in IH.
  cbn [app List.length] in IH. rewrite Nat.add_1_r in IH. rewrite IH.
  f_equal. change ([List.length pre] :: map (cons (List.length pre)) (iterdescendants c))
    with ([[List.length pre]] ++ map (cons (List.length pre)) (iterdescendants c)).
  rewrite weight_app, (weight_below f t a x _ _ c _ Hc). f_equal.
  unfold weight. cbn [map get children]. rewrite Hc. cbn. lia.
Qed.

Lemma weight_children f root :
  weight f root (iterdescendants root)
  = list_sum (map (fun c => f c + weight f c (iterdescendants c)) (children root)).
Proof.
  destruct root as [t a x cs]. cbn [children].
  change (iterdescendants (mkElement t a x cs)) with (walk 0 cs).
  exact (weight_walk f t a x cs []).
Qed.

Lemma list_sum_zero {A} (h : A -> nat) (l : list A) :
  (forall x, In x l -> h x = 0) -> list_sum (map h l) = 0.
Proof.
  induction l as [|x l IH]; intros H; [reflexivity|].
  cbn [map]. rewrite list_sum_cons, IH, (H x); auto with datatypes.
Qed.

(** A clean element holds no material. *)
Lemma clean_weight e :
  clean e = true ->
  materials_in e = 0 /\ weight materials_in e (iterdescendants e) = 0.
Proof.
  induction e as [t a x cs IH] using Element_nested_ind. intros Hc. split.
  - unfold materials_in. now rewrite (clean_tag _ Hc).
  - rewrite weight_children. cbn [children]. apply list_sum_zero. intros c Hin.
    rewrite clean_unfold in Hc. apply andb_true_iff in Hc. destruct Hc as [_ Hc].
    cbn [children] in Hc. rewrite forallb_forall in Hc.
    rewrite Forall_forall in IH. destruct (IH c Hin (Hc c Hin)) as [-> ->]. reflexivity.
Qed.

(** In a flat document [getMaterials] lists the [material] children of the
    [materials] elements below the root. *)
Lemma count_flat root :
  flat root = true -> List.length (findall root material_path) = top_count root.
Proof.
  intros Hflat. rewrite count_as_weight, weight_children. unfold top_count.
  f_equal. apply map_ext_in. intros c Hc.
  rewrite weight_children. rewrite list_sum_zero; [lia|].
  intros d Hd. unfold flat in Hflat. rewrite forallb_forall in Hflat.
  specialize (Hflat c Hc). rewrite forallb_forall in Hflat.
  destruct (clean_weight d (Hflat d Hd)) as [-> ->]. reflexivity.
Qed.

(** *** The calls keep the shape and a material *)

Lemma filter_remove_one (f : Element -> bool) : forall i l m,
  nth_error l i = Some m -> f m = true ->
  S (List.length (filter f (list_remove i l))) = List.length (filter f l).
Proof.
  induction i as [|i IH]; intros [|y l] m H Hm; cbn [nth_error] in H; try discriminate.
  - injection H as ->. cbn [list_remove filter]. now rewrite Hm.
  - cbn [list_remove filter]. destruct (f y); cbn [List.length];
      now rewrite (IH l m H Hm).
Qed.

Lemma list_sum_update_less (F : Element -> nat) (H : Element -> Element) : forall j l c,
  nth_error l j = Some c -> S (F (H c)) = F c ->
  S (list_sum (map F (list_update j H l))) = list_sum (map F l).
Proof.
  induction j as [|j IH]; intros [|y l] c Hc HF; cbn [nth_error] in Hc; try discriminate.
  - injection Hc as ->. cbn [list_update map]. rewrite !list_sum_cons. lia.
  - cbn [list_update map]. rewrite !list_sum_cons.
    specialize (IH l c Hc HF). lia.
Qed.

Lemma last_snoc (p : position) i : List.last (p ++ [i]) 0 = i.
Proof. apply last_last. Qed.

Section KeepsMaterials.
Variable R : Resources.

Lemma removeMaterial_shaped name s :
  shaped 1 (_xmlTree s) -> shaped 1 (_xmlTree (fst (removeMaterial name s))).
Proof.
  intros Hs. unfold removeMaterial.
  destruct (find (_xmlTree s) materials_path) as [parent|] eqn:Hparent; [|exact Hs].
  destruct (hd_error _) as [material|] eqn:Hmat; [|exact Hs].
  destruct (assoc_get "mid" _); [|exact Hs].
  destruct (mem _ _); [exact Hs|].
  destruct (Nat.eqb _ 1) eqn:Hone; [exact Hs|].
  cbn [fst mutate _xmlTree set_xmlTree].
  destruct Hs as [Hflat Hcount]. set (root := _xmlTree s) in *.
  (* the parent is a [materials] child of the root *)
  apply find_in in Hparent. pose proof Hparent as Hdepth.
  apply findall_depth in Hdepth. cbn in Hdepth.
  unfold findall, findall_from, materials_path, select_steps in Hparent.
  cbn [fold_left] in Hparent. apply select_descendant_in in Hparent.
  destruct Hparent as [_ Hparent]. apply matches_at_tag in Hparent.
  destruct Hparent as (c & Hc & Htag).
  destruct (flat_materials root parent c Hflat Hc Htag) as (j & -> & Hj).
  { intros ->. cbn in Hdepth. lia. }
  (* the material is one of its children *)
  assert (Hin : In material (findall_from root [j] (Children [st_named "material" name]))).
  { destruct (findall_from _ _ _); cbn in Hmat; [discriminate|].
    injection Hmat as ->. now left. }
  unfold findall_from, select_steps in Hin. cbn [fold_left] in Hin.
  apply select_child_in in Hin. destruct Hin as (q & i & [<-|[]] & -> & Hm).
  apply matches_at_named in Hm. destruct Hm as (m & Hm & Hmtag).
  rewrite get_app in Hm. cbn [get] in Hm. rewrite Hj in Hm.
  unfold child_index. rewrite last_snoc.
  (* one material less *)
  assert (Hless : S (top_count (update [j] (remove_child i) root)) = top_count root).
  { unfold top_count. cbn [update children].
    apply (list_sum_update_less materials_in (remove_child i) j _ c Hj).
    unfold materials_in. cbn [remove_child tag]. rewrite Htag.
    unfold mat_kids. cbn [children]. now apply (filter_remove_one _ i _ m). }
  split.
  - unfold flat in *. cbn [update children].
    apply forallb_list_update; [|assumption].
    intros x Hx. cbn [remove_child children]. now apply forallb_list_remove.
  - rewrite (count_flat root Hflat) in Hone. apply Nat.eqb_neq in Hone. lia.
Qed.

Lemma setValue_shaped n xpath value s :
  shaped n (_xmlTree s) -> shaped n (_xmlTree (fst (setValue R xpath value s))).
Proof.
  intros Hs.
  destruct (setValue_cases R xpath value s)
    as [(e & _ & H)|[(x & H)|(el & txt & _ & H)]]; rewrite H; cbn; try exact Hs.
  apply shaped_quiet; [|exact Hs]. intros e. now split.
Qed.

Lemma setAttribute_shaped n xpath name value s :
  shaped n (_xmlTree s) -> shaped n (_xmlTree (fst (setAttribute xpath name value s))).
Proof.
  intros Hs. unfold setAttribute, bind, single.
  destruct (findall (_xmlTree s) xpath) as [|el [|]]; try exact Hs.
  destruct (assoc_get _ _); [|exact Hs]. cbn.
  apply shaped_quiet; [|exact Hs]. intros e. now split.
Qed.

(** Writing a tree and validating it leaves the tree written. *)
Lemma validated_tree {A} (a : A) s :
  _xmlTree (fst ((assertValid R ;;; ret a) s)) = _xmlTree s.
Proof.
  unfold bind, assertValid, ret. now destruct (schema_valid R (_xmlTree s)).
Qed.

Lemma find_descendant_nonempty root s rest p :
  find root (Descendant s rest) = Some p -> p <> [].
Proof.
  intros H. apply find_in, findall_depth in H. intros ->. cbn in H. lia.
Qed.

Lemma clean_properties t cell :
  String.eqb t "materials" = false ->
  forallb clean (_materialPropertySubElement t cell) = true.
Proof.
  intros Ht. destruct cell as [s|]; [|reflexivity].
  cbn [_materialPropertySubElement forallb]. rewrite clean_unfold.
  cbn [leaf tag children forallb]. now rewrite Ht.
Qed.

Lemma clean_material index name mdb : clean (material_element index name mdb) = true.
Proof.
  unfold material_element.
  repeat (rewrite clean_unfold; cbn [tag children leaf forallb app];
          rewrite ?forallb_app, ?clean_properties by reflexivity;
          cbn [forallb andb negb String.eqb Ascii.eqb Bool.eqb]).
  destruct (viscosity mdb); [|reflexivity].
  repeat (rewrite ?clean_unfold; cbn [tag children leaf forallb app];
          rewrite ?forallb_app, ?clean_properties by reflexivity;
          cbn [forallb andb negb String.eqb Ascii.eqb Bool.eqb]).
  destruct (phase mdb) as [ph|]; [|reflexivity].
  destruct (String.eqb ph "gas"); [|reflexivity].
  repeat (rewrite ?clean_unfold; cbn [tag children leaf forallb app];
          rewrite ?forallb_app, ?clean_properties by reflexivity;
          cbn [forallb andb negb String.eqb Ascii.eqb Bool.eqb]).
  reflexivity.
Qed.
End KeepsMaterials.

Lemma clean_set_attr name value e : clean (set_attr name value e) = clean e.
Proof. now rewrite !clean_unfold. Qed.

Lemma clean_set_text s e : clean (set_text s e) = clean e.
Proof. now rewrite !clean_unfold. Qed.

Lemma clean_first_child_text t s : forall cs cs',
  set_first_child_text t s cs = Some cs' ->
  forallb clean cs = true -> forallb clean cs' = true.
Proof.
  induction cs as [|c cs IH]; intros cs' H Hc; [discriminate|].
  cbn [set_first_child_text] in H. cbn [forallb] in Hc.
  apply andb_true_iff in Hc. destruct Hc as [Hc Hcs].
  destruct (String.eqb (tag c) t).
  - injection H as <-. cbn [forallb]. now rewrite clean_set_text, Hc.
  - destruct (set_first_child_text t s cs) as [r|]; [|discriminate].
    injection H as <-. cbn [forallb]. now rewrite Hc, (IH r).
Qed.

Lemma clean_set_child_text t s e e' :
  set_child_text t s e = Some e' -> clean e = true -> clean e' = true.
Proof.
  unfold set_child_text. destruct (set_first_child_text t s (children e)) as [cs|] eqn:H;
    [|discriminate].
  intros [= <-]. rewrite !clean_unfold. cbn [tag children]. intros Hc.
  apply andb_true_iff in Hc. destruct Hc as [Ht Hc].
  now rewrite Ht, (clean_first_child_text t s _ _ H Hc).
Qed.

Section Calls.
Variable R : Resources.
Hypothesis Hfit : resources_fit R = true.

Lemma fit_templates :
  flat (XML_PATH R) = true
  /\ clean (CELL_ZONE_PATH R) = true /\ clean (BOUNDARY_CONDITION_PATH R) = true
  /\ clean (FORCE_MONITOR_PATH R) = true /\ clean (POINT_MONITOR_PATH R) = true
  /\ clean (SURFACE_MONITOR_PATH R) = true /\ clean (VOLUME_MONITOR_PATH R) = true.
Proof.
  unfold resources_fit in Hfit. rewrite !andb_true_iff in Hfit. tauto.
Qed.

Lemma addMaterial_shaped n name s :
  shaped n (_xmlTree s) -> shaped n (_xmlTree (fst (addMaterial R name s))).
Proof.
  intros Hs. unfold addMaterial.
  destruct (db_row R name); [|exact Hs].
  destruct (find (_xmlTree s) (Descendant _ [_])); [exact Hs|].
  destruct (free_index _ _); [|exact Hs].
  destruct (find (_xmlTree s) materials_path) as [p|] eqn:Hp; [|exact Hs].
  rewrite validated_tree. cbn [mutate _xmlTree set_xmlTree].
  apply shaped_append; [apply clean_material | | exact Hs].
  now apply (find_descendant_nonempty _ _ _ _ Hp).
Qed.

Lemma addRegion_shaped n rname s :
  shaped n (_xmlTree s) -> shaped n (_xmlTree (fst (addRegion R rname s))).
Proof.
  intros Hs. unfold addRegion.
  destruct (find (_xmlTree s) (Descendant _ [_])); [exact Hs|].
  destruct (find (_xmlTree s) (Descendant (st "regions") [])) as [p|] eqn:Hp; [|exact Hs].
  pose proof (find_descendant_nonempty _ _ _ _ Hp) as Hne.
  assert (Hbegun : shaped n (update p (append (mkElement "region" [] None
                                                 [leaf "name" rname])) (_xmlTree s))).
  { apply shaped_append; [reflexivity | assumption | exact Hs]. }
  destruct (getMaterials _) as [s1 [[|[[[mid nm] cf] ph] rows]|x]];
    cbn [fst mutate _xmlTree set_xmlTree]; try exact Hbegun.
  rewrite validated_tree. cbn [mutate _xmlTree set_xmlTree].
  apply shaped_append; [|assumption|exact Hs].
  destruct fit_templates as (_ & Hcz & _).
  rewrite clean_unfold. cbn [tag children forallb].
  rewrite (clean_unfold (mkElement "cellZones" _ _ _)). cbn [tag children forallb].
  now rewrite Hcz.
Qed.

Lemma add_scoped_shaped n maxIndex rname ename container entity idattr template patch s :
  clean template = true ->
  (forall e e', patch e = Some e' -> clean e = true -> clean e' = true) ->
  shaped n (_xmlTree s) ->
  shaped n (_xmlTree (fst (add_scoped R maxIndex rname ename container entity idattr
                                      template patch s))).
Proof.
  intros Ht Hpatch Hs. unfold add_scoped.
  destruct (find (_xmlTree s) (Descendant _ [_; _])); [exact Hs|].
  destruct (free_index _ _); [|exact Hs].
  destruct (set_child_text "name" ename template) as [named|] eqn:Hnamed; [|exact Hs].
  destruct (patch _) as [el|] eqn:Hel; [|exact Hs].
  destruct (find (_xmlTree s) (Descendant _ [_])) as [p|] eqn:Hp; [|exact Hs].
  rewrite validated_tree. cbn [mutate _xmlTree set_xmlTree].
  apply shaped_append; [| |exact Hs].
  - apply (Hpatch _ _ Hel). rewrite clean_set_attr.
    now apply (clean_set_child_text _ _ _ _ Hnamed).
  - now apply (find_descendant_nonempty _ _ _ _ Hp).
Qed.

Lemma add_monitor_shaped n group kind prefix template s :
  clean template = true ->
  shaped n (_xmlTree s) ->
  shaped n (_xmlTree (fst (add_monitor R group kind prefix template s))).
Proof.
  intros Ht Hs. unfold add_monitor.
  destruct (free_name _ _); [|exact Hs].
  destruct (set_child_text "name" _ template) as [named|] eqn:Hnamed; [|exact Hs].
  destruct (find (_xmlTree s) (Descendant _ [_])) as [p|] eqn:Hp; [|exact Hs].
  rewrite validated_tree. cbn [mutate _xmlTree set_xmlTree].
  apply shaped_append; [| |exact Hs].
  - now apply (clean_set_child_text _ _ _ _ Hnamed).
  - now apply (find_descendant_nonempty _ _ _ _ Hp).
Qed.

Lemma remove_monitor_shaped n group kind name s :
  shaped n (_xmlTree s) ->
  shaped n (_xmlTree (fst (remove_monitor group kind name s))).
Proof.
  intros Hs. unfold remove_monitor.
  destruct (find (_xmlTree s) (Descendant _ [_; _])); [|exact Hs].
  destruct (find (_xmlTree s) (Descendant _ [_])) as [parent|] eqn:Hp; [|exact Hs].
  destruct (list_eq_dec _ _ _); [|exact Hs].
  cbn [fst mutate _xmlTree set_xmlTree].
  apply shaped_remove; [|exact Hs].
  apply find_in, findall_depth in Hp. exact Hp.
Qed.

Lemma fmap_tree {A B} (f : A -> B) (m : M A) s :
  _xmlTree (fst (fmap f m s)) = _xmlTree (fst (m s)).
Proof. unfold fmap, bind, ret. now destruct (m s) as [s' [a|e]]. Qed.

(** Every call on entities and typed values keeps the document flat and
    keeps a material in it. *)
Lemma call_shaped c s :
  entity_call c = true ->
  shaped 1 (_xmlTree s) -> shaped 1 (_xmlTree (fst (call R c s))).
Proof.
  intros Hc Hs. destruct fit_templates as (_ & Hcz & Hbc & Hfm & Hpm & Hsm & Hvm).
  destruct c; try discriminate; cbn [call]; rewrite ?fmap_tree;
    lazymatch goal with
    | |- context [setAttribute] => apply setAttribute_shaped; exact Hs
    | |- context [setValue] => apply setValue_shaped; exact Hs
    | |- context [addMaterial] => apply addMaterial_shaped; exact Hs
    | |- context [removeMaterial] => apply removeMaterial_shaped; exact Hs
    | |- context [addRegion] => apply addRegion_shaped; exact Hs
    | |- context [addCellZone] =>
        unfold addCellZone; apply add_scoped_shaped;
        [assumption | now intros e e' [= <-] | exact Hs]
    | |- context [addBoundaryCondition R _ _ ?g] =>
        unfold addBoundaryCondition; apply add_scoped_shaped;
        [assumption
        |intros e e'; destruct g; [apply clean_set_child_text | now intros [= <-]]
        |exact Hs]
    | |- context [addForceMonitor] =>
        unfold addForceMonitor; apply add_monitor_shaped; assumption
    | |- context [addPointMonitor] =>
        unfold addPointMonitor; apply add_monitor_shaped; assumption
    | |- context [addSurfaceMonitor] =>
        unfold addSurfaceMonitor; apply add_monitor_shaped; assumption
    | |- context [addVolumeMonitor] =>
        unfold addVolumeMonitor; apply add_monitor_shaped; assumption
    | |- context [removeForceMonitor] =>
        unfold removeForceMonitor; apply remove_monitor_shaped; exact Hs
    | |- context [removePointMonitor] =>
        unfold removePointMonitor; apply remove_monitor_shaped; exact Hs
    | |- context [removeSurfaceMonitor] =>
        unfold removeSurfaceMonitor; apply remove_monitor_shaped; exact Hs
    | |- context [removeVolumeMonitor] =>
        unfold removeVolumeMonitor; apply remove_monitor_shaped; exact Hs
    | _ => unfold_ops; repeat break_match; exact Hs
    end.
Qed.

Lemma block_shaped body : forall s,
  forallb entity_call body = true ->
  shaped 1 (_xmlTree s) -> shaped 1 (_xmlTree (fst (block R body s))).
Proof.
  induction body as [|c body IH]; intros s Hb Hs; [exact Hs|].
  cbn [forallb] in Hb. apply andb_true_iff in Hb. destruct Hb as [Hc Hb].
  rewrite block_cons. pose proof (call_shaped c s Hc Hs) as Hs'.
  destruct (call R c s) as [s' [v|e]]; cbn [fst] in *; [|exact Hs'].
  specialize (IH s' Hb Hs'). now destruct (block R body s') as [s'' [vs|e]].
Qed.

Lemma session_shaped body s :
  forallb entity_call body = true ->
  shaped 1 (_xmlTree s) -> shaped 1 (_xmlTree (fst (session R body s))).
Proof.
  intros Hb Hs. rewrite session_tree.
  pose proof (block_shaped body (fst (enter s)) Hb Hs) as Hs'.
  destruct (_lastError _); [exact Hs|]. now destruct (snd _).
Qed.

Lemma script_shaped actions : forall s,
  forallb entity_action actions = true ->
  shaped 1 (_xmlTree s) -> shaped 1 (_xmlTree (script R actions s)).
Proof.
  unfold script. induction actions as [|a actions IH]; intros s Ha Hs; [exact Hs|].
  cbn [forallb] in Ha. apply andb_true_iff in Ha. destruct Ha as [Ha Hrest].
  cbn [fold_left]. apply IH; [assumption|].
  destruct a as [c|body]; cbn [perform entity_action] in *.
  - now apply call_shaped.
  - now apply session_shaped.
Qed.

Lemma list_sum_at (F : Element -> nat) : forall j l c,
  nth_error l j = Some c -> F c <= list_sum (map F l).
Proof.
  induction j as [|j IH]; intros [|y l] c H; cbn [nth_error] in H; try discriminate;
    cbn [map]; rewrite list_sum_cons.
  - injection H as ->. lia.
  - specialize (IH l c H). lia.
Qed.

(** Construction leaves a flat document with the default material. *)
Lemma init_shaped disk :
  snd (init R disk) = Return tt -> shaped 1 (_xmlTree (fst (init R disk))).
Proof.
  destruct fit_templates as (Hflat & _).
  unfold init. destruct (schema_valid R (XML_PATH R)); [|discriminate].
  set (s0 := mkCoreDB _ _ _ _ _ _ _).
  unfold bind, ret.
  destruct (addMaterial R "air" s0) as [s1 [index|x]] eqn:Hadd; [|discriminate].
  intros _. cbn [fst].
  assert (Hs1 : s1 = fst (addMaterial R "air" s0)) by now rewrite Hadd.
  assert (H0 : shaped 0 (_xmlTree s0)) by (split; [exact Hflat | lia]).
  pose proof (addMaterial_shaped 0 "air" s0 H0) as [Hflat1 _].
  rewrite <- Hs1 in Hflat1. split; [exact Hflat1|].
  (* the new material is counted *)
  unfold addMaterial in Hadd.
  destruct (db_row R "air") as [mdb|]; [|discriminate].
  destruct (find (_xmlTree s0) (Descendant _ [_])); [discriminate|].
  destruct (free_index _ _) as [i|]; [|discriminate].
  destruct (find (_xmlTree s0) materials_path) as [p|] eqn:Hp; [|discriminate].
  assert (Htree : _xmlTree s1
                  = update p (append (material_element i "air" mdb)) (_xmlTree s0)).
  { change s1 with (fst (s1, Return (A:=nat) index)). rewrite <- Hadd.
    apply validated_tree. }
  clear Hadd. apply find_in in Hp. pose proof Hp as Hdepth.
  apply findall_depth in Hdepth. cbn in Hdepth.
  unfold findall, findall_from, materials_path, select_steps in Hp.
  cbn [fold_left] in Hp. apply select_descendant_in in Hp.
  destruct Hp as [_ Hp]. apply matches_at_tag in Hp. destruct Hp as (c & Hc & Htag).
  destruct (flat_materials (_xmlTree s0) p c Hflat Hc Htag) as (j & -> & Hj).
  { intros ->. cbn in Hdepth. lia. }
  rewrite Htree. unfold top_count. cbn [update children].
  pose proof (list_update_nth (append (material_element i "air" mdb)) j _ c Hj) as Hnew.
  etransitivity; [|apply (list_sum_at materials_in j _ _ Hnew)].
  unfold materials_in. cbn [append tag]. rewrite Htag.
  unfold mat_kids. cbn [append children]. rewrite filter_app, length_app.
  unfold material_element. cbn [filter tag List.length].
  change (String.eqb "material" "material") with true. cbn [List.length]. lia.
Qed.

End Calls.

(** C9 (amended). After a construction that succeeded, on resources in the
    expected shape, every script of calls other than [setBulk] and [load],
    alone or inside sessions that are committed or rolled back, leaves at
    least one material in the document: [removeMaterial] keeps the last
    one and no other such call removes a material. *)
Theorem at_least_one_material (R : Resources) (disk : list (string * H5File))
    (actions : list Action) :
  resources_fit R = true ->
  snd (init R disk) = Return tt ->
  forallb entity_action actions = true ->
  1 <= count_materials (script R actions (fst (init R disk))).
Proof.
  intros Hfit Hinit Hactions.
  pose proof (script_shaped R Hfit actions _ Hactions (init_shaped R Hfit disk Hinit))
    as [Hflat Hcount].
  unfold count_materials. now rewrite count_flat.
Qed.

Lemma at_least_one_material_witness :
  1 <= count_materials
         (script Sample.resources
                 [Do (AddMaterial "water"); Do (RemoveMaterial "air");
                  With [SetValue Sample.pressure "-5"; AddRegion "R1"];
                  Do (AddRegion "R1"); Do AddForceMonitor;
                  Do (RemoveForceMonitor "force-mon-1");
                  Do (RemoveMaterial "water")]
                 (fst (init Sample.resources []))).
Proof.
  apply (at_least_one_material Sample.resources []); vm_compute; reflexivity.
Defined.

(** C9 as stated fails: rebuilding the [materials] element from an empty
    mapping, inside a session that ends cleanly, removes every material. *)
Lemma setBulk_removes_all_materials :
  let s := fst (session Sample.resources [SetBulk materials_path (PDict [])] Sample.fresh) in
  snd (init Sample.resources []) = Return tt
  /\ snd (getMaterials Sample.fresh) = Return [(1%Z, Some "air", Some "N2+O2", Some "gas")]
  /\ snd (session Sample.resources [SetBulk materials_path (PDict [])] Sample.fresh)
     = Return (Some [VNone])
  /\ snd (getMaterials s) = Return []
  /\ count_materials s = 0.
Proof. cbv zeta. repeat split; vm_compute; reflexivity. Qed.

(** ** Further properties of the store

    Properties of [coredb.py] beyond the listed claims: access to
    attributes and values, sessions, saving, allocation of ids and
    names, listings, and the bulk interface. A store state stands for
    a store whose document is the tree the constructor parsed; the
    call sequences considered here do not pass through [load]. *)

(** *** Changes that paths do not see *)

Lemma alike_unfold texts e e' :
  alike texts e e' <->
  tag e = tag e' /\ (texts = true -> text e = text e')
  /\ Forall2 (alike texts) (children e) (children e').
Proof.
  destruct e as [t a x cs], e' as [t' a' x' cs']. cbn [alike tag text children].
  assert (H : forall l l',
    (fix all (l l' : list Element) {struct l} : Prop :=
       match l, l' with
       | [], [] => True
       | c :: r, c' :: r' => alike texts c c' /\ all r r'
       | _, _ => False
       end) l l' <-> Forall2 (alike texts) l l').
  { induction l as [|c l IH]; intros [|c' l']; split; intros H.
    - constructor.
    - exact I.
    - contradiction.
    - inversion H.
    - contradiction.
    - inversion H.
    - destruct H as [Hc Hl]. constructor; [assumption | now apply IH].
    - inversion H; subst. split; [assumption | now apply IH]. }
  rewrite H. tauto.
Qed.

Lemma alike_refl texts e : alike texts e e.
Proof.
  induction e as [t a x cs IH] using Element_nested_ind.
  apply alike_unfold. cbn [tag text children]. repeat split.
  induction IH; constructor; assumption.
Qed.

Lemma Forall2_list_update {A} (Rel : A -> A -> Prop) (g : A -> A) : forall k (l : list A),
  (forall x, Rel x x) -> (forall x, Rel x (g x)) -> Forall2 Rel l (list_update k g l).
Proof.
  intros k l Hr Hg. revert k. induction l as [|y l IH]; intros [|k]; cbn [list_update];
    constructor; auto.
  clear IH. induction l; constructor; auto.
Qed.

(** A change of one node that keeps it alike keeps the tree alike. *)
Lemma alike_update texts f p :
  (forall e, alike texts e (f e)) -> forall e, alike texts e (update p f e).
Proof.
  intros Hf. induction p as [|k p IH]; intros e; [apply Hf|].
  apply alike_unfold. cbn [update tag text children]. repeat split.
  apply Forall2_list_update; [apply alike_refl | exact IH].
Qed.

Lemma alike_set_attr name value e : alike true e (set_attr name value e).
Proof.
  apply alike_unfold. cbn [set_attr tag text children]. repeat split.
  generalize (children e). induction l; constructor; [apply alike_refl | assumption].
Qed.

Lemma alike_set_text s e : alike false e (set_text s e).
Proof.
  apply alike_unfold. cbn [set_text tag text children]. repeat split; [discriminate|].
  generalize (children e). induction l; constructor; [apply alike_refl | assumption].
Qed.

Lemma alike_walk cs cs' :
  Forall2 (fun c c' => iterdescendants c = iterdescendants c') cs cs' ->
  forall i, walk i cs = walk i cs'.
Proof.
  induction 1 as [|c c' cs cs' Hc _ IH]; intros i; [reflexivity|].
  cbn [walk]. now rewrite Hc, IH.
Qed.

Lemma alike_iterdescendants texts e : forall e',
  alike texts e e' -> iterdescendants e = iterdescendants e'.
Proof.
  induction e as [t a x cs IH] using Element_nested_ind. intros e' H.
  apply alike_unfold in H. destruct H as (_ & _ & H). cbn [children] in H.
  rewrite !iterdescendants_walk. cbn [children].
  apply alike_walk. revert IH. induction H; intros IH; constructor.
  - inversion IH; subst. auto.
  - inversion IH; subst. auto.
Qed.

Lemma Forall2_nth {A} (Rel : A -> A -> Prop) : forall (l l' : list A) k,
  Forall2 Rel l l' ->
  match nth_error l k, nth_error l' k with
  | Some x, Some y => Rel x y
  | None, None => True
  | _, _ => False
  end.
Proof.
  intros l l' k H. revert k. induction H; intros [|k]; cbn; auto. apply IHForall2.
Qed.

(** Alike trees have nodes at the same positions, and alike nodes. *)
Lemma alike_get texts q : forall e e',
  alike texts e e' ->
  match get e q, get e' q with
  | Some d, Some d' => alike texts d d'
  | None, None => True
  | _, _ => False
  end.
Proof.
  induction q as [|k q IH]; intros e e' H; [exact H|].
  cbn [get]. apply alike_unfold in H. destruct H as (_ & _ & H).
  pose proof (Forall2_nth _ _ _ k H) as Hk.
  destruct (nth_error (children e) k), (nth_error (children e') k); try contradiction.
  - now apply IH.
  - exact I.
Qed.

Lemma alike_itertext e : forall e',
  alike true e e' -> itertext e = itertext e'.
Proof.
  induction e as [t a x cs IH] using Element_nested_ind. intros [t' a' x' cs'] H.
  apply alike_unfold in H. cbn [tag text children] in H. destruct H as (_ & Hx & H).
  cbn [itertext]. rewrite (Hx eq_refl). f_equal.
  revert IH. induction H as [|c c' cs cs' Hc _ IHcs]; intros IH; [reflexivity|].
  inversion IH; subst. f_equal; auto.
Qed.

(** A step matches alike nodes alike, when the texts agree or the step has
    no predicate. *)
Lemma alike_step texts s d d' :
  alike texts d d' -> texts = true \/ plain_step s = true ->
  step_matches s d = step_matches s d'.
Proof.
  intros H Hs. apply alike_unfold in H. destruct H as (Ht & _ & Hcs).
  unfold step_matches. rewrite Ht. f_equal.
  unfold plain_step in Hs. unfold pred_holds.
  destruct (step_pred s) as [[t v]|]; [|reflexivity].
  destruct Hs as [-> | Hs]; [|discriminate].
  induction Hcs as [|c c' cs cs' Hc _ IH]; [reflexivity|].
  cbn [existsb]. rewrite IH. f_equal.
  rewrite (alike_itertext _ _ Hc).
  apply alike_unfold in Hc. destruct Hc as (-> & _). reflexivity.
Qed.

Lemma alike_matches_at texts root root' s p :
  alike texts root root' -> texts = true \/ plain_step s = true ->
  matches_at root s p = matches_at root' s p.
Proof.
  intros H Hs. unfold matches_at. pose proof (alike_get texts p _ _ H) as Hp.
  destruct (get root p), (get root' p); try contradiction; [|reflexivity].
  now apply (alike_step texts).
Qed.

Lemma alike_child_positions texts root root' p :
  alike texts root root' -> child_positions root p = child_positions root' p.
Proof.
  intros H. unfold child_positions. pose proof (alike_get texts p _ _ H) as Hp.
  destruct (get root p), (get root' p); try contradiction; [|reflexivity].
  apply alike_unfold in Hp. destruct Hp as (_ & _ & Hcs).
  now rewrite (Forall2_length Hcs).
Qed.

Lemma alike_descendant_positions texts root root' p :
  alike texts root root' -> descendant_positions root p = descendant_positions root' p.
Proof.
  intros H. unfold descendant_positions. pose proof (alike_get texts p _ _ H) as Hp.
  destruct (get root p), (get root' p); try contradiction; [|reflexivity].
  now rewrite (alike_iterdescendants texts _ _ Hp).
Qed.

Lemma alike_select_child texts root root' s ctx :
  alike texts root root' -> texts = true \/ plain_step s = true ->
  select_child root s ctx = select_child root' s ctx.
Proof.
  intros H Hs. unfold select_child. induction ctx as [|p ctx IH]; [reflexivity|].
  cbn [flat_map]. rewrite IH, (alike_child_positions texts _ _ p H). f_equal.
  apply filter_ext. intros q. now apply (alike_matches_at texts).
Qed.

Lemma alike_select_descendant texts root root' s ctx :
  alike texts root root' -> texts = true \/ plain_step s = true ->
  select_descendant root s ctx = select_descendant root' s ctx.
Proof.
  intros H Hs. unfold select_descendant. induction ctx as [|p ctx IH]; [reflexivity|].
  cbn [flat_map]. rewrite IH, (alike_descendant_positions texts _ _ p H). f_equal.
  apply filter_ext. intros q. now apply (alike_matches_at texts).
Qed.

Lemma alike_select_steps texts root root' steps : forall ctx,
  alike texts root root' -> texts = true \/ forallb plain_step steps = true ->
  select_steps root steps ctx = select_steps root' steps ctx.
Proof.
  unfold select_steps. induction steps as [|s steps IH]; intros ctx H Hs; [reflexivity|].
  cbn [fold_left]. rewrite (alike_select_child texts root root' s ctx H).
  - apply IH; [assumption|]. destruct Hs as [Hs | Hs]; [now left | right].
    cbn [forallb] in Hs. now apply andb_true_iff in Hs.
  - destruct Hs as [Hs | Hs]; [now left | right].
    cbn [forallb] in Hs. now apply andb_true_iff in Hs.
Qed.

(** A path finds the same nodes in alike trees, when the texts agree or the
    path has no predicate. *)
Lemma alike_findall texts root root' path :
  alike texts root root' -> texts = true \/ plain_path path = true ->
  findall root path = findall root' path.
Proof.
  intros H Hp. unfold findall, findall_from. destruct path as [s rest | steps].
  - rewrite (alike_select_descendant texts root root' s _ H).
    + apply (alike_select_steps texts); [assumption|].
      destruct Hp as [Hp | Hp]; [now left | right].
      cbn [plain_path] in Hp. now apply andb_true_iff in Hp.
    + destruct Hp as [Hp | Hp]; [now left | right].
      cbn [plain_path] in Hp. now apply andb_true_iff in Hp.
  - apply (alike_select_steps texts); assumption.
Qed.

Lemma alike_tag_path texts p : forall root root',
  alike texts root root' -> tag_path root p = tag_path root' p.
Proof.
  induction p as [|k p IH]; intros root root' H; [reflexivity|].
  cbn [tag_path]. apply alike_unfold in H. destruct H as (_ & _ & H).
  pose proof (Forall2_nth _ _ _ k H) as Hk.
  destruct (nth_error (children root) k), (nth_error (children root') k);
    try contradiction; [|reflexivity].
  rewrite (IH _ _ Hk). apply alike_unfold in Hk. destruct Hk as (-> & _). reflexivity.
Qed.

(** Outside the changed node the tree is as it was. *)
Lemma list_update_length {A} (g : A -> A) : forall (l : list A) k,
  List.length (list_update k g l) = List.length l.
Proof.
  induction l as [|y l IH]; intros [|k]; cbn [list_update List.length]; auto.
Qed.

Lemma list_update_elsewhere {A} (g : A -> A) : forall (l : list A) k j,
  j <> k -> nth_error (list_update k g l) j = nth_error l j.
Proof.
  induction l as [|y l IH]; intros [|k] [|j] H; cbn [list_update nth_error]; auto.
  congruence.
Qed.

Lemma get_update_other f : forall p q root,
  (forall e, children (f e) = children e) ->
  q <> p ->
  option_map text (get (update p f root) q) = option_map text (get root q)
  /\ option_map attrib (get (update p f root) q) = option_map attrib (get root q).
Proof.
  induction p as [|k p IH]; intros q root Hf Hq.
  - destruct q as [|j q]; [congruence|]. cbn [update get]. now rewrite Hf.
  - destruct q as [|j q]; [cbn; auto|]. cbn [update get children].
    destruct (Nat.eq_dec j k) as [-> | Hjk].
    + destruct (nth_error (children root) k) as [c|] eqn:Hk.
      * rewrite (list_update_nth _ _ _ _ Hk). apply IH; [assumption | congruence].
      * assert (Hn : nth_error (list_update k (update p f) (children root)) k = None).
        { apply nth_error_None. rewrite list_update_length. now apply nth_error_None. }
        rewrite Hn. auto.
    + rewrite list_update_elsewhere by assumption. auto.
Qed.

Lemma alike_text_at root root' q :
  alike true root root' -> text_at root q = text_at root' q.
Proof.
  intros H. unfold text_at. pose proof (alike_get true q _ _ H) as Hq.
  destruct (get root q), (get root' q); try contradiction; [|reflexivity].
  apply alike_unfold in Hq. destruct Hq as (_ & Hx & _). cbn. now rewrite (Hx eq_refl).
Qed.

Lemma assoc_get_set {V : Type} (k : string) (v : V) : forall l,
  assoc_get k (assoc_set k v l) = Some v.
Proof.
  induction l as [|[k' v'] l IH]; cbn [assoc_set assoc_get].
  - now rewrite String.eqb_refl.
  - destruct (String.eqb k' k) eqn:E; cbn [assoc_get]; [now rewrite String.eqb_refl|].
    now rewrite E.
Qed.

Lemma assoc_get_set_other {V : Type} (k k' : string) (v : V) : forall l,
  k' <> k -> assoc_get k' (assoc_set k v l) = assoc_get k' l.
Proof.
  intros l Hk. apply String.eqb_neq in Hk.
  induction l as [|[k0 v0] l IH]; cbn [assoc_set assoc_get].
  - rewrite String.eqb_sym. now rewrite Hk.
  - destruct (String.eqb k0 k) eqn:E; cbn [assoc_get].
    + apply String.eqb_eq in E. subst k0. rewrite String.eqb_sym. now rewrite Hk.
    + now rewrite IH.
Qed.

Section Attributes.
Variable R : Resources.

(** What a returning [setAttribute] did. *)
Lemma setAttribute_returns xpath name value s s' :
  setAttribute xpath name value s = (s', Return tt) ->
  exists element e old,
    findall (_xmlTree s) xpath = [element]
    /\ get (_xmlTree s) element = Some e
    /\ assoc_get name (attrib e) = Some old
    /\ s' = mutate element (set_attr name value) s.
Proof.
  unfold setAttribute, bind, single.
  destruct (findall (_xmlTree s) xpath) as [|element [|]] eqn:Hf; try discriminate.
  assert (Hin : In element (findall (_xmlTree s) xpath)) by (rewrite Hf; now left).
  apply findall_valid in Hin. unfold element_at.
  destruct (get (_xmlTree s) element) as [e|] eqn:He; [|congruence].
  destruct (assoc_get name (attrib e)) as [old|] eqn:Ha; [|discriminate].
  intros [= <-]. exists element, e, old. auto.
Qed.

End Attributes.




(** *** Reading back what [setValue] wrote *)

Section ReadBackValue.
Variable R : Resources.

Lemma after_write_returns element txt s s' :
  after_write R element txt s = (s', Return None) ->
  s' = written element txt s /\ schema_valid R (_xmlTree s') = true.
Proof.
  unfold after_write. destruct (schema_valid R _) eqn:Hv; [|discriminate].
  intros [= <-]. now split.
Qed.

(** A [setValue] that returns [None] has written the normalised text at
    the one element the path matches, and the document is valid. *)
Lemma setValue_stores xpath value s s' :
  setValue R xpath value s = (s', Return None) ->
  exists element schema,
    findall (_xmlTree s) xpath = [element]
    /\ schema_find R (tag_path (_xmlTree s) element) = Some schema
    /\ has_simple_content schema = true
    /\ s' = written element (stored_text schema value) s
    /\ schema_valid R (_xmlTree s') = true.
Proof.
  unfold setValue. unfold bind at 1. unfold single. cbv beta.
  destruct (findall (_xmlTree s) xpath) as [|element [|]] eqn:Hf; try discriminate.
  unfold bind at 1. unfold leaf_schema. cbv beta.
  destruct (schema_find R _) as [schema|] eqn:Hs; try discriminate.
  destruct (has_simple_content schema) eqn:Hc; try discriminate.
  intros H. exists element, schema. repeat (split; [assumption || reflexivity|]).
  apply after_write_returns. revert H.
  unfold stored_text, numeric_leaf.
  repeat break_match; try discriminate;
    try (rewrite store_then_validate; exact (fun H => H));
    match goal with
    | |- context [check_and_store R element value ?d ?lo ?hi s] =>
        destruct (check_and_store_cases R element value d lo hi s)
          as [[_ He]|(_ & _ & He)]; rewrite He; [discriminate | exact (fun H => H)]
    end.
Qed.

End ReadBackValue.

(** X2: after [setValue] has returned [None] on a path without predicates,
    [getValue] on the same path returns the normalised text (not the value
    as passed), every other predicate-free path gives the value it gave
    before, and every attribute reads as before. *)
Theorem setValue_then_getValue (R : Resources) (xpath : Path) (value : string)
    (s s' : CoreDB) :
  plain_path xpath = true ->
  setValue R xpath value s = (s', Return None) ->
  exists element schema,
    findall (_xmlTree s) xpath = [element]
    /\ schema_find R (tag_path (_xmlTree s) element) = Some schema
    /\ getValue R xpath s' = (s', Return (Some (stored_text schema value)))
    /\ (forall path, plain_path path = true ->
          findall (_xmlTree s) path <> [element] ->
          snd (getValue R path s') = snd (getValue R path s))
    /\ (forall path name, plain_path path = true ->
          snd (getAttribute path name s') = snd (getAttribute path name s)).
Proof.
  intros Hplain H. apply setValue_stores in H.
  destruct H as (element & schema & Hf & Hs & Hc & -> & _).
  exists element, schema. split; [exact Hf|]. split; [exact Hs|].
  set (txt := stored_text schema value).
  assert (Hal : alike false (_xmlTree s) (_xmlTree (written element txt s))).
  { cbn. apply alike_update. apply alike_set_text. }
  assert (Hfind : forall path, plain_path path = true ->
            findall (_xmlTree (written element txt s)) path = findall (_xmlTree s) path).
  { intros path Hp. symmetry. apply (alike_findall false); [exact Hal | now right]. }
  assert (Hin : In element (findall (_xmlTree s) xpath)) by (rewrite Hf; now left).
  apply findall_valid in Hin.
  destruct (get (_xmlTree s) element) as [e|] eqn:He; [clear Hin | congruence].
  assert (Hnode : forall q,
            q <> element ->
            text (element_at q (written element txt s)) = text (element_at q s)
            /\ attrib (element_at q (written element txt s)) = attrib (element_at q s)).
  { intros q Hq. unfold element_at. cbn [written set_modified mutate set_xmlTree _xmlTree].
    destruct (get_update_other (set_text (Some txt)) element q (_xmlTree s)) as [Ht Ha];
      [reflexivity | exact Hq |].
    destruct (get (update element (set_text (Some txt)) (_xmlTree s)) q),
             (get (_xmlTree s) q); cbn in Ht, Ha; split; congruence. }
  repeat split.
  - unfold getValue, bind, single, leaf_schema. rewrite (Hfind _ Hplain), Hf.
    rewrite <- (alike_tag_path false element _ _ Hal), Hs, Hc.
    unfold element_at. cbn [written set_modified mutate set_xmlTree _xmlTree].
    now rewrite (get_update _ _ _ _ He).
  - intros path Hp Hne. unfold getValue, bind, single, leaf_schema. rewrite (Hfind _ Hp).
    destruct (findall (_xmlTree s) path) as [|q [|]]; try reflexivity.
    rewrite <- (alike_tag_path false q _ _ Hal).
    destruct (schema_find R (tag_path (_xmlTree s) q)) as [sch|]; [|reflexivity].
    destruct (has_simple_content sch); [|reflexivity].
    cbn [snd]. destruct (Hnode q) as [-> _]; [congruence | reflexivity].
  - intros path name Hp. unfold getAttribute, bind, single. rewrite (Hfind _ Hp).
    destruct (findall (_xmlTree s) path) as [|q [|]]; try reflexivity.
    assert (Ha : attrib (element_at q (written element txt s)) = attrib (element_at q s)).
    { destruct (list_eq_dec Nat.eq_dec q element) as [-> | Hq]; [|now apply Hnode].
      unfold element_at. cbn [written set_modified mutate set_xmlTree _xmlTree].
      now rewrite (get_update _ _ _ _ He), He. }
    rewrite Ha. now destruct (assoc_get name (attrib (element_at q s))).
Qed.

Lemma setValue_then_getValue_witness :
  let s' := fst (setValue Sample.resources Sample.gravity " 0  0 -1.5E0 " Sample.fresh) in
  getValue Sample.resources Sample.gravity s' = (s', Return (Some "0 0 -1.5E0"))
  /\ snd (getValue Sample.resources Sample.pressure s') = Return (Some "101325").
Proof.
  intros s'.
  destruct (setValue_then_getValue Sample.resources Sample.gravity " 0  0 -1.5E0 "
              Sample.fresh s' eq_refl eq_refl)
    as (element & schema & Hf & Hs & Hget & Hother & _).
  vm_compute in Hf. injection Hf as <-.
  vm_compute in Hs. injection Hs as <-. split; [exact Hget|].
  rewrite Hother; [vm_compute; reflexivity | reflexivity | vm_compute; discriminate].
Defined.


(** *** The session protocol *)

(** X3: [with db: body] hands on what the body returned, swallows [Cancel]
    and lets every other exception through; afterwards the store is out of
    the session, without backup and without error flag. The rollback is of
    the tree only: the modified mark, the file path and the files are as
    the body left them. *)
Theorem session_protocol (R : Resources) (body : list Call) (s : CoreDB) :
  let inside := block R body (fst (enter s)) in
  let after := session R body s in
  snd after = match snd inside with
              | Return vs => Return (Some vs)
              | Raise Cancel => Return None
              | Raise e => Raise e
              end
  /\ _inContext (fst after) = false
  /\ _backupTree (fst after) = None
  /\ _lastError (fst after) = None
  /\ _modified (fst after) = _modified (fst inside)
  /\ _filePath (fst after) = _filePath (fst inside)
  /\ files (fst after) = files (fst inside).
Proof.
  cbv zeta. unfold session, with_. cbn [enter fst].
  destruct (block R body _) as [s1 [vs|e]]; cbn [fst snd exit].
  - repeat split.
  - destruct e; repeat split.
Qed.

(** A file written inside a session that is rolled back keeps the document
    the store no longer has. *)
Example saved_then_rolled_back :
  let body := [SetValue Sample.pressure "5"; SaveAs "case.h5"; Throw Cancel] in
  let after := fst (session Sample.resources body Sample.fresh) in
  snd (getValue Sample.resources Sample.pressure after) = Return (Some "101325")
  /\ isModified after = false
  /\ option_map (fun f => option_map (fun d => xpath_text (snd d) Sample.pressure)
                                     (configuration f))
                (assoc_get "case.h5" (files after)) = Some (Some ["5"]).
Proof. vm_compute. repeat split. Qed.

(** *** Saving *)

Section Disk.
Variable R : Resources.

Lemma call_disk c s :
  offline c = true ->
  files (fst (call R c s)) = files s /\ _filePath (fst (call R c s)) = _filePath s.
Proof.
  intros Hc. destruct c; try discriminate Hc;
    try (cbn [call]; unfold_ops; repeat break_match; cbn; now auto).
  rewrite call_setValue. cbn [fst].
  destruct (setValue_cases R xpath value s)
    as [(e & _ & H)|[(x & H)|(el & txt & _ & H)]]; rewrite H; now split.
Qed.

Lemma block_disk body : forall s,
  forallb offline body = true ->
  files (fst (block R body s)) = files s
  /\ _filePath (fst (block R body s)) = _filePath s.
Proof.
  induction body as [|c body IH]; intros s Hb; [now split|].
  cbn [forallb] in Hb. apply andb_true_iff in Hb. destruct Hb as [Hc Hb].
  rewrite block_cons. destruct (call_disk c s Hc) as [Hf Hp].
  destruct (call R c s) as [s1 [v|e]]; cbn [fst] in *; [|now split].
  destruct (IH s1 Hb) as [Hf' Hp'].
  destruct (block R body s1) as [s2 [vs|e]]; cbn [fst] in *; split; congruence.
Qed.

Lemma session_disk body s :
  forallb offline body = true ->
  files (fst (session R body s)) = files s
  /\ _filePath (fst (session R body s)) = _filePath s.
Proof.
  intros Hb. unfold session, with_. cbn [enter].
  match goal with |- context [block R body ?s0] => destruct (block_disk body s0 Hb) as [Hf Hp] end.
  destruct (block R body _) as [s1 [vs|e]]; cbn [fst exit] in *; [now split|].
  destruct e; cbn; now split.
Qed.

Lemma script_disk actions : forall s,
  forallb offline_action actions = true ->
  files (script R actions s) = files s /\ _filePath (script R actions s) = _filePath s.
Proof.
  unfold script. induction actions as [|a actions IH]; intros s Ha; [now split|].
  cbn [forallb] in Ha. apply andb_true_iff in Ha. destruct Ha as [Ha Hrest].
  cbn [fold_left]. destruct (IH (perform R a s) Hrest) as [-> ->].
  destruct a as [c|body]; cbn [perform offline_action] in *.
  - now apply call_disk.
  - now apply session_disk.
Qed.

End Disk.



(** *** Exceptions and validity *)

Section Raises.
Variable R : Resources.

(** [setValue] raises before it has touched anything, or because the
    validator refuses the document with the new text in place. *)
Lemma setValue_raises xpath value s s' x :
  setValue R xpath value s = (s', Raise x) ->
  (s' = s /\ (x = LookupError \/ x = ValueError \/ x = TypeError))
  \/ (x = DocumentInvalid /\ schema_valid R (_xmlTree s') = false
      /\ exists element txt, s' = written element txt s).
Proof.
  assert (Hw : forall element txt,
            after_write R element txt s = (s', Raise x) ->
            x = DocumentInvalid /\ schema_valid R (_xmlTree s') = false
            /\ exists element txt, s' = written element txt s).
  { intros element txt. unfold after_write.
    destruct (schema_valid R _) eqn:Hv; [discriminate|].
    intros [= <- <-]. repeat split; [assumption|]. now exists element, txt. }
  unfold setValue. unfold bind at 1. unfold single. cbv beta.
  destruct (findall (_xmlTree s) xpath) as [|element [|]] eqn:Hf;
    try (intros [= <- <-]; left; tauto).
  unfold bind at 1. unfold leaf_schema. cbv beta.
  destruct (schema_find R _) as [schema|] eqn:Hs; try (intros [= <- <-]; left; tauto).
  destruct (has_simple_content schema) eqn:Hc; try (intros [= <- <-]; left; tauto).
  repeat break_match; try discriminate;
    try (intros [= <- <-]; left; tauto);
    try (rewrite store_then_validate; intros H; right; exact (Hw _ _ H));
    match goal with
    | |- context [check_and_store R element value ?d ?lo ?hi s] =>
        destruct (check_and_store_cases R element value d lo hi s)
          as [[_ He]|(_ & _ & He)]; rewrite He;
        [discriminate | intros H; right; exact (Hw _ _ H)]
    end.
Qed.

End Raises.

Section BulkRaises.
Variable repr : PyVal -> string.

Lemma members_step_raises k ms :
  Forall (raises_bulk_exn repr) ms ->
  forall el x, snd (members_step repr k ms el) = Some x -> bulk_exn x.
Proof.
  induction 1 as [|m ms Hm _ IH]; intros el x; [discriminate|].
  cbn [members_step].
  destruct m as [s|z|b| |items|l];
    try (intros [= <-]; right; left; reflexivity).
  fold (members_step repr k).
  destruct (setBulkInternal repr (new_element k) (PDict items)) as [child [y|]] eqn:E.
  - intros [= <-]. apply (Hm (new_element k)). now rewrite E.
  - apply IH.
Qed.

Lemma entry_step_raises k v el x :
  raises_bulk_exn repr v ->
  match v with PList ms => Forall (raises_bulk_exn repr) ms | _ => True end ->
  snd (entry_step repr k v el) = Some x -> bulk_exn x.
Proof.
  intros Hv Hms. unfold entry_step.
  destruct (PyStr.startswith "@" k);
    [destruct v; try discriminate; intros [= <-]; left; reflexivity|].
  destruct (PyStr.startswith "$" k); [discriminate|].
  destruct v as [s|z|b| |items|ms]; try discriminate.
  - destruct (setBulkInternal repr (new_element k) (PDict items)) as [child y] eqn:E.
    cbn [snd]. intros ->. apply (Hv (new_element k)). now rewrite E.
  - destruct ms as [|[s|z|b| |items|l] ms']; try discriminate.
    now apply members_step_raises.
Qed.

Lemma setBulkInternal_raises v :
  raises_bulk_exn repr v /\ match v with PList ms => Forall (raises_bulk_exn repr) ms | _ => True end.
Proof.
  induction v as [s|z|b| |items IH|members IH] using PyVal_nested_ind;
    try (split; [|exact I]; intros el x [= <-]; right; right; reflexivity).
  - split; [|exact I]. induction IH as [|[k v] items [Hv Hms] _ IHitems]; intros el x.
    + discriminate.
    + rewrite setBulkInternal_cons.
      destruct (entry_step repr k v el) as [el' [y|]] eqn:E.
      * intros [= <-]. apply (entry_step_raises k v el); [assumption..|]. now rewrite E.
      * apply IHitems.
  - split.
    + intros el x [= <-]. right; right; reflexivity.
    + induction IH as [|m ms [Hm _] _ IHms]; constructor; assumption.
Qed.

End BulkRaises.

Lemma material_rows_raises root : forall elements x,
  material_rows root elements = Raise x ->
  x = LookupError \/ x = KeyError \/ x = ValueError.
Proof.
  induction elements as [|p rest IH]; intros x; [discriminate|].
  cbn [material_rows]. repeat break_match; intros H; try discriminate H;
    injection H as <-; auto.
Qed.

Lemma entity_rows_raises root idattr fields : forall elements x,
  entity_rows root idattr fields elements = Raise x ->
  x = LookupError \/ x = KeyError \/ x = ValueError \/ x = AttributeError.
Proof.
  induction elements as [|p rest IH]; intros x; [discriminate|].
  cbn [entity_rows]. repeat break_match; intros H; try discriminate H;
    injection H as <-; auto.
Qed.

(** X5: a call that raises leaves the store as it was, unless the exception
    is [DocumentInvalid], or the call is [setBulk] or [addRegion], which
    attach what they build as they go. After [DocumentInvalid] the store
    holds the document the validator has just refused. *)
Theorem raise_leaves_store (R : Resources) (c : Call) (s : CoreDB) (x : Exn) :
  snd (call R c s) = Raise x ->
  (x = DocumentInvalid -> (forall e, c <> Throw e) ->
   schema_valid R (_xmlTree (fst (call R c s))) = false)
  /\ (x <> DocumentInvalid -> builds_in_place c = false -> fst (call R c s) = s).
Proof.
  destruct c;
    try (cbn [call builds_in_place]; unfold_ops; repeat break_match; cbn;
         intros H; try discriminate H; injection H as <-;
         (split; [intros Hx Hc | intros Hx Hc]);
         solve [ assumption | discriminate | congruence | reflexivity
               | exfalso; eapply Hc; reflexivity ]).
  - rewrite call_setValue. cbn [fst snd].
    destruct (setValue R xpath value s) as [s' [r|y]] eqn:E; [discriminate|].
    intros [= ->]. cbn [fst].
    destruct (setValue_raises R _ _ _ _ _ E) as [[-> Hx]|(-> & Hv & _)].
    + split; [|reflexivity]. intros ->. destruct Hx as [Hx|[Hx|Hx]]; discriminate.
    + split; [intros; assumption | congruence].
  - cbn [call builds_in_place]. unfold fmap, bind, ret, setBulk, assertValid.
    destruct (negb (_inContext s)); [cbn; intros [= <-]; split; [discriminate | reflexivity]|].
    destruct value; try (cbn; intros [= <-]; split; [discriminate | reflexivity]).
    destruct (findall (_xmlTree s) xpath) as [|element [|]];
      try (cbn; intros [= <-]; split; [discriminate | reflexivity]).
    destruct (setBulkInternal _ _ _) as [built [y|]] eqn:E.
    + cbn. intros [= <-]. split; [|intros _ Hb; discriminate Hb]. intros ->.
      destruct (setBulkInternal_raises (container_repr R) (PDict items)) as [Hb _].
      destruct (Hb (clear (element_at element s)) DocumentInvalid) as [Hx|[Hx|Hx]];
        [now rewrite E | discriminate..].
    + destruct (schema_valid R _) eqn:Hv; cbn; [discriminate|].
      intros [= <-]. split; [intros; assumption | intros _ Hb; discriminate Hb].
  - cbn [call builds_in_place]. unfold fmap, bind, ret, getMaterials.
    destruct (material_rows _ _) as [rows|y] eqn:E; cbn; [discriminate|].
    intros [= <-]. split; [|reflexivity]. intros ->.
    destruct (material_rows_raises _ _ _ E) as [Hx|[Hx|Hx]]; discriminate.
  - cbn [call builds_in_place]. unfold addRegion, getMaterials, fmap, bind, ret, assertValid.
    destruct (find (_xmlTree s) (Descendant (st "regions") [st_named "region" rname]));
      [cbn; intros [= <-]; split; [discriminate | reflexivity]|].
    destruct (find (_xmlTree s) (Descendant (st "regions") [])) as [parent|];
      [|cbn; intros [= <-]; split; [discriminate | reflexivity]].
    cbv beta iota zeta.
    destruct (material_rows _ _) as [[|[[[mid n] f] ph] rows]|y] eqn:E.
    + cbn. intros [= <-]. split; [intros Hx; discriminate Hx | intros _ Hb; discriminate Hb].
    + destruct (schema_valid R _) eqn:Hv; cbn; [discriminate|].
      intros [= <-]. split; [intros; assumption | intros _ Hb; discriminate Hb].
    + cbn. intros [= <-]. split; [|intros _ Hb; discriminate Hb]. intros ->.
      destruct (material_rows_raises _ _ _ E) as [Hx|[Hx|Hx]]; discriminate.
  - cbn [call builds_in_place]. unfold fmap, bind, ret, getCellZones.
    destruct (entity_rows _ _ _ _) as [rows|y] eqn:E; cbn; [discriminate|].
    intros [= <-]. split; [|reflexivity]. intros ->.
    destruct (entity_rows_raises _ _ _ _ _ E) as [Hx|[Hx|[Hx|Hx]]]; discriminate.
  - cbn [call builds_in_place]. unfold fmap, bind, ret, getBoundaryConditions.
    destruct (entity_rows _ _ _ _) as [rows|y] eqn:E; cbn; [discriminate|].
    intros [= <-]. split; [|reflexivity]. intros ->.
    destruct (entity_rows_raises _ _ _ _ _ E) as [Hx|[Hx|[Hx|Hx]]]; discriminate.
Qed.

Lemma raise_leaves_store_witness :
  let c := AddCellZone "R1" "zone-1" in
  fst (call Sample.resources c (Sample.crowded 2)) = Sample.crowded 2.
Proof.
  intros c.
  destruct (raise_leaves_store Sample.resources c (Sample.crowded 2) FileExistsError eq_refl)
    as [_ H].
  apply H; [discriminate | reflexivity].
Defined.

Section Validity.
Variable R : Resources.

(** A validating call that returns leaves a valid document valid. *)
Lemma call_valid c s v :
  validating c = true ->
  schema_valid R (_xmlTree s) = true ->
  snd (call R c s) = Return v ->
  schema_valid R (_xmlTree (fst (call R c s))) = true.
Proof.
  intros Hc Hs. destruct c; try discriminate Hc; clear Hc;
    try (cbn [call]; unfold_ops; repeat break_match; cbn;
         intros H; try discriminate H; assumption).
  rewrite call_setValue. cbn [fst snd].
  destruct (setValue_cases R xpath value s)
    as [(e & _ & H)|[(x & H)|(el & txt & _ & H)]]; rewrite H; cbn [fst snd].
  - intros _. exact Hs.
  - discriminate.
  - unfold after_write. cbn [fst snd].
    destruct (schema_valid R (_xmlTree (written el txt s))) eqn:Hv; [|discriminate].
    reflexivity.
Qed.

Lemma block_valid body : forall s vs,
  forallb validating body = true ->
  schema_valid R (_xmlTree s) = true ->
  snd (block R body s) = Return vs ->
  schema_valid R (_xmlTree (fst (block R body s))) = true.
Proof.
  induction body as [|c body IH]; intros s vs Hb Hs; [intros _; exact Hs|].
  cbn [forallb] in Hb. apply andb_true_iff in Hb. destruct Hb as [Hc Hb].
  rewrite block_cons. pose proof (call_valid c s) as Hcall.
  destruct (call R c s) as [s1 [v|e]]; cbn [fst snd] in *; [|discriminate].
  specialize (Hcall v Hc Hs eq_refl). pose proof (IH s1) as Hrest.
  destruct (block R body s1) as [s2 [ws|e]]; cbn [fst snd] in *; [|discriminate].
  intros _. exact (Hrest ws Hb Hcall eq_refl).
Qed.

End Validity.

(** X6: a session of validating calls keeps a valid document valid,
    however it ends: what a returning call leaves has passed the
    validator, and what a raising or rejected call leaves is rolled back.
    Outside a session there is no such guarantee. *)
Theorem session_keeps_valid (R : Resources) (body : list Call) (s : CoreDB) :
  forallb validating body = true ->
  schema_valid R (_xmlTree s) = true ->
  schema_valid R (_xmlTree (fst (session R body s))) = true.
Proof.
  intros Hb Hs. rewrite session_tree.
  pose proof (block_valid R body (fst (enter s))) as Hblock.
  destruct (_lastError (fst (block R body (fst (enter s))))); [exact Hs|].
  destruct (snd (block R body (fst (enter s)))) as [vs|e]; [|exact Hs].
  exact (Hblock vs Hb Hs eq_refl).
Qed.

Lemma session_keeps_valid_witness :
  let body := [SetValue Sample.pressure "5"; SetValue Sample.maxIterations "1_0"] in
  snd (call Sample.resources (SetValue Sample.maxIterations "1_0") Sample.fresh)
    = Raise DocumentInvalid
  /\ schema_valid Sample.resources
       (_xmlTree (fst (call Sample.resources (SetValue Sample.maxIterations "1_0")
                            Sample.fresh))) = false
  /\ schema_valid Sample.resources
       (_xmlTree (fst (session Sample.resources body Sample.fresh))) = true.
Proof.
  intros body. split; [reflexivity|]. split; [reflexivity|].
  apply (session_keeps_valid Sample.resources body Sample.fresh); reflexivity.
Defined.


(** *** Ids and names of new entities *)

Section Allocation.
Variable R : Resources.

Lemma free_index_cases maxIndex idList :
  match free_index maxIndex idList with
  | Some index => smallest_free maxIndex idList index
  | None => exhausted maxIndex idList
  end.
Proof.
  destruct (free_index maxIndex idList) as [index|] eqn:E.
  - now apply free_index_smallest.
  - exact (proj1 (free_index_exhausted _ _) E).
Qed.

Lemma add_scoped_index maxIndex rname ename container entity idattr template patch s :
  (forall e e', patch e = Some e' -> attrib e' = attrib e) ->
  let idList := xpath_attr (_xmlTree s)
                  (Descendant (st_named "region" rname) [st container; st entity]) idattr in
  (forall s' index,
     add_scoped R maxIndex rname ename container entity idattr template patch s
       = (s', Return index) ->
     smallest_free maxIndex idList index
     /\ schema_valid R (_xmlTree s') = true
     /\ exists parent new,
          find (_xmlTree s) (Descendant (st_named "region" rname) [st container])
            = Some parent
          /\ assoc_get idattr (attrib new) = Some (PyStr.str_of_nat index)
          /\ s' = mutate parent (append new) s)
  /\ (snd (add_scoped R maxIndex rname ename container entity idattr template patch s)
        = Raise OverflowError -> exhausted maxIndex idList).
Proof.
  intros Hpatch idList. unfold add_scoped. fold idList.
  pose proof (free_index_cases maxIndex idList) as Hfree.
  destruct (find (_xmlTree s) (Descendant _ [_; _])).
  { split; [intros s' index H; discriminate H | intros H; discriminate H]. }
  destruct (free_index maxIndex idList) as [index|].
  2: { split; [intros s' i H; discriminate H | intros _; exact Hfree]. }
  destruct (set_child_text "name" ename template) as [named|].
  2: { split; [intros s' i H; discriminate H | intros H; discriminate H]. }
  destruct (patch _) as [new|] eqn:Hnew.
  2: { split; [intros s' i H; discriminate H | intros H; discriminate H]. }
  destruct (find (_xmlTree s) (Descendant _ [_])) as [parent|].
  2: { split; [intros s' i H; discriminate H | intros H; discriminate H]. }
  unfold bind, assertValid, ret.
  destruct (schema_valid R _) eqn:Hv.
  2: { split; [intros s' i H; discriminate H | intros H; discriminate H]. }
  split; [|intros H; discriminate H].
  intros s' i [= <- <-]. split; [exact Hfree|]. split; [exact Hv|].
  exists parent, new. repeat split.
  rewrite (Hpatch _ _ Hnew). cbn [set_attr attrib]. apply assoc_get_set.
Qed.

Lemma set_child_text_attrib t txt e e' :
  set_child_text t txt e = Some e' -> attrib e' = attrib e.
Proof.
  unfold set_child_text. destruct (set_first_child_text t txt (children e)); [|discriminate].
  now intros [= <-].
Qed.

Lemma find_mapped {A B} (f : B -> bool) (g : A -> B) : forall l,
  List.find f (map g l) = option_map g (List.find (fun x => f (g x)) l).
Proof.
  induction l as [|x l IH]; [reflexivity|]. cbn [map List.find].
  destruct (f (g x)); [reflexivity | exact IH].
Qed.

Lemma free_name_cases prefix names :
  match free_name prefix names with
  | Some name =>
      exists n, name = (prefix ++ PyStr.str_of_nat n)%string
                /\ 1 <= n < MONITOR_MAX_INDEX
                /\ mem name names = false
                /\ forall j, 1 <= j < n ->
                     mem (prefix ++ PyStr.str_of_nat j)%string names = true
  | None =>
      forall j, 1 <= j < MONITOR_MAX_INDEX ->
        mem (prefix ++ PyStr.str_of_nat j)%string names = true
  end.
Proof.
  unfold free_name. rewrite find_mapped.
  destruct (List.find _ (seq 1 (MONITOR_MAX_INDEX - 1))) as [n|] eqn:E; cbn [option_map].
  - apply find_seq_first in E. destruct E as (Hn & Hfree & Hbelow).
    exists n. split; [reflexivity|]. split; [unfold MONITOR_MAX_INDEX in *; lia|].
    split; [now apply negb_true_iff in Hfree|].
    intros j Hj. specialize (Hbelow j Hj). now apply negb_false_iff in Hbelow.
  - intros j Hj. pose proof (proj1 (find_seq_none _ _ _) E j) as H.
    apply negb_false_iff. apply H. unfold MONITOR_MAX_INDEX in *. lia.
Qed.

Lemma add_monitor_name group kind prefix template s :
  let names := monitor_names group kind (_xmlTree s) in
  (forall s' name,
     add_monitor R group kind prefix template s = (s', Return name) ->
     exists n, name = (prefix ++ PyStr.str_of_nat n)%string
               /\ 1 <= n < MONITOR_MAX_INDEX
               /\ mem name names = false
               /\ forall j, 1 <= j < n ->
                    mem (prefix ++ PyStr.str_of_nat j)%string names = true)
  /\ (snd (add_monitor R group kind prefix template s) = Raise OverflowError ->
      forall j, 1 <= j < MONITOR_MAX_INDEX ->
        mem (prefix ++ PyStr.str_of_nat j)%string names = true).
Proof.
  intros names. unfold add_monitor. fold names.
  pose proof (free_name_cases prefix names) as Hfree.
  destruct (free_name prefix names) as [name|].
  2: { split; [intros s' i H; discriminate H | intros _; exact Hfree]. }
  destruct (set_child_text "name" name template) as [monitor|].
  2: { split; [intros s' i H; discriminate H | intros H; discriminate H]. }
  destruct (find (_xmlTree s) (Descendant _ [_])) as [parent|].
  2: { split; [intros s' i H; discriminate H | intros H; discriminate H]. }
  unfold bind, assertValid, ret.
  destruct (schema_valid R _) eqn:Hv.
  2: { split; [intros s' i H; discriminate H | intros H; discriminate H]. }
  split; [|intros H; discriminate H].
  intros s' i [= <- <-]. exact Hfree.
Qed.

End Allocation.

(** X7: the id of a new material, cell zone or boundary condition is the
    smallest number from 1 below the respective maximum whose decimal is
    not among the ids in use: of all materials, or of the cell zones or
    boundary conditions of the named region. The new element carries the id,
    and the document with it is valid. [OverflowError] is raised only when
    every number below the maximum is in use. *)
Theorem new_id_is_smallest_free (R : Resources) (s : CoreDB) :
  (forall name,
     (forall s' index, addMaterial R name s = (s', Return index) ->
        smallest_free MATERIAL_MAX_INDEX (material_ids (_xmlTree s)) index
        /\ schema_valid R (_xmlTree s') = true
        /\ exists parent mdb,
             find (_xmlTree s) materials_path = Some parent
             /\ db_row R name = Some mdb
             /\ s' = mutate parent (append (material_element index name mdb)) s)
     /\ (snd (addMaterial R name s) = Raise OverflowError ->
         exhausted MATERIAL_MAX_INDEX (material_ids (_xmlTree s))))
  /\ (forall rname zname,
        (forall s' index, addCellZone R rname zname s = (s', Return index) ->
           smallest_free CELL_ZONE_MAX_INDEX (cell_zone_ids rname (_xmlTree s)) index
           /\ schema_valid R (_xmlTree s') = true
           /\ exists parent new,
                find (_xmlTree s) (Descendant (st_named "region" rname) [st "cellZones"])
                  = Some parent
                /\ assoc_get "czid" (attrib new) = Some (PyStr.str_of_nat index)
                /\ s' = mutate parent (append new) s)
        /\ (snd (addCellZone R rname zname s) = Raise OverflowError ->
            exhausted CELL_ZONE_MAX_INDEX (cell_zone_ids rname (_xmlTree s))))
  /\ (forall rname bname g,
        (forall s' index, addBoundaryCondition R rname bname g s = (s', Return index) ->
           smallest_free BOUNDARY_CONDITION_MAX_INDEX
                         (boundary_condition_ids rname (_xmlTree s)) index
           /\ schema_valid R (_xmlTree s') = true
           /\ exists parent new,
                find (_xmlTree s)
                     (Descendant (st_named "region" rname) [st "boundaryConditions"])
                  = Some parent
                /\ assoc_get "bcid" (attrib new) = Some (PyStr.str_of_nat index)
                /\ s' = mutate parent (append new) s)
        /\ (snd (addBoundaryCondition R rname bname g s) = Raise OverflowError ->
            exhausted BOUNDARY_CONDITION_MAX_INDEX
                      (boundary_condition_ids rname (_xmlTree s)))).
Proof.
  split; [|split].
  - intros name. unfold addMaterial, material_ids.
    pose proof (free_index_cases MATERIAL_MAX_INDEX
                  (xpath_attr (_xmlTree s) material_path "mid")) as Hfree.
    destruct (db_row R name) as [mdb|].
    2: { split; [intros s' i H; discriminate H | intros H; discriminate H]. }
    destruct (find (_xmlTree s) (Descendant _ [_])).
    { split; [intros s' i H; discriminate H | intros H; discriminate H]. }
    destruct (free_index _ _) as [index|].
    2: { split; [intros s' i H; discriminate H | intros _; exact Hfree]. }
    destruct (find (_xmlTree s) materials_path) as [parent|].
    2: { split; [intros s' i H; discriminate H | intros H; discriminate H]. }
    unfold bind, assertValid, ret.
    destruct (schema_valid R _) eqn:Hv.
    2: { split; [intros s' i H; discriminate H | intros H; discriminate H]. }
    split; [|intros H; discriminate H].
    intros s' i [= <- <-]. split; [exact Hfree|]. split; [exact Hv|].
    exists parent, mdb. repeat split.
  - intros rname zname. unfold addCellZone, cell_zone_ids.
    apply add_scoped_index. now intros e e' [= <-].
  - intros rname bname g. unfold addBoundaryCondition, boundary_condition_ids.
    apply add_scoped_index. intros e e'. destruct g as [g|].
    + apply set_child_text_attrib.
    + now intros [= <-].
Qed.

(** X8: the default name of a new monitor is the prefix of its kind
    followed by the smallest number from 1 to 99 that gives a name not in
    use among the monitors of that kind; [OverflowError] is raised only
    when the 99 names are all in use. *)
Theorem monitor_name_is_smallest_free (R : Resources) (add : M string)
    (group kind prefix : string) (s : CoreDB) :
  In (add, group, kind, prefix) (registries R) ->
  let names := monitor_names group kind (_xmlTree s) in
  (forall s' name,
     add s = (s', Return name) ->
     exists n, name = (prefix ++ PyStr.str_of_nat n)%string
               /\ 1 <= n < MONITOR_MAX_INDEX
               /\ mem name names = false
               /\ forall j, 1 <= j < n ->
                    mem (prefix ++ PyStr.str_of_nat j)%string names = true)
  /\ (snd (add s) = Raise OverflowError ->
      forall j, 1 <= j < MONITOR_MAX_INDEX ->
        mem (prefix ++ PyStr.str_of_nat j)%string names = true).
Proof.
  intros Hin. cbn [registries In] in Hin.
  destruct Hin as [H|[H|[H|[H|[]]]]]; injection H as <- <- <- <-;
    apply add_monitor_name.
Qed.

Lemma monitor_name_is_smallest_free_witness :
  let s := fst (addPointMonitor Sample.resources Sample.fresh) in
  exists n, "point-mon-2" = (POINT_MONITOR_DEFAULT_NAME ++ PyStr.str_of_nat n)%string
            /\ 1 <= n < MONITOR_MAX_INDEX
            /\ mem "point-mon-2" (monitor_names "points" "pointMonitor" (_xmlTree s)) = false.
Proof.
  intros s.
  assert (Hin : In (addPointMonitor Sample.resources, "points", "pointMonitor",
                    POINT_MONITOR_DEFAULT_NAME) (registries Sample.resources))
    by (right; left; reflexivity).
  assert (Hadd : addPointMonitor Sample.resources s
                 = (fst (addPointMonitor Sample.resources s), Return "point-mon-2"))
    by (vm_compute; reflexivity).
  destruct (monitor_name_is_smallest_free Sample.resources _ _ _ _ s Hin) as [Hret _].
  destruct (Hret _ _ Hadd) as (n & Hn & Hr & Hfree & _).
  exists n. repeat split; assumption || apply Hr.
Defined.

Lemma new_id_is_smallest_free_witness :
  smallest_free MATERIAL_MAX_INDEX (material_ids (_xmlTree Sample.fresh)) 2
  /\ smallest_free CELL_ZONE_MAX_INDEX
                   (cell_zone_ids "R1" (_xmlTree (Sample.crowded 3))) 4.
Proof.
  destruct (new_id_is_smallest_free Sample.resources Sample.fresh) as (Hm & _ & _).
  destruct (new_id_is_smallest_free Sample.resources (Sample.crowded 3)) as (_ & Hz & _).
  assert (Hwater : addMaterial Sample.resources "water" Sample.fresh
                   = (fst (addMaterial Sample.resources "water" Sample.fresh), Return 2))
    by (vm_compute; reflexivity).
  assert (Houtlet : addCellZone Sample.resources "R1" "outlet" (Sample.crowded 3)
                    = (fst (addCellZone Sample.resources "R1" "outlet" (Sample.crowded 3)),
                       Return 4))
    by (vm_compute; reflexivity).
  split.
  - destruct (Hm "water") as [Hret _]. exact (proj1 (Hret _ _ Hwater)).
  - destruct (Hz "R1" "outlet") as [Hret _]. exact (proj1 (Hret _ _ Houtlet)).
Defined.

(** *** The number of materials *)

Section MaterialCount.
Variable R : Resources.

(** In a flat document the [materials] element found is a child of the
    root. *)
Lemma materials_parent root parent :
  flat root = true -> find root materials_path = Some parent ->
  exists j c, parent = [j] /\ nth_error (children root) j = Some c
              /\ String.eqb (tag c) "materials" = true.
Proof.
  intros Hflat Hparent.
  apply find_in in Hparent. pose proof Hparent as Hdepth.
  apply findall_depth in Hdepth. cbn in Hdepth.
  unfold findall, findall_from, materials_path, select_steps in Hparent.
  cbn [fold_left] in Hparent. apply select_descendant_in in Hparent.
  destruct Hparent as [_ Hparent]. apply matches_at_tag in Hparent.
  destruct Hparent as (c & Hc & Htag).
  destruct (flat_materials root parent c Hflat Hc Htag) as (j & -> & Hj).
  { intros ->. cbn in Hdepth. lia. }
  now exists j, c.
Qed.

Lemma list_sum_update_more (F : Element -> nat) (H : Element -> Element) : forall j l c,
  nth_error l j = Some c -> F (H c) = S (F c) ->
  list_sum (map F (list_update j H l)) = S (list_sum (map F l)).
Proof.
  induction j as [|j IH]; intros [|y l] c Hj HF; cbn [nth_error] in Hj; try discriminate.
  - injection Hj as ->. cbn [list_update map]. rewrite !list_sum_cons. lia.
  - cbn [list_update map]. rewrite !list_sum_cons. rewrite (IH l c Hj HF). lia.
Qed.

Lemma addMaterial_count name s s' index :
  flat (_xmlTree s) = true ->
  addMaterial R name s = (s', Return index) ->
  flat (_xmlTree s') = true /\ count_materials s' = S (count_materials s).
Proof.
  intros Hflat. unfold addMaterial.
  destruct (db_row R name) as [mdb|]; [|discriminate].
  destruct (find (_xmlTree s) (Descendant _ [_])); [discriminate|].
  destruct (free_index _ _) as [i|]; [|discriminate].
  destruct (find (_xmlTree s) materials_path) as [parent|] eqn:Hp; [|discriminate].
  unfold bind, assertValid, ret.
  destruct (schema_valid R _); [|discriminate].
  intros [= <- <-]. cbn [mutate _xmlTree set_xmlTree].
  destruct (materials_parent _ _ Hflat Hp) as (j & c & -> & Hj & Htag).
  assert (Hshaped : shaped 0 (update [j] (append (material_element i name mdb)) (_xmlTree s))).
  { apply shaped_append; [apply clean_material | discriminate | split; [exact Hflat | lia]]. }
  destruct Hshaped as [Hflat' _]. split; [exact Hflat'|].
  unfold count_materials. cbn [mutate _xmlTree set_xmlTree].
  rewrite (count_flat _ Hflat'), (count_flat _ Hflat).
  unfold top_count. cbn [update children].
  apply (list_sum_update_more materials_in _ j _ c Hj).
  unfold materials_in. cbn [append tag]. rewrite Htag.
  unfold mat_kids. cbn [append children]. rewrite filter_app, length_app. cbn. lia.
Qed.

Lemma removeMaterial_count name s s' :
  flat (_xmlTree s) = true ->
  removeMaterial name s = (s', Return None) ->
  flat (_xmlTree s') = true /\ S (count_materials s') = count_materials s.
Proof.
  intros Hflat. unfold removeMaterial.
  destruct (find (_xmlTree s) materials_path) as [parent|] eqn:Hparent; [|discriminate].
  destruct (hd_error _) as [material|] eqn:Hmat; [|discriminate].
  destruct (assoc_get "mid" _); [|discriminate].
  destruct (mem _ _); [discriminate|].
  destruct (Nat.eqb _ 1) eqn:Hone; [discriminate|].
  intros [= <-]. cbn [mutate _xmlTree set_xmlTree]. unfold count_materials.
  cbn [mutate _xmlTree set_xmlTree].
  set (root := _xmlTree s) in *.
  destruct (materials_parent _ _ Hflat Hparent) as (j & c & -> & Hj & Htag).
  assert (Hin : In material (findall_from root [j] (Children [st_named "material" name]))).
  { destruct (findall_from _ _ _); cbn in Hmat; [discriminate|].
    injection Hmat as ->. now left. }
  unfold findall_from, select_steps in Hin. cbn [fold_left] in Hin.
  apply select_child_in in Hin. destruct Hin as (q & i & [<-|[]] & -> & Hm).
  apply matches_at_named in Hm. destruct Hm as (m & Hm & Hmtag).
  rewrite get_app in Hm. cbn [get] in Hm. rewrite Hj in Hm.
  unfold child_index. rewrite last_snoc.
  assert (Hflat' : flat (update [j] (remove_child i) root) = true).
  { unfold flat in *. cbn [update children].
    apply forallb_list_update; [|assumption].
    intros x Hx. cbn [remove_child children]. now apply forallb_list_remove. }
  split; [exact Hflat'|].
  rewrite (count_flat _ Hflat'), (count_flat _ Hflat).
  unfold top_count. cbn [update children].
  apply (list_sum_update_less materials_in (remove_child i) j _ c Hj).
  unfold materials_in. cbn [remove_child tag]. rewrite Htag.
  unfold mat_kids. cbn [children]. now apply (filter_remove_one _ i _ m).
Qed.

End MaterialCount.

(** X9: in a document that keeps its [materials] element right below the
    root, a returning [addMaterial] makes the list of [getMaterials] longer
    by exactly one, and a [removeMaterial] that returns [None] shorter by
    exactly one, leaving at least one; a [removeMaterial] that returns an
    error value leaves the store as it is. The document stays flat. *)
Theorem material_count_steps (R : Resources) (name : string) (s s' : CoreDB) :
  flat (_xmlTree s) = true ->
  (forall index, addMaterial R name s = (s', Return index) ->
     flat (_xmlTree s') = true /\ count_materials s' = S (count_materials s))
  /\ (removeMaterial name s = (s', Return None) ->
      flat (_xmlTree s') = true
      /\ S (count_materials s') = count_materials s /\ 1 <= count_materials s')
  /\ (forall e, removeMaterial name s = (s', Return (Some e)) ->
      s' = s /\ (e = REFERENCED \/ e = EMPTY)).
Proof.
  intros Hflat. split; [|split].
  - intros index. now apply addMaterial_count.
  - intros H. destruct (removeMaterial_count name s s' Hflat H) as [Hf Hc].
    split; [exact Hf|]. split; [exact Hc|].
    revert H. unfold removeMaterial.
    destruct (find (_xmlTree s) materials_path); [|discriminate].
    destruct (hd_error _); [|discriminate].
    destruct (assoc_get "mid" _); [|discriminate].
    destruct (mem _ _); [discriminate|].
    destruct (Nat.eqb _ 1) eqn:Hone; [discriminate|]. intros _.
    apply Nat.eqb_neq in Hone. unfold count_materials in *. lia.
  - intros e H. pose proof (removeMaterial_soft name s e) as Hsoft.
    rewrite H in Hsoft. cbn [fst snd] in Hsoft. now apply Hsoft.
Qed.

Lemma material_count_steps_witness :
  let s := Sample.two_materials_one_region in
  count_materials s = 2
  /\ count_materials (fst (removeMaterial "water" s)) = 1.
Proof.
  intros s. split; [reflexivity|].
  destruct (material_count_steps Sample.resources "water" s (fst (removeMaterial "water" s)))
    as (_ & Hrem & _); [reflexivity|].
  assert (Hret : removeMaterial "water" s = (fst (removeMaterial "water" s), Return None))
    by (vm_compute; reflexivity).
  destruct (Hrem Hret) as (_ & Hc & _).
  assert (H2 : count_materials s = 2) by reflexivity. lia.
Defined.


(** *** A name can be given once *)

Lemma walk_in : forall l i k c r,
  nth_error l k = Some c -> r = [] \/ In r (iterdescendants c) ->
  In ((i + k) :: r) (walk i l).
Proof.
  induction l as [|d l IH]; intros i k c r Hk Hr; [destruct k; discriminate|].
  cbn [walk]. destruct k as [|k]; cbn [nth_error] in Hk.
  - injection Hk as ->. rewrite Nat.add_0_r. apply in_or_app. left.
    destruct Hr as [-> | Hr]; [now left | right]. now apply in_map.
  - apply in_or_app. right. replace (i + S k) with (S i + k) by lia. now apply (IH _ _ c).
Qed.

(** Every proper descendant is listed by [iterdescendants]. *)
Lemma iterdescendants_all e : forall p,
  p <> [] -> get e p <> None -> In p (iterdescendants e).
Proof.
  induction e as [t a x cs IH] using Element_nested_ind. intros [|k r] Hp Hget; [congruence|].
  rewrite iterdescendants_walk. cbn [children get] in *.
  destruct (nth_error cs k) as [c|] eqn:Hk; [|congruence].
  apply (walk_in cs 0 k c r Hk).
  destruct r as [|j r]; [now left | right].
  rewrite Forall_forall in IH. apply (IH c); [now apply (nth_error_In cs k) | discriminate | exact Hget].
Qed.

Lemma select_descendant_has root s p :
  p <> [] -> matches_at root s p = true -> In p (select_descendant root s [[]]).
Proof.
  intros Hp Hm. unfold select_descendant. cbn [flat_map]. rewrite app_nil_r.
  apply filter_In. split; [|exact Hm].
  unfold descendant_positions. cbn [get].
  change (map (app []) (iterdescendants root)) with (map (fun q => q) (iterdescendants root)).
  rewrite map_id. apply iterdescendants_all; [exact Hp|].
  now apply (matches_at_valid root s).
Qed.

Lemma select_child_has root s ctx q i :
  In q ctx -> matches_at root s (q ++ [i]) = true ->
  In (q ++ [i]) (select_child root s ctx).
Proof.
  intros Hq Hm. unfold select_child. apply in_flat_map. exists q. split; [exact Hq|].
  apply filter_In. split; [|exact Hm].
  pose proof (matches_at_valid _ _ _ Hm) as Hv. rewrite get_app in Hv.
  unfold child_positions. destruct (get root q) as [e|]; [|congruence].
  apply (in_map (fun i => q ++ [i])). apply in_seq.
  assert (i < List.length (children e)) by (apply nth_error_Some; exact Hv). lia.
Qed.

Lemma append_nil (s : string) : (s ++ "")%string = s.
Proof. induction s as [|c s IH]; [reflexivity|]. cbn. now rewrite IH. Qed.

Lemma nth_error_snoc {A} (l : list A) (x : A) : nth_error (l ++ [x]) (List.length l) = Some x.
Proof. rewrite nth_error_app2 by lia. now rewrite Nat.sub_diag. Qed.

(** An element appended to the container a path finds, with a first child
    [name] holding [name], is found under that name afterwards. *)
Lemma appended_is_found root container parent kind name x rest :
  find root (Descendant (st container) []) = Some parent ->
  tag x = kind -> children x = leaf "name" name :: rest ->
  find (update parent (append x) root) (Descendant (st container) [st_named kind name])
  <> None.
Proof.
  intros Hparent Hkind Hkids.
  pose proof (find_descendant_nonempty _ _ _ _ Hparent) as Hne.
  apply find_in in Hparent. unfold findall, findall_from, select_steps in Hparent.
  cbn [fold_left] in Hparent. apply select_descendant_in in Hparent.
  destruct Hparent as [_ Hm]. apply matches_at_tag in Hm. destruct Hm as (pe & Hpe & Htag).
  set (root' := update parent (append x) root).
  assert (Hpe' : get root' parent = Some (append x pe)) by now apply get_update.
  assert (Hin : In (parent ++ [List.length (children pe)])
                   (findall root' (Descendant (st container) [st_named kind name]))).
  { unfold findall, findall_from, select_steps. cbn [fold_left].
    apply select_child_has.
    - apply select_descendant_has; [exact Hne|].
      unfold matches_at. rewrite Hpe'. unfold step_matches. cbn. now rewrite Htag.
    - unfold matches_at. rewrite get_app, Hpe'. cbn [append children].
      rewrite nth_error_snoc. unfold step_matches, st_named. cbn [step_tag step_pred pred_holds].
      rewrite Hkind, String.eqb_refl, Hkids. cbn [existsb leaf tag itertext].
      now rewrite append_nil, !String.eqb_refl. }
  unfold find. destruct (findall root' _); [contradiction | discriminate].
Qed.

Section Names.
Variable R : Resources.

Lemma addMaterial_returns name s s' index :
  addMaterial R name s = (s', Return index) ->
  exists parent mdb,
    find (_xmlTree s) materials_path = Some parent
    /\ db_row R name = Some mdb
    /\ smallest_free MATERIAL_MAX_INDEX (material_ids (_xmlTree s)) index
    /\ schema_valid R (_xmlTree s') = true
    /\ s' = mutate parent (append (material_element index name mdb)) s.
Proof.
  unfold addMaterial, material_ids.
  pose proof (free_index_cases MATERIAL_MAX_INDEX
                (xpath_attr (_xmlTree s) material_path "mid")) as Hfree.
  destruct (db_row R name) as [mdb|]; [|discriminate].
  destruct (find (_xmlTree s) (Descendant _ [_])); [discriminate|].
  destruct (free_index _ _) as [i|]; [|discriminate].
  destruct (find (_xmlTree s) materials_path) as [parent|]; [|discriminate].
  unfold bind, assertValid, ret. destruct (schema_valid R _) eqn:Hv; [|discriminate].
  intros [= <- <-]. now exists parent, mdb.
Qed.

(** However [addRegion] ends after it has found the [regions] element, a
    region element with the name is attached to it. *)
Lemma addRegion_attaches rname s s' r :
  addRegion R rname s = (s', r) ->
  r <> Raise FileExistsError -> r <> Raise TypeError ->
  exists parent x rest,
    find (_xmlTree s) (Descendant (st "regions") []) = Some parent
    /\ tag x = "region" /\ children x = leaf "name" rname :: rest
    /\ s' = mutate parent (append x) s.
Proof.
  unfold addRegion.
  destruct (find (_xmlTree s) (Descendant _ [_])); [intros [= <- <-]; congruence|].
  destruct (find (_xmlTree s) (Descendant (st "regions") [])) as [parent|];
    [|intros [= <- <-]; congruence].
  unfold getMaterials. cbv beta iota zeta.
  destruct (material_rows _ _) as [[|[[[mid n] f] ph] rows]|y].
  - intros [= <- <-] _ _.
    exists parent, (mkElement "region" [] None [leaf "name" rname]), []. repeat split.
  - unfold bind, assertValid, ret. destruct (schema_valid R _);
      intros [= <- <-] _ _; exists parent;
      exists (mkElement "region" [] None
                [leaf "name" rname; leaf "material" (PyStr.str_of_Z mid);
                 mkElement "cellZones" [] None [CELL_ZONE_PATH R];
                 new_element "boundaryConditions"]);
      eexists; repeat split.
  - intros [= <- <-] _ _.
    exists parent, (mkElement "region" [] None [leaf "name" rname]), []. repeat split.
Qed.

End Names.




(** *** What [setBulk] touches *)

Section BulkFrame.
Variable repr : PyVal -> string.

Lemma members_step_tag k : forall ms el,
  tag (fst (members_step repr k ms el)) = tag el.
Proof.
  induction ms as [|m ms IH]; intros el; [reflexivity|].
  cbn [members_step]. destruct m; try reflexivity.
  fold (members_step repr k).
  destruct (setBulkInternal repr (new_element k) (PDict items)) as [child [x|]];
    [reflexivity|]. now rewrite IH.
Qed.

Lemma entry_step_tag k v el : tag (fst (entry_step repr k v el)) = tag el.
Proof.
  unfold entry_step.
  destruct (PyStr.startswith "@" k); [destruct v; reflexivity|].
  destruct (PyStr.startswith "$" k); [reflexivity|].
  destruct v as [s|z|b| |items|ms]; try reflexivity.
  - now destruct (setBulkInternal repr (new_element k) (PDict items)).
  - destruct ms as [|[s|z|b| |items|l] ms']; try reflexivity;
      try (cbn [fst]; now rewrite fold_append_leaves).
    apply members_step_tag.
Qed.

(** [_setBulkInternal] keeps the tag of the element it fills. *)
Lemma setBulkInternal_tag v el : tag (fst (setBulkInternal repr el v)) = tag el.
Proof.
  destruct v as [s|z|b| |items|ms]; try reflexivity.
  revert el. induction items as [|[k w] items IH]; intros el; [reflexivity|].
  rewrite setBulkInternal_cons. pose proof (entry_step_tag k w el) as Hstep.
  destruct (entry_step repr k w el) as [el' [x|]]; cbn [fst] in *; [exact Hstep|].
  now rewrite IH.
Qed.

End BulkFrame.

(** A change at [p] is not seen at positions that are not at or below
    [p]. *)
Lemma update_outside f : forall p q root,
  (forall r, q <> p ++ r) ->
  label_at (update p f root) q = label_at root q.
Proof.
  unfold label_at. induction p as [|k p IH]; intros q root Hq.
  - exfalso. now apply (Hq q).
  - destruct q as [|j q]; [reflexivity|]. cbn [update get children].
    destruct (Nat.eq_dec j k) as [-> | Hjk].
    + destruct (nth_error (children root) k) as [c|] eqn:Hk.
      * rewrite (list_update_nth _ _ _ _ Hk). apply IH.
        intros r ->. now apply (Hq r).
      * assert (Hn : nth_error (list_update k (update p f) (children root)) k = None).
        { apply nth_error_None. rewrite list_update_length. now apply nth_error_None. }
        now rewrite Hn.
    + now rewrite list_update_elsewhere.
Qed.

(** X11: [setBulk] rebuilds one element and touches nothing else. It raises
    [RuntimeError] outside a session; it never marks the store as modified
    and changes no field but the tree; when it returns, the document is
    valid; and whenever it has changed the store, the one element the path
    matched has kept its tag, and every node that is not at or below that
    element has its tag, attributes and text as before. *)
Theorem setBulk_rebuilds_one_element (R : Resources) (xpath : Path) (value : PyVal)
    (s : CoreDB) :
  let s' := fst (setBulk R xpath value s) in
  (_inContext s = false -> setBulk R xpath value s = (s, Raise RuntimeError))
  /\ (_modified s' = _modified s /\ _filePath s' = _filePath s
      /\ _lastError s' = _lastError s /\ _backupTree s' = _backupTree s
      /\ _inContext s' = _inContext s /\ files s' = files s)
  /\ (snd (setBulk R xpath value s) = Return tt -> schema_valid R (_xmlTree s') = true)
  /\ (s' = s
      \/ exists element old new,
           findall (_xmlTree s) xpath = [element]
           /\ get (_xmlTree s) element = Some old
           /\ get (_xmlTree s') element = Some new
           /\ tag new = tag old
           /\ forall q, (forall r, q <> element ++ r) ->
                label_at (_xmlTree s') q = label_at (_xmlTree s) q).
Proof.
  cbv zeta. unfold setBulk.
  destruct (_inContext s) eqn:Hctx; cbn [negb].
  2: { split; [reflexivity|]. split; [cbn [fst]; repeat split; assumption|].
       split; [discriminate | left; reflexivity]. }
  split; [discriminate|].
  destruct value as [v|z|b| |items|ms];
    try (split; [cbn [fst]; repeat split; assumption
                | split; [discriminate | left; reflexivity]]).
  destruct (findall (_xmlTree s) xpath) as [|element [|]] eqn:Hf;
    try (split; [cbn [fst]; repeat split; assumption
                | split; [discriminate | left; reflexivity]]).
  assert (Hin : In element (findall (_xmlTree s) xpath)) by (rewrite Hf; now left).
  apply findall_valid in Hin.
  destruct (get (_xmlTree s) element) as [old|] eqn:Hold; [clear Hin | congruence].
  pose proof (setBulkInternal_tag (container_repr R) (PDict items)
                (clear (element_at element s))) as Htag.
  destruct (setBulkInternal _ _ _) as [built exn]. cbn [fst] in Htag.
  assert (Hframe :
    exists element0 old0 new,
      [element] = [element0]
      /\ get (_xmlTree s) element0 = Some old0
      /\ get (_xmlTree (mutate element (fun _ => built) s)) element0 = Some new
      /\ tag new = tag old0
      /\ forall q, (forall r, q <> element0 ++ r) ->
           label_at (_xmlTree (mutate element (fun _ => built) s)) q
           = label_at (_xmlTree s) q).
  { exists element, old, built. repeat split.
    - exact Hold.
    - cbn [mutate _xmlTree set_xmlTree]. now rewrite (get_update _ _ _ _ Hold).
    - rewrite Htag. unfold element_at. now rewrite Hold.
    - intros q Hq. cbn [mutate _xmlTree set_xmlTree]. now apply update_outside. }
  destruct exn as [x|].
  - cbn [fst snd]. split; [repeat split; assumption|].
    split; [discriminate | right; exact Hframe].
  - unfold assertValid. cbn [mutate _xmlTree set_xmlTree] in *.
    destruct (schema_valid R _) eqn:Hv; cbn [fst snd].
    + split; [repeat split; assumption|].
      split; [intros _; exact Hv | right; exact Hframe].
    + split; [repeat split; assumption|].
      split; [discriminate | right; exact Hframe].
Qed.

Lemma setBulk_rebuilds_one_element_witness :
  setBulk Sample.resources Sample.pressure (PDict []) Sample.fresh
  = (Sample.fresh, Raise RuntimeError).
Proof.
  destruct (setBulk_rebuilds_one_element Sample.resources Sample.pressure (PDict [])
              Sample.fresh) as [H _].
  apply H. reflexivity.
Defined.


(** *** The shape of what [getBulk] returns *)

Lemma readable_dict items :
  readable (PDict items)
  = keys_distinct items && forallb (fun kv => readable_entry (snd kv)) items.
Proof.
  cbn [readable]. f_equal. induction items as [|[k v] items IH]; [reflexivity|].
  cbn [forallb snd]. rewrite IH. f_equal. destruct v; reflexivity.
Qed.

Lemma assoc_set_keys {V : Type} (k : string) (v : V) : forall l,
  map fst (assoc_set k v l)
  = match assoc_get k l with
    | Some _ => map fst l
    | None => map fst l ++ [k]
    end.
Proof.
  induction l as [|[k' v'] l IH]; [reflexivity|]. cbn [assoc_set assoc_get].
  destruct (String.eqb k' k) eqn:E.
  - apply String.eqb_eq in E. now subst.
  - cbn [map fst]. rewrite IH. now destruct (assoc_get k l).
Qed.

Lemma assoc_set_distinct {V : Type} (k : string) (v : V) (l : list (string * V)) :
  keys_distinct l = true -> keys_distinct (assoc_set k v l) = true.
Proof.
  rewrite !keys_distinct_NoDup, assoc_set_keys. intros Hl.
  destruct (assoc_get k l) eqn:E; [exact Hl|].
  apply assoc_get_none in E. apply NoDup_app; [exact Hl | |].
  - constructor; [intros [] | constructor].
  - intros a Ha [<- | []]. contradiction.
Qed.

(** An entry that holds of every value stays so when a key is assigned a
    value of which it holds. *)
Lemma assoc_set_all {V : Type} (ok : V -> bool) (k : string) (v : V) : forall l,
  ok v = true -> forallb (fun kv => ok (snd kv)) l = true ->
  forallb (fun kv => ok (snd kv)) (assoc_set k v l) = true.
Proof.
  intros l Hv. induction l as [|[k' v'] l IH]; cbn [assoc_set forallb snd].
  - now rewrite Hv.
  - intros H. apply andb_true_iff in H. destruct H as [H1 H2].
    destruct (String.eqb k' k); cbn [forallb snd].
    + now rewrite Hv, H2.
    + now rewrite H1, IH.
Qed.

Lemma assoc_get_all {V : Type} (ok : V -> bool) (k : string) (v : V) : forall l,
  forallb (fun kv => ok (snd kv)) l = true -> assoc_get k l = Some v -> ok v = true.
Proof.
  induction l as [|[k' v'] l IH]; cbn [assoc_get forallb snd]; [discriminate|].
  intros H. apply andb_true_iff in H. destruct H as [H1 H2].
  destruct (String.eqb k' k); [now intros [= <-] | now apply IH].
Qed.

Lemma tidy_set k v data :
  readable_entry v = true -> tidy data -> tidy (assoc_set k v data).
Proof.
  intros Hv [Hk Ha]. split; [now apply assoc_set_distinct | now apply assoc_set_all].
Qed.

Lemma tidy_add_result t r data :
  readable_member r = true -> tidy data -> tidy (add_result t r data).
Proof.
  intros Hr Hd. unfold add_result.
  destruct (assoc_get t data) as [first|] eqn:E.
  - pose proof (assoc_get_all readable_entry t first data (proj2 Hd) E) as Hfirst.
    destruct first as [s|z|b| |items|ms]; try discriminate Hfirst;
      apply tidy_set; try assumption.
    + cbn. now rewrite Hr.
    + cbn [readable_entry List.length forallb Nat.leb]. cbn [readable_entry] in Hfirst.
      rewrite Hfirst, Hr. reflexivity.
    + cbn [readable_entry] in *. apply andb_true_iff in Hfirst. destruct Hfirst as [Hlen Hms].
      apply andb_true_iff. split.
      * apply Nat.leb_le in Hlen. apply Nat.leb_le. rewrite length_app. lia.
      * rewrite forallb_app, Hms. cbn. now rewrite Hr.
  - apply tidy_set; [|assumption]. destruct r; try discriminate Hr; exact Hr.
Qed.

Lemma tidy_attrs attrs : forall data, tidy data -> tidy (fold_left add_attr attrs data).
Proof.
  induction attrs as [|[k v] attrs IH]; intros data Hd; [exact Hd|].
  cbn [fold_left]. apply IH. unfold add_attr. now apply tidy_set.
Qed.

Lemma tidy_gather cs : forall data,
  Forall (fun c => readable_member (getBulkInternal c) = true) cs ->
  tidy data -> tidy (gather cs data).
Proof.
  unfold gather. induction cs as [|c cs IH]; intros data Hcs Hd; [exact Hd|].
  inversion Hcs; subst. cbn [fold_left]. apply IH; [assumption|].
  now apply tidy_add_result.
Qed.

Lemma add_result_nonempty t r data : add_result t r data <> [].
Proof.
  unfold add_result.
  assert (H : forall v, assoc_set t v data <> []).
  { intros v. destruct data as [|[k w] data]; cbn [assoc_set]; [discriminate|].
    destruct (String.eqb k t); discriminate. }
  destruct (assoc_get t data) as [[]|]; apply H.
Qed.

Lemma gather_nonempty cs : forall data, data <> [] -> gather cs data <> [].
Proof.
  unfold gather. induction cs as [|c cs IH]; intros data Hd; [exact Hd|].
  cbn [fold_left]. apply IH. apply add_result_nonempty.
Qed.

Lemma attrs_nonempty attrs : forall data, data <> [] -> fold_left add_attr attrs data <> [].
Proof.
  induction attrs as [|a attrs IH]; intros data Hd; [exact Hd|].
  cbn [fold_left]. apply IH. unfold add_attr.
  destruct data as [|[k w] data]; cbn [assoc_set]; [discriminate|].
  destruct (String.eqb k _); discriminate.
Qed.

(** What an element reads as is a string or a readable dict; a string
    exactly when the element has a text and neither attributes nor
    children. *)
Lemma getBulkInternal_shape e :
  readable_member (getBulkInternal e) = true
  /\ forall s, getBulkInternal e = PStr s <->
               text e = Some s /\ attrib e = [] /\ children e = [].
Proof.
  induction e as [t attrs txt cs IH] using Element_nested_ind.
  rewrite getBulkInternal_unfold. cbv zeta. cbn [text attrib children].
  assert (Hdata : tidy (gather cs (fold_left add_attr attrs []))).
  { apply tidy_gather; [|apply tidy_attrs; now split].
    eapply Forall_impl; [|exact IH]. intros c Hc. apply Hc. }
  assert (Hempty : gather cs (fold_left add_attr attrs []) = [] <-> attrs = [] /\ cs = []).
  { split.
    - intros H. destruct cs as [|c cs].
      + destruct attrs as [|a attrs]; [now split|].
        exfalso. revert H. cbn [gather fold_left]. apply attrs_nonempty.
        unfold add_attr. discriminate.
      + exfalso. revert H. unfold gather. cbn [fold_left].
        apply (gather_nonempty cs). apply add_result_nonempty.
    - intros [-> ->]. reflexivity. }
  destruct Hdata as [Hk Ha].
  destruct txt as [s|].
  - destruct (gather cs (fold_left add_attr attrs [])) as [|kv data] eqn:Hg.
    + split; [reflexivity|]. intros s'. split.
      * intros [= <-]. destruct (proj1 Hempty eq_refl) as [-> ->]. auto.
      * now intros ([= ->] & _ & _).
    + split.
      * cbn [readable_member]. rewrite readable_dict.
        rewrite assoc_set_distinct by exact Hk.
        now rewrite (assoc_set_all readable_entry).
      * intros s'. split; [discriminate|].
        intros (_ & -> & ->). destruct Hempty as [_ Hempty].
        now specialize (Hempty (conj eq_refl eq_refl)).
  - split.
    + cbn [readable_member]. rewrite readable_dict. now rewrite Hk, Ha.
    + intros s'. split; [discriminate | now intros [? _]].
Qed.

(** X12: [getBulk] changes nothing and returns a readable value: a string,
    or a dict with distinct keys whose values are strings, readable dicts,
    or lists of two or more of these; never a number, a boolean, [None], a
    bare list, an empty list or a list of one. The value is a bare string
    exactly when the element has a text and neither attributes nor
    children. *)
Theorem getBulk_shape (xpath : Path) (s s' : CoreDB) (v : PyVal) :
  getBulk xpath s = (s', Return v) ->
  s' = s
  /\ readable v = true
  /\ exists element e,
       findall (_xmlTree s) xpath = [element] /\ get (_xmlTree s) element = Some e
       /\ forall txt, v = PStr txt <-> text e = Some txt /\ attrib e = [] /\ children e = [].
Proof.
  unfold getBulk, bind, single.
  destruct (findall (_xmlTree s) xpath) as [|element [|]] eqn:Hf; try discriminate.
  intros [= <- <-]. split; [reflexivity|].
  assert (Hin : In element (findall (_xmlTree s) xpath)) by (rewrite Hf; now left).
  apply findall_valid in Hin. unfold element_at.
  destruct (get (_xmlTree s) element) as [e|] eqn:He; [|congruence].
  destruct (getBulkInternal_shape e) as [Hr Hs]. split.
  - destruct (getBulkInternal e); try discriminate Hr; [reflexivity | exact Hr].
  - now exists element, e.
Qed.

Lemma getBulk_shape_witness :
  let general := Descendant (st "general") [] in
  exists v, snd (getBulk general Sample.fresh) = Return v /\ readable v = true.
Proof.
  intros general.
  destruct (getBulk general Sample.fresh) as [s' [v|x]] eqn:E;
    [|vm_compute in E; discriminate E].
  exists v. split; [reflexivity|].
  exact (proj1 (proj2 (getBulk_shape general Sample.fresh s' v E))).
Defined.


(** *** What was added is listed *)

(** The decimal digits of an unsigned numeral. *)
Lemma numeral_chars d :
  Forall (fun c => PyStr.isdigit c = true)
         (list_ascii_of_string (DecimalString.NilEmpty.string_of_uint d)).
Proof.
  induction d; cbn [DecimalString.NilEmpty.string_of_uint list_ascii_of_string];
    constructor; try assumption; reflexivity.
Qed.

Lemma digit_no_space c : PyStr.isdigit c = true -> PyStr.isspace c = false.
Proof.
  unfold PyStr.isdigit, PyStr.isspace. cbv zeta.
  generalize (nat_of_ascii c). intros n H.
  apply andb_true_iff in H. destruct H as [H1 H2].
  apply Nat.leb_le in H1. apply Nat.leb_le in H2.
  apply orb_false_iff. split; apply andb_false_iff.
  - right. apply Nat.leb_gt. lia.
  - right. apply Nat.leb_gt. lia.
Qed.

Lemma lstrip_digits l :
  Forall (fun c => PyStr.isdigit c = true) l -> PyStr.lstrip_chars l = l.
Proof.
  intros H. destruct H as [|c l Hc _]; [reflexivity|].
  cbn [PyStr.lstrip_chars]. now rewrite (digit_no_space c Hc).
Qed.

Lemma strip_digits l :
  Forall (fun c => PyStr.isdigit c = true) l -> PyStr.strip_chars l = l.
Proof.
  intros H. unfold PyStr.strip_chars. rewrite (lstrip_digits l H).
  rewrite lstrip_digits; [apply rev_involutive|]. now apply Forall_rev.
Qed.

(** Reading the digits of a numeral gives its value. *)
Lemma digits_rest_numeral d : forall a k,
  PyStr.digits_rest (Z.of_nat a) k
    (list_ascii_of_string (DecimalString.NilEmpty.string_of_uint d))
  = (Z.of_nat (Nat.of_uint_acc d a),
     k + List.length (list_ascii_of_string (DecimalString.NilEmpty.string_of_uint d)),
     []).
Proof.
  induction d; intros a k;
    cbn [DecimalString.NilEmpty.string_of_uint list_ascii_of_string
         PyStr.digits_rest Nat.of_uint_acc List.length];
    try (rewrite Nat.add_0_r; reflexivity);
    match goal with
    | |- context [PyStr.isdigit ?c] => change (PyStr.isdigit c) with true; cbv iota
    end;
    match goal with
    | |- context [PyStr.digit_value ?c] =>
        let v := eval vm_compute in (PyStr.digit_value c) in
        change (PyStr.digit_value c) with v
    end;
    match goal with
    | |- PyStr.digits_rest ?acc _ _ = (Z.of_nat (Nat.of_uint_acc _ ?b), _, _) =>
        replace acc with (Z.of_nat b) by (rewrite Nat.tail_mul_spec; lia)
    end;
    rewrite IHd; f_equal; f_equal; lia.
Qed.

(** [int(str(n))] is [n]. *)
Lemma int_of_str n : PyStr.int (PyStr.str_of_nat n) = Some (Z.of_nat n).
Proof.
  unfold PyStr.str_of_nat.
  rewrite <- (DecimalNat.Unsigned.of_to n) at 2.
  generalize (Nat.to_uint n). intros d. unfold Nat.of_uint.
  destruct d as [|d|d|d|d|d|d|d|d|d|d]; [reflexivity|..];
    unfold DecimalString.NilZero.string_of_uint, PyStr.int;
    rewrite strip_digits by apply numeral_chars;
    pose proof (digits_rest_numeral d) as Hd;
    cbn [DecimalString.NilEmpty.string_of_uint list_ascii_of_string PyStr.sign];
    match goal with
    | |- context [Ascii.eqb ?c "-"] => change (Ascii.eqb c "-") with false; cbv iota
    end;
    match goal with
    | |- context [Ascii.eqb ?c "+"] => change (Ascii.eqb c "+") with false; cbv iota
    end;
    cbn [PyStr.digitpart];
    match goal with
    | |- context [PyStr.isdigit ?c] => change (PyStr.isdigit c) with true; cbv iota
    end;
    cbn [Nat.of_uint_acc];
    match goal with
    | |- context [PyStr.digit_value ?c] =>
        let v := eval vm_compute in (PyStr.digit_value c) in
        change (PyStr.digit_value c) with v
    end;
    match goal with
    | |- context [PyStr.digits_rest ?acc 1 _] =>
        match goal with
        | |- context [Nat.of_uint_acc d ?b] =>
            replace acc with (Z.of_nat b) by (rewrite ?Nat.tail_mul_spec; lia)
        end
    end;
    rewrite Hd; reflexivity.
Qed.

Lemma material_rows_in root : forall elements rows p e mid id,
  material_rows root elements = Return rows ->
  In p elements -> get root p = Some e ->
  assoc_get "mid" (attrib e) = Some mid -> PyStr.int mid = Some id ->
  In (id, findtext "name" e, findtext "chemicalFormula" e, findtext "phase" e) rows.
Proof.
  induction elements as [|q rest IH]; intros rows p e mid id Hrows Hin He Hmid Hid;
    [contradiction|].
  cbn [material_rows] in Hrows.
  destruct (get root q) as [e'|] eqn:He'; [|discriminate].
  destruct (assoc_get "mid" (attrib e')) as [mid'|] eqn:Hmid'; [|discriminate].
  destruct (PyStr.int mid') as [id'|] eqn:Hid'; [|discriminate].
  destruct (material_rows root rest) as [rows'|x] eqn:Hrest; [|discriminate].
  injection Hrows as <-. destruct Hin as [-> | Hin].
  - left. congruence.
  - right. now apply (IH rows' p e mid id).
Qed.

Lemma find_in_app {A} (f : A -> bool) (l1 l2 : list A) :
  List.find f (l1 ++ l2)
  = match List.find f l1 with
    | Some x => Some x
    | None => List.find f l2
    end.
Proof.
  induction l1 as [|x l1 IH]; [reflexivity|]. cbn [app List.find].
  destruct (f x); [reflexivity | exact IH].
Qed.

Lemma find_property t t' cell :
  List.find (fun c => String.eqb (tag c) t') (_materialPropertySubElement t cell)
  = if String.eqb t t'
    then match cell with Some s => Some (leaf t s) | None => None end
    else None.
Proof.
  destruct cell as [s|]; cbn [_materialPropertySubElement List.find leaf tag];
    destruct (String.eqb t t'); reflexivity.
Qed.

(** The new material as [getMaterials] reads it. *)
Lemma material_element_row index name mdb :
  findtext "name" (material_element index name mdb) = Some name
  /\ findtext "chemicalFormula" (material_element index name mdb) = chemicalFormula mdb
  /\ findtext "phase" (material_element index name mdb) = phase mdb.
Proof.
  unfold findtext, material_element. cbn [children]. split; [reflexivity|].
  split; rewrite !find_in_app, !find_property; cbn [List.find leaf tag String.eqb Ascii.eqb Bool.eqb].
  - destruct (chemicalFormula mdb); [reflexivity|].
    destruct (viscosity mdb); reflexivity.
  - destruct (phase mdb); [reflexivity|].
    destruct (viscosity mdb); reflexivity.
Qed.

(** An element appended to the container a path finds is reached by the
    path of its kind. *)
Lemma appended_is_reached root container parent pe kind x :
  find root (Descendant (st container) []) = Some parent ->
  get root parent = Some pe -> tag x = kind ->
  In (parent ++ [List.length (children pe)])
     (findall (update parent (append x) root) (Descendant (st container) [st kind])).
Proof.
  intros Hparent Hpe Hkind.
  pose proof (find_descendant_nonempty _ _ _ _ Hparent) as Hne.
  apply find_in in Hparent. unfold findall, findall_from, select_steps in Hparent.
  cbn [fold_left] in Hparent. apply select_descendant_in in Hparent.
  destruct Hparent as [_ Hm]. apply matches_at_tag in Hm. destruct Hm as (pe' & Hpe' & Htag).
  assert (pe' = pe) by congruence. subst pe'.
  assert (Hnew : get (update parent (append x) root) parent = Some (append x pe))
    by now apply get_update.
  unfold findall, findall_from, select_steps. cbn [fold_left].
  apply select_child_has.
  - apply select_descendant_has; [exact Hne|].
    unfold matches_at. rewrite Hnew. unfold step_matches. cbn. now rewrite Htag.
  - unfold matches_at. rewrite get_app, Hnew. cbn [append children].
    rewrite nth_error_snoc. unfold step_matches, st. cbn [step_tag step_pred pred_holds].
    now rewrite Hkind, String.eqb_refl.
Qed.

Lemma addMaterial_listed (R : Resources) name index mdb rows s s' :
  addMaterial R name s = (s', Return index) ->
  db_row R name = Some mdb ->
  snd (getMaterials s') = Return rows ->
  In (Z.of_nat index, Some name, chemicalFormula mdb, phase mdb) rows.
Proof.
  intros Hadd Hdb Hrows.
  destruct (addMaterial_returns R name s s' index Hadd)
    as (parent & mdb' & Hparent & Hdb' & _ & _ & ->).
  assert (mdb' = mdb) by congruence. subst mdb'.
  pose proof (find_in _ _ _ Hparent) as Hvalid. apply findall_valid in Hvalid.
  destruct (get (_xmlTree s) parent) as [pe|] eqn:Hpe; [|congruence].
  pose proof (appended_is_reached _ _ _ pe "material"
                (material_element index name mdb) Hparent Hpe eq_refl) as Hin.
  unfold getMaterials in Hrows. cbn [snd mutate _xmlTree set_xmlTree] in Hrows.
  destruct (material_element_row index name mdb) as (Hn & Hf & Hp).
  rewrite <- Hn, <- Hf, <- Hp.
  apply (material_rows_in _ _ rows _ (material_element index name mdb)
           (PyStr.str_of_nat index) _ Hrows Hin).
  - rewrite get_app, (get_update _ _ _ _ Hpe). cbn [append children].
    apply nth_error_snoc.
  - reflexivity.
  - apply int_of_str.
Qed.

(** X13: what was added is listed. After [addMaterial] has returned an id,
    every list [getMaterials] returns has a row with that id, the name, and
    the formula and phase of the database; after [addRegion] has returned,
    [getRegions] lists the name. *)
Theorem added_is_listed (R : Resources) (s s' : CoreDB) :
  (forall name index mdb rows,
     addMaterial R name s = (s', Return index) ->
     db_row R name = Some mdb ->
     snd (getMaterials s') = Return rows ->
     In (Z.of_nat index, Some name, chemicalFormula mdb, phase mdb) rows)
  /\ (forall rname,
        addRegion R rname s = (s', Return tt) ->
        exists names, snd (getRegions s') = Return names /\ In rname names).
Proof.
  split.
  - intros name index mdb rows. apply addMaterial_listed.
  - intros rname Hadd.
    destruct (addRegion_attaches R rname s s' _ Hadd)
      as (parent & x & rest & Hparent & Htag & Hkids & ->); [discriminate..|].
    eexists. split; [reflexivity|].
    pose proof (find_in _ _ _ Hparent) as Hvalid. apply findall_valid in Hvalid.
    destruct (get (_xmlTree s) parent) as [pe|] eqn:Hpe; [|congruence].
    cbn [mutate _xmlTree set_xmlTree].
    set (root' := update parent (append x) (_xmlTree s)).
    set (q := parent ++ [List.length (children pe)]).
    assert (Hq : get root' q = Some x).
    { unfold q, root'. rewrite get_app, (get_update _ _ _ _ Hpe). cbn [append children].
      apply nth_error_snoc. }
    assert (Hname : get root' (q ++ [0]) = Some (leaf "name" rname)).
    { rewrite get_app, Hq, Hkids. reflexivity. }
    unfold xpath_text. apply in_flat_map. exists (q ++ [0]). split.
    + unfold findall, findall_from, select_steps. cbn [fold_left].
      apply select_child_has.
      * apply select_descendant_has.
        -- unfold q. intros H. now apply app_eq_nil in H.
        -- unfold matches_at. rewrite Hq. unfold step_matches. cbn. now rewrite Htag.
      * unfold matches_at. rewrite Hname. reflexivity.
    + rewrite Hname. now left.
Qed.

Lemma added_is_listed_witness :
  let s' := fst (addMaterial Sample.resources "water" Sample.fresh) in
  exists rows, snd (getMaterials s') = Return rows
               /\ In (2%Z, Some "water", Some "H2O", Some "liquid") rows.
Proof.
  intros s'.
  destruct (added_is_listed Sample.resources Sample.fresh s') as [H _].
  assert (Hadd : addMaterial Sample.resources "water" Sample.fresh = (s', Return 2))
    by (vm_compute; reflexivity).
  assert (Hrows : snd (getMaterials s')
                  = Return [(1%Z, Some "air", Some "N2+O2", Some "gas");
                            (2%Z, Some "water", Some "H2O", Some "liquid")])
    by (vm_compute; reflexivity).
  eexists. split; [exact Hrows|].
  exact (H "water" 2 Sample.water _ Hadd eq_refl Hrows).
Defined.


(** *** Construction *)

Lemma addMaterial_fields (R : Resources) name s :
  let s' := fst (addMaterial R name s) in
  _modified s' = _modified s /\ _inContext s' = _inContext s
  /\ _filePath s' = _filePath s /\ _backupTree s' = _backupTree s
  /\ _lastError s' = _lastError s /\ files s' = files s.
Proof.
  cbv zeta. unfold addMaterial, bind, assertValid, ret.
  repeat break_match; cbn; repeat split.
Qed.

(** X14: the constructor raises [XMLSyntaxError] for a template the
    validating parser refuses; in every case the store it leaves is
    unmodified, outside a session, without file path and error flag; and
    when it returns, the document is the valid template with the material
    [air] added: every list [getMaterials] returns has the row of [air],
    under the smallest id the template leaves free. *)
Theorem init_state (R : Resources) (disk : list (string * H5File)) :
  let s := fst (init R disk) in
  (schema_valid R (XML_PATH R) = false -> init R disk = (s, Raise XMLSyntaxError))
  /\ (isModified s = false /\ _inContext s = false /\ _filePath s = None
      /\ _backupTree s = None /\ _lastError s = None /\ files s = disk)
  /\ (snd (init R disk) = Return tt ->
      schema_valid R (XML_PATH R) = true
      /\ schema_valid R (_xmlTree s) = true
      /\ exists index mdb,
           db_row R "air" = Some mdb
           /\ smallest_free MATERIAL_MAX_INDEX (material_ids (XML_PATH R)) index
           /\ forall rows, snd (getMaterials s) = Return rows ->
                In (Z.of_nat index, Some "air", chemicalFormula mdb, phase mdb) rows).
Proof.
  cbv zeta. unfold init.
  destruct (schema_valid R (XML_PATH R)) eqn:Hv.
  2: { split; [reflexivity|]. split; [repeat split | discriminate]. }
  split; [discriminate|].
  set (s0 := mkCoreDB false None false None None (XML_PATH R) disk).
  assert (Hinit : (addMaterial R "air" ;;; ret tt) s0
                  = (fst (addMaterial R "air" s0),
                     match snd (addMaterial R "air" s0) with
                     | Return _ => Return tt
                     | Raise x => Raise x
                     end)).
  { unfold bind, ret. now destruct (addMaterial R "air" s0) as [s1 [index|x]]. }
  rewrite Hinit. clear Hinit. cbn [fst snd].
  split; [exact (addMaterial_fields R "air" s0)|].
  destruct (addMaterial R "air" s0) as [s1 [index|x]] eqn:Hadd; cbn [fst snd];
    [|discriminate].
  destruct (addMaterial_returns R "air" s0 s1 index Hadd)
    as (parent & mdb & Hparent & Hdb & Hfree & Hvalid & Hs1).
  intros _. split; [reflexivity|]. split; [exact Hvalid|].
  exists index, mdb. split; [exact Hdb|]. split; [exact Hfree|].
  intros rows. now apply (addMaterial_listed R "air" index mdb rows s0 s1).
Qed.

Lemma init_state_witness :
  exists rows, snd (getMaterials Sample.fresh) = Return rows
               /\ exists index, In (Z.of_nat index, Some "air", Some "N2+O2", Some "gas") rows.
Proof.
  assert (Hrows : snd (getMaterials Sample.fresh)
                  = Return [(1%Z, Some "air", Some "N2+O2", Some "gas")])
    by (vm_compute; reflexivity).
  eexists. split; [exact Hrows|].
  destruct (init_state Sample.resources []) as (_ & _ & H).
  destruct (H eq_refl) as (_ & _ & index & mdb & Hdb & _ & Hlist).
  vm_compute in Hdb. injection Hdb as <-.
  exists index. exact (Hlist _ Hrows).
Defined.


(** *** Names within a region *)

Lemma get_update_below f : forall q r root e,
  get root q = Some e -> get (update (q ++ r) f root) q = Some (update r f e).
Proof.
  induction q as [|k q IH]; intros r root e H.
  - cbn in *. now injection H as ->.
  - cbn [get app update children] in *.
    destruct (nth_error (children root) k) as [c|] eqn:Hc; [|discriminate].
    rewrite (list_update_nth _ _ _ _ Hc). now apply IH.
Qed.

Lemma existsb_list_update (P : Element -> bool) (g : Element -> Element) : forall k l c,
  nth_error l k = Some c -> P (g c) = P c ->
  existsb P (list_update k g l) = existsb P l.
Proof.
  induction k as [|k IH]; intros [|y l] c Hk HP; cbn [nth_error] in Hk; try discriminate.
  - injection Hk as ->. cbn [list_update existsb]. now rewrite HP.
  - cbn [list_update existsb]. now rewrite (IH l c Hk HP).
Qed.

(** Naming a template whose [name] child is a leaf makes it pass the
    predicate on that name. *)
Lemma named_is_found name template named :
  name_child_is_leaf template = true ->
  set_child_text "name" name template = Some named ->
  tag named = tag template /\ pred_holds (Some ("name", name)) named = true.
Proof.
  unfold name_child_is_leaf, set_child_text. intros Hleaf.
  destruct (set_first_child_text "name" name (children template)) as [cs|] eqn:Hcs;
    [|discriminate].
  intros [= <-]. split; [reflexivity|]. cbn [pred_holds children].
  revert cs Hcs Hleaf. induction (children template) as [|c l IH]; intros cs Hcs Hleaf;
    [discriminate|].
  cbn [set_first_child_text List.find] in *.
  destruct (String.eqb (tag c) "name") eqn:Htag.
  - injection Hcs as <-. cbn [existsb set_text tag]. rewrite Htag.
    destruct c as [t a x kids]. cbn [children] in Hleaf.
    destruct kids; [|discriminate]. cbn [itertext set_text tag attrib children].
    now rewrite append_nil, String.eqb_refl.
  - destruct (set_first_child_text "name" name l) as [r|]; [|discriminate].
    injection Hcs as <-. cbn [existsb]. rewrite (IH r eq_refl Hleaf). apply orb_true_r.
Qed.

(** A text set on a child of another tag leaves the name as it is. *)
Lemma other_child_text t txt name e e' :
  String.eqb t "name" = false ->
  set_child_text t txt e = Some e' ->
  tag e' = tag e
  /\ attrib e' = attrib e
  /\ (pred_holds (Some ("name", name)) e = true ->
      pred_holds (Some ("name", name)) e' = true).
Proof.
  unfold set_child_text. intros Ht.
  destruct (set_first_child_text t txt (children e)) as [cs|] eqn:Hcs; [|discriminate].
  intros [= <-]. split; [reflexivity|]. split; [reflexivity|]. cbn [pred_holds children].
  revert cs Hcs. induction (children e) as [|c l IH]; intros cs Hcs; [discriminate|].
  cbn [set_first_child_text] in Hcs.
  destruct (String.eqb (tag c) t) eqn:Htag.
  - injection Hcs as <-. cbn [existsb set_text tag].
    apply String.eqb_eq in Htag. rewrite Htag, Ht. cbn. auto.
  - destruct (set_first_child_text t txt l) as [r|]; [|discriminate].
    injection Hcs as <-. cbn [existsb]. intros H. apply orb_true_iff in H.
    apply orb_true_iff. destruct H as [H|H]; [now left | right; now apply IH].
Qed.

Section ScopedNames.
Variable R : Resources.

Lemma add_scoped_returns maxIndex rname ename container entity idattr template patch s s'
    index :
  add_scoped R maxIndex rname ename container entity idattr template patch s
    = (s', Return index) ->
  exists parent named new,
    set_child_text "name" ename template = Some named
    /\ patch (set_attr idattr (PyStr.str_of_nat index) named) = Some new
    /\ find (_xmlTree s) (Descendant (st_named "region" rname) [st container]) = Some parent
    /\ s' = mutate parent (append new) s.
Proof.
  unfold add_scoped.
  destruct (find (_xmlTree s) (Descendant _ [_; _])); [discriminate|].
  destruct (free_index _ _) as [i|]; [|discriminate].
  destruct (set_child_text "name" ename template) as [named|]; [|discriminate].
  destruct (patch _) as [new|] eqn:Hnew; [|discriminate].
  destruct (find (_xmlTree s) (Descendant _ [_])) as [parent|]; [|discriminate].
  unfold bind, assertValid, ret. destruct (schema_valid R _); [|discriminate].
  intros [= <- <-]. now exists parent, named, new.
Qed.

(** After an element has been appended to the container a two-step path
    finds, the path still reaches the container. *)
Lemma container_is_reached root s0 container parent x :
  keeps_matching s0 container = true ->
  find root (Descendant s0 [st container]) = Some parent ->
  exists pe,
    get root parent = Some pe
    /\ get (update parent (append x) root) parent = Some (append x pe)
    /\ In parent (select_child (update parent (append x) root) (st container)
                    (select_descendant (update parent (append x) root) s0 [[]])).
Proof.
  intros Hkeeps Hparent.
  apply find_in in Hparent. unfold findall, findall_from, select_steps in Hparent.
  cbn [fold_left] in Hparent. apply select_child_in in Hparent.
  destruct Hparent as (rp & k & Hrp & -> & Hm).
  apply select_descendant_in in Hrp. destruct Hrp as [Hdesc Hregion].
  assert (Hne : rp <> []).
  { rewrite iterdescendants_walk in Hdesc. now apply walk_nonempty in Hdesc. }
  apply matches_at_tag in Hm. destruct Hm as (pe & Hpe & Hptag).
  pose proof Hpe as Hk. rewrite get_app in Hk.
  destruct (get root rp) as [re|] eqn:Hre; [|discriminate].
  set (root' := update (rp ++ [k]) (append x) root).
  assert (Hre' : get root' rp = Some (update [k] (append x) re))
    by now apply get_update_below.
  assert (Hpe' : get root' (rp ++ [k]) = Some (append x pe)) by now apply get_update.
  exists pe. split; [exact Hpe|]. split; [exact Hpe'|].
  apply select_child_has.
  - apply select_descendant_has; [exact Hne|].
    unfold matches_at in *. rewrite Hre'. rewrite Hre in Hregion.
    unfold step_matches in *. cbn [update tag children].
    apply andb_true_iff in Hregion. destruct Hregion as [Htag Hpred].
    rewrite Htag. cbn [andb]. unfold keeps_matching in Hkeeps. unfold pred_holds in *.
    destruct (step_pred s0) as [[t v]|]; [|reflexivity]. cbn [children].
    rewrite (existsb_list_update _ _ k _ pe Hk); [exact Hpred|].
    cbn [append tag]. apply String.eqb_eq in Hptag. rewrite Hptag.
    apply negb_true_iff in Hkeeps. now rewrite Hkeeps.
  - unfold matches_at. rewrite Hpe'. unfold step_matches. cbn. now rewrite Hptag.
Qed.

(** The appended element is reached by any further step that matches
    it. *)
Lemma appended_child_is_reached root s0 container parent x last :
  keeps_matching s0 container = true ->
  find root (Descendant s0 [st container]) = Some parent ->
  step_matches last x = true ->
  exists pe,
    get root parent = Some pe
    /\ get (update parent (append x) root) (parent ++ [List.length (children pe)]) = Some x
    /\ In (parent ++ [List.length (children pe)])
          (findall (update parent (append x) root) (Descendant s0 [st container; last])).
Proof.
  intros Hkeeps Hparent Hlast.
  destruct (container_is_reached root s0 container parent x Hkeeps Hparent)
    as (pe & Hpe & Hpe' & Hin).
  assert (Hx : get (update parent (append x) root) (parent ++ [List.length (children pe)])
               = Some x).
  { rewrite get_app, Hpe'. cbn [append children]. apply nth_error_snoc. }
  exists pe. split; [exact Hpe|]. split; [exact Hx|].
  unfold findall, findall_from, select_steps. cbn [fold_left].
  apply select_child_has; [exact Hin|]. unfold matches_at. now rewrite Hx.
Qed.

(** An entity appended to the container of a region is found under its
    name in that region. *)
Lemma scoped_is_found root rname container entity ename parent new :
  String.eqb container "name" = false ->
  find root (Descendant (st_named "region" rname) [st container]) = Some parent ->
  tag new = entity -> pred_holds (Some ("name", ename)) new = true ->
  find (update parent (append new) root)
       (Descendant (st_named "region" rname) [st container; st_named entity ename])
  <> None.
Proof.
  intros Hcontainer Hparent Htag Hname.
  destruct (appended_child_is_reached root (st_named "region" rname) container parent new
              (st_named entity ename)) as (pe & _ & _ & Hin).
  - unfold keeps_matching. cbn. now rewrite Hcontainer.
  - exact Hparent.
  - unfold step_matches, st_named. cbn [step_tag step_pred].
    now rewrite Htag, String.eqb_refl, Hname.
  - unfold find. destruct (findall _ _); [contradiction | discriminate].
Qed.

Lemma add_scoped_twice maxIndex rname ename container entity idattr template patch patch'
    s s' index :
  String.eqb container "name" = false ->
  tag template = entity -> name_child_is_leaf template = true ->
  (forall e e', patch e = Some e' ->
     tag e' = tag e
     /\ (pred_holds (Some ("name", ename)) e = true ->
         pred_holds (Some ("name", ename)) e' = true)) ->
  add_scoped R maxIndex rname ename container entity idattr template patch s
    = (s', Return index) ->
  add_scoped R maxIndex rname ename container entity idattr template patch' s'
  = (s', Raise FileExistsError).
Proof.
  intros Hcontainer Htag Hleaf Hpatch Hadd.
  destruct (add_scoped_returns _ _ _ _ _ _ _ _ _ _ _ Hadd)
    as (parent & named & new & Hnamed & Hnew & Hparent & ->).
  destruct (named_is_found _ _ _ Hleaf Hnamed) as [Hntag Hnpred].
  destruct (Hpatch _ _ Hnew) as [Htag' Hpred'].
  assert (Hfound := scoped_is_found (_xmlTree s) rname container entity ename parent new
                      Hcontainer Hparent).
  unfold add_scoped. cbn [mutate _xmlTree set_xmlTree].
  destruct (find _ (Descendant (st_named "region" rname)
                               [st container; st_named entity ename])); [reflexivity|].
  exfalso. apply Hfound.
  - rewrite Htag'. cbn [set_attr tag]. congruence.
  - apply Hpred'. exact Hnpred.
  - reflexivity.
Qed.

End ScopedNames.




(** *** Writing back what was read *)

Ltac each_char c :=
  destruct c as [[] [] [] [] [] [] [] []]; vm_compute; reflexivity.

Lemma isspace_lower c : PyStr.isspace (PyStr.lower_char c) = PyStr.isspace c.
Proof. each_char c. Qed.

Lemma isdigit_lower c : PyStr.isdigit (PyStr.lower_char c) = PyStr.isdigit c.
Proof. each_char c. Qed.

Lemma lower_lower c : PyStr.lower_char (PyStr.lower_char c) = PyStr.lower_char c.
Proof. each_char c. Qed.

Lemma minus_lower c : Ascii.eqb (PyStr.lower_char c) "-" = Ascii.eqb c "-".
Proof. each_char c. Qed.

Lemma plus_lower c : Ascii.eqb (PyStr.lower_char c) "+" = Ascii.eqb c "+".
Proof. each_char c. Qed.

Lemma underscore_lower c : Ascii.eqb (PyStr.lower_char c) "_" = Ascii.eqb c "_".
Proof. each_char c. Qed.

Lemma point_lower c : Ascii.eqb (PyStr.lower_char c) "." = Ascii.eqb c ".".
Proof. each_char c. Qed.

Lemma digit_value_lower c :
  PyStr.isdigit c = true -> PyStr.digit_value (PyStr.lower_char c) = PyStr.digit_value c.
Proof. destruct c as [[] [] [] [] [] [] [] []]; vm_compute; try reflexivity; discriminate. Qed.

Lemma lstrip_lower l :
  PyStr.lstrip_chars (map PyStr.lower_char l) = map PyStr.lower_char (PyStr.lstrip_chars l).
Proof.
  induction l as [|c l IH]; [reflexivity|]. cbn [map PyStr.lstrip_chars].
  rewrite isspace_lower. destruct (PyStr.isspace c); [exact IH | reflexivity].
Qed.

Lemma strip_lower l :
  PyStr.strip_chars (map PyStr.lower_char l) = map PyStr.lower_char (PyStr.strip_chars l).
Proof.
  unfold PyStr.strip_chars. now rewrite lstrip_lower, <- map_rev, lstrip_lower, <- map_rev.
Qed.

Lemma lstrip_starts_clean l : starts_clean (PyStr.lstrip_chars l) = true.
Proof.
  induction l as [|c l IH]; [reflexivity|]. cbn [PyStr.lstrip_chars].
  destruct (PyStr.isspace c) eqn:E; [exact IH|]. cbn. now rewrite E.
Qed.

Lemma lstrip_clean l : starts_clean l = true -> PyStr.lstrip_chars l = l.
Proof.
  destruct l as [|c l]; [reflexivity|]. cbn. intros H. apply negb_true_iff in H.
  now rewrite H.
Qed.

Lemma starts_clean_app a b : a <> [] -> starts_clean (a ++ b) = starts_clean a.
Proof. destruct a; [congruence | reflexivity]. Qed.

(** Stripping from the left keeps a clean end. *)
Lemma lstrip_keeps_end : forall y,
  starts_clean (List.rev y) = true -> starts_clean (List.rev (PyStr.lstrip_chars y)) = true.
Proof.
  induction y as [|c y IH]; intros H; [reflexivity|]. cbn [PyStr.lstrip_chars].
  destruct (PyStr.isspace c) eqn:E; [|exact H].
  apply IH. cbn [List.rev] in H. destruct (List.rev y) as [|d r] eqn:Hr.
  - cbn in H. now rewrite E in H.
  - exact H.
Qed.

Lemma strip_clean l :
  starts_clean l = true -> starts_clean (List.rev l) = true -> PyStr.strip_chars l = l.
Proof.
  intros H1 H2. unfold PyStr.strip_chars.
  now rewrite (lstrip_clean l H1), (lstrip_clean _ H2), rev_involutive.
Qed.

Lemma strip_ends l :
  starts_clean (PyStr.strip_chars l) = true
  /\ starts_clean (List.rev (PyStr.strip_chars l)) = true.
Proof.
  unfold PyStr.strip_chars. rewrite rev_involutive. split; [|apply lstrip_starts_clean].
  apply lstrip_keeps_end. rewrite rev_involutive. apply lstrip_starts_clean.
Qed.

Lemma strip_strip l : PyStr.strip_chars (PyStr.strip_chars l) = PyStr.strip_chars l.
Proof. destruct (strip_ends l). now apply strip_clean. Qed.

Lemma chars_of_chars l : list_ascii_of_string (string_of_list_ascii l) = l.
Proof. apply list_ascii_of_string_of_list_ascii. Qed.

(** The characters of a stripped and lowered string. *)
Lemma chars_strip_lower value :
  PyStr.strip_chars (list_ascii_of_string (PyStr.strip (PyStr.lower value)))
  = map PyStr.lower_char (PyStr.strip_chars (list_ascii_of_string value)).
Proof.
  unfold PyStr.strip, PyStr.lower. rewrite !chars_of_chars, strip_strip. apply strip_lower.
Qed.

Lemma strip_lower_again value :
  PyStr.strip (PyStr.lower (PyStr.strip (PyStr.lower value)))
  = PyStr.strip (PyStr.lower value).
Proof.
  unfold PyStr.strip, PyStr.lower. rewrite !chars_of_chars. f_equal.
  rewrite !strip_lower, strip_strip, map_map.
  apply map_ext. intros c. apply lower_lower.
Qed.

Lemma strip_again value : PyStr.strip (PyStr.strip value) = PyStr.strip value.
Proof. unfold PyStr.strip. now rewrite chars_of_chars, strip_strip. Qed.

(** Lowering the characters does not change what the numeric parsers
    read. *)
Lemma sign_lower l :
  PyStr.sign (map PyStr.lower_char l)
  = (fst (PyStr.sign l), map PyStr.lower_char (snd (PyStr.sign l))).
Proof.
  destruct l as [|c l]; [reflexivity|]. cbn [map PyStr.sign].
  rewrite minus_lower, plus_lower.
  destruct (Ascii.eqb c "-"); [reflexivity|]. destruct (Ascii.eqb c "+"); reflexivity.
Qed.

Lemma digits_rest_lower : forall n l acc k,
  List.length l <= n ->
  PyStr.digits_rest acc k (map PyStr.lower_char l)
  = lower_rest (PyStr.digits_rest acc k l).
Proof.
  induction n as [|n IH]; intros l acc k Hn.
  - destruct l; [reflexivity | cbn in Hn; lia].
  - destruct l as [|c l]; [reflexivity|]. cbn [map PyStr.digits_rest List.length] in *.
    rewrite isdigit_lower, underscore_lower.
    destruct (PyStr.isdigit c) eqn:Hc.
    + rewrite (digit_value_lower c Hc). apply IH. lia.
    + destruct (Ascii.eqb c "_"); [|reflexivity].
      destruct l as [|d l]; [reflexivity|]. cbn [map List.length] in *.
      rewrite isdigit_lower. destruct (PyStr.isdigit d) eqn:Hd; [|reflexivity].
      rewrite (digit_value_lower d Hd). apply IH. lia.
Qed.

Lemma digitpart_lower l :
  PyStr.digitpart (map PyStr.lower_char l) = option_map lower_rest (PyStr.digitpart l).
Proof.
  destruct l as [|c l]; [reflexivity|]. cbn [map PyStr.digitpart].
  rewrite isdigit_lower. destruct (PyStr.isdigit c) eqn:Hc; [|reflexivity].
  rewrite (digit_value_lower c Hc). cbn [option_map]. f_equal.
  now apply (digits_rest_lower (List.length l)).
Qed.

Lemma number_lower l :
  PyStr.number (map PyStr.lower_char l) = option_map lower_rest (PyStr.number l).
Proof.
  unfold PyStr.number. rewrite digitpart_lower.
  destruct (PyStr.digitpart l) as [[[ip n] r]|]; cbn [option_map lower_rest].
  - destruct r as [|c r]; [reflexivity|]. cbn [map]. rewrite point_lower.
    destruct (Ascii.eqb c "."); [|reflexivity].
    rewrite digitpart_lower.
    destruct (PyStr.digitpart r) as [[[fp fd] r']|]; reflexivity.
  - destruct l as [|c r]; [reflexivity|]. cbn [map]. rewrite point_lower.
    destruct (Ascii.eqb c "."); [|reflexivity].
    rewrite digitpart_lower.
    destruct (PyStr.digitpart r) as [[[fp fd] r']|]; reflexivity.
Qed.

Lemma exponent_lower l : PyStr.exponent (map PyStr.lower_char l) = PyStr.exponent l.
Proof.
  destruct l as [|c l]; [reflexivity|]. cbn [map PyStr.exponent].
  rewrite lower_lower. destruct (Ascii.eqb (PyStr.lower_char c) "e"); [|reflexivity].
  rewrite sign_lower. destruct (PyStr.sign l) as [neg l']. cbn [fst snd].
  rewrite digitpart_lower.
  destruct (PyStr.digitpart l') as [[[v n] [|d r]]|]; reflexivity.
Qed.

Lemma float_of_chars_lower round l :
  float_of_chars round (map PyStr.lower_char l) = float_of_chars round l.
Proof.
  unfold float_of_chars. rewrite sign_lower.
  destruct (PyStr.sign l) as [neg l']. cbn [fst snd].
  rewrite map_map, (map_ext _ PyStr.lower_char lower_lower).
  destruct (_ || _); [reflexivity|]. destruct (String.eqb _ "nan"); [reflexivity|].
  rewrite number_lower.
  destruct (PyStr.number l') as [[[m fd] r]|]; cbn [option_map lower_rest]; [|reflexivity].
  now rewrite exponent_lower.
Qed.

Lemma int_of_chars_lower l : int_of_chars (map PyStr.lower_char l) = int_of_chars l.
Proof.
  unfold int_of_chars. rewrite sign_lower.
  destruct (PyStr.sign l) as [neg l']. cbn [fst snd]. rewrite digitpart_lower.
  destruct (PyStr.digitpart l') as [[[v n] [|d r]]|]; reflexivity.
Qed.

(** [float] and [int] read the stored text as they read the value. *)
Lemma float_stored round value :
  PyStr.float round (PyStr.strip (PyStr.lower value)) = PyStr.float round value.
Proof.
  change (float_of_chars round
            (PyStr.strip_chars (list_ascii_of_string (PyStr.strip (PyStr.lower value))))
          = float_of_chars round (PyStr.strip_chars (list_ascii_of_string value))).
  rewrite chars_strip_lower. apply float_of_chars_lower.
Qed.

Lemma int_stored value :
  PyStr.int (PyStr.strip (PyStr.lower value)) = PyStr.int value.
Proof.
  change (int_of_chars
            (PyStr.strip_chars (list_ascii_of_string (PyStr.strip (PyStr.lower value))))
          = int_of_chars (PyStr.strip_chars (list_ascii_of_string value))).
  rewrite chars_strip_lower. apply int_of_chars_lower.
Qed.

Lemma chars_app a b :
  list_ascii_of_string (a ++ b) = list_ascii_of_string a ++ list_ascii_of_string b.
Proof. induction a as [|c a IH]; [reflexivity|]. cbn. now rewrite IH. Qed.

Lemma split_chars_run w : forall cur l,
  Forall (fun c => PyStr.isspace c = false) w ->
  PyStr.split_chars cur (w ++ l) = PyStr.split_chars (List.rev w ++ cur) l.
Proof.
  induction w as [|c w IH]; intros cur l Hw; [reflexivity|].
  inversion Hw as [|? ? Hc Hw']; subst. cbn [app PyStr.split_chars List.rev].
  rewrite Hc, (IH _ _ Hw'). now rewrite <- app_assoc.
Qed.

Lemma split_chars_tokens : forall l cur,
  Forall (fun c => PyStr.isspace c = false) cur ->
  Forall token (PyStr.split_chars cur l).
Proof.
  assert (Hrev : forall cur, cur <> [] ->
            Forall (fun c => PyStr.isspace c = false) cur -> token (List.rev cur)).
  { intros cur Hne Hcur. split; [|now apply Forall_rev].
    intros H. apply Hne. apply (f_equal (@List.rev ascii)) in H.
    now rewrite rev_involutive in H. }
  induction l as [|c l IH]; intros cur Hcur; cbn [PyStr.split_chars].
  - destruct cur as [|d cur]; constructor; [|constructor]. now apply Hrev.
  - destruct (PyStr.isspace c) eqn:Hc.
    + destruct cur as [|d cur]; [now apply IH|].
      constructor; [now apply Hrev | now apply IH].
    + apply IH. now constructor.
Qed.

(** Joining tokens by single blanks gives a text that splits into the same
    tokens. *)
Lemma split_joined : forall T,
  Forall token T ->
  PyStr.split_chars [] (list_ascii_of_string (PyStr.join " " (map string_of_list_ascii T)))
  = T.
Proof.
  induction T as [|w T IH]; intros HT; [reflexivity|].
  inversion HT as [|? ? [Hne Hw] HT']; subst.
  assert (Hrev : List.rev w <> []).
  { intros H. apply Hne. apply (f_equal (@List.rev ascii)) in H.
    now rewrite rev_involutive in H. }
  destruct T as [|w' T].
  - cbn [map PyStr.join]. rewrite chars_of_chars.
    rewrite <- (app_nil_r w) at 1. rewrite (split_chars_run w [] [] Hw), app_nil_r.
    cbn [PyStr.split_chars]. destruct (List.rev w) eqn:E; [congruence|].
    now rewrite <- E, rev_involutive.
  - change (PyStr.join " " (map string_of_list_ascii (w :: w' :: T)))
      with (string_of_list_ascii w ++ " "
            ++ PyStr.join " " (map string_of_list_ascii (w' :: T)))%string.
    rewrite !chars_app, chars_of_chars, (split_chars_run w [] _ Hw), app_nil_r.
    cbn [list_ascii_of_string app PyStr.split_chars].
    change (PyStr.isspace " ") with true. cbv iota.
    destruct (List.rev w) eqn:E; [congruence|].
    rewrite <- E, rev_involutive. f_equal. now apply IH.
Qed.

Lemma split_join_split value :
  PyStr.split (PyStr.join " " (PyStr.split value)) = PyStr.split value.
Proof.
  unfold PyStr.split at 1 3. f_equal. unfold PyStr.split.
  apply split_joined. apply split_chars_tokens. constructor.
Qed.


Section WriteBack.
Variable R : Resources.

(** [setValue] on a leaf, by whether the value is accepted. *)
Lemma setValue_accepted xpath value s element schema :
  findall (_xmlTree s) xpath = [element] ->
  schema_find R (tag_path (_xmlTree s) element) = Some schema ->
  has_simple_content schema = true ->
  if accepts R schema value
  then setValue R xpath value s = after_write R element (stored_text schema value) s
  else snd (setValue R xpath value s) <> Return None
       /\ _xmlTree (fst (setValue R xpath value s)) = _xmlTree s.
Proof.
  intros Hf Hs Hc.
  destruct (setValue R xpath value s) as [s1 r1] eqn:E. revert E. cbn [fst snd].
  unfold setValue. unfold bind at 1. unfold single. cbv beta. rewrite Hf.
  unfold bind at 1. unfold leaf_schema. cbv beta. rewrite Hs, Hc.
  unfold accepts, stored_text, numeric_leaf, parse_declared, option_map.
  repeat break_match; try discriminate;
    try (rewrite store_then_validate; intros <-; reflexivity);
    try (intros [= <- <-]; split; [discriminate | reflexivity]);
    try match goal with
        | |- context [check_and_store R element value ?d ?lo ?hi s] =>
            destruct (check_and_store_cases R element value d lo hi s)
              as [[Hout He]|(Hlo & Hhi & He)]; rewrite He;
            match goal with
            | Hacc : negb (below d lo) && negb (above d hi) = _ |- _ =>
                try (rewrite Hlo, Hhi in Hacc; cbn in Hacc; discriminate Hacc);
                try (destruct (below d lo), (above d hi); cbn in Hout, Hacc; congruence)
            end
        end;
    try (intros <-; reflexivity);
    try (intros [= <- <-]; split; [discriminate | reflexivity]).
Qed.

Lemma list_update_twice {A} (g : A -> A) : forall k (l : list A),
  (forall x, g (g x) = g x) -> list_update k g (list_update k g l) = list_update k g l.
Proof.
  intros k l Hg. revert k. induction l as [|y l IH]; intros [|k]; cbn [list_update];
    try reflexivity; [now rewrite Hg | now rewrite IH].
Qed.

Lemma update_twice f : forall p root,
  (forall e, f (f e) = f e) -> update p f (update p f root) = update p f root.
Proof.
  induction p as [|k p IH]; intros root Hf; [apply Hf|].
  cbn [update tag attrib text children]. f_equal.
  generalize (children root). intros l. revert k.
  induction l as [|y l IHl]; intros [|k]; cbn [list_update]; try reflexivity.
  - now rewrite IH.
  - now rewrite IHl.
Qed.

Lemma written_twice element txt s :
  written element txt (written element txt s) = written element txt s.
Proof.
  unfold written, set_modified, mutate, set_xmlTree. cbn. f_equal.
  now apply update_twice.
Qed.

(** The stored text is stored as it is. *)
Lemma stored_text_again schema value :
  stored_text schema (stored_text schema value) = stored_text schema value.
Proof.
  unfold stored_text. destruct (numeric_leaf schema); [apply strip_lower_again|].
  destruct (String.eqb _ _); [|apply strip_again].
  now rewrite split_join_split.
Qed.

(** A value that was accepted is accepted in its stored form, unless the
    leaf is enumerated. *)
Lemma accepts_stored schema value :
  enumerated schema = false ->
  accepts R schema value = true -> accepts R schema (stored_text schema value) = true.
Proof.
  unfold enumerated, accepts, stored_text, parse_declared.
  destruct (numeric_leaf schema) as [[[integer lo] hi]|].
  - intros _. destruct integer; [now rewrite int_stored | now rewrite float_stored].
  - destruct (String.eqb (local_name schema) "inputNumberListType"); cbn [negb andb].
    + intros _. now rewrite split_join_split.
    + now intros ->.
Qed.

End WriteBack.



(** *** Enumerated leaves *)



(** *** New entities in the listings *)

Lemma entity_rows_in root idattr fields : forall elements rows p e i id,
  entity_rows root idattr fields elements = Return rows ->
  In p elements -> get root p = Some e ->
  assoc_get idattr (attrib e) = Some i -> PyStr.int i = Some id ->
  In (id, map (fun f => field_text f e) fields) rows.
Proof.
  induction elements as [|q rest IH]; intros rows p e i id Hrows Hin He Hi Hid;
    [contradiction|].
  cbn [entity_rows] in Hrows.
  destruct (get root q) as [e'|] eqn:He'; [|discriminate].
  destruct (assoc_get idattr (attrib e')) as [i'|] eqn:Hi'; [|discriminate].
  destruct (PyStr.int i') as [id'|] eqn:Hid'; [|discriminate].
  destruct (forallb _ fields); [|discriminate].
  destruct (entity_rows root idattr fields rest) as [rows'|x] eqn:Hrest; [|discriminate].
  injection Hrows as <-. destruct Hin as [-> | Hin].
  - left. assert (e' = e) by congruence. subst e'.
    assert (id' = id) by congruence. subst id'. reflexivity.
  - right. now apply (IH rows' p e i id).
Qed.

(** The text set on the first child of a tag is what the listing reads
    under that tag; the other fields read as before. *)
Lemma set_child_text_field t txt e e' :
  set_child_text t txt e = Some e' ->
  field_text t e' = Some txt
  /\ forall f, String.eqb t f = false -> field_text f e' = field_text f e.
Proof.
  unfold set_child_text, field_text.
  destruct (set_first_child_text t txt (children e)) as [cs|] eqn:Hcs; [|discriminate].
  intros [= <-]. cbn [children]. revert cs Hcs.
  induction (children e) as [|c l IH]; intros cs Hcs; [discriminate|].
  cbn [set_first_child_text] in Hcs.
  destruct (String.eqb (tag c) t) eqn:Htag.
  - injection Hcs as <-. cbn [List.find set_text tag]. rewrite Htag. split; [reflexivity|].
    intros f Hf. apply String.eqb_eq in Htag. rewrite Htag, Hf. reflexivity.
  - destruct (set_first_child_text t txt l) as [r|]; [|discriminate].
    injection Hcs as <-. cbn [List.find]. rewrite Htag.
    destruct (IH r eq_refl) as [H1 H2]. split; [exact H1|].
    intros f Hf. destruct (String.eqb (tag c) f); [reflexivity | now apply H2].
Qed.

(** The child whose text [set_child_text] has set. *)
Lemma set_child_text_child t txt e e' :
  set_child_text t txt e = Some e' ->
  tag e' = tag e
  /\ exists i c, nth_error (children e') i = Some c
                 /\ String.eqb (tag c) t = true /\ text c = Some txt.
Proof.
  unfold set_child_text.
  destruct (set_first_child_text t txt (children e)) as [cs|] eqn:Hcs; [|discriminate].
  intros [= <-]. split; [reflexivity|]. cbn [children]. revert cs Hcs.
  induction (children e) as [|c l IH]; intros cs Hcs; [discriminate|].
  cbn [set_first_child_text] in Hcs.
  destruct (String.eqb (tag c) t) eqn:Htag.
  - injection Hcs as <-. exists 0, (set_text (Some txt) c). now repeat split.
  - destruct (set_first_child_text t txt l) as [r|]; [|discriminate].
    injection Hcs as <-. destruct (IH r eq_refl) as (i & d & Hi & Hd).
    now exists (S i), d.
Qed.

Section Listings.
Variable R : Resources.

Lemma add_scoped_listed maxIndex rname ename container entity idattr template patch fields
    s s' index rows :
  String.eqb container "name" = false ->
  tag template = entity ->
  (forall e e', patch e = Some e' -> tag e' = tag e /\ attrib e' = attrib e) ->
  add_scoped R maxIndex rname ename container entity idattr template patch s
    = (s', Return index) ->
  entity_rows (_xmlTree s') idattr fields
    (findall (_xmlTree s') (Descendant (st_named "region" rname) [st container; st entity]))
    = Return rows ->
  exists new,
    set_child_text "name" ename template <> None
    /\ option_map patch
         (option_map (set_attr idattr (PyStr.str_of_nat index))
                     (set_child_text "name" ename template)) = Some (Some new)
    /\ In (Z.of_nat index, map (fun f => field_text f new) fields) rows.
Proof.
  intros Hcontainer Htag Hpatch Hadd Hrows.
  destruct (add_scoped_returns R _ _ _ _ _ _ _ _ _ _ _ Hadd)
    as (parent & named & new & Hnamed & Hnew & Hparent & ->).
  exists new. rewrite Hnamed. cbn [option_map]. rewrite Hnew.
  split; [discriminate|]. split; [reflexivity|].
  destruct (Hpatch _ _ Hnew) as [Htag' Hattr'].
  destruct (set_child_text_child _ _ _ _ Hnamed) as [Hntag _].
  cbn [mutate _xmlTree set_xmlTree] in Hrows.
  destruct (appended_child_is_reached (_xmlTree s) (st_named "region" rname) container
              parent new (st entity)) as (pe & Hpe & Hx & Hin).
  - unfold keeps_matching. cbn. now rewrite Hcontainer.
  - exact Hparent.
  - unfold step_matches, st. cbn [step_tag step_pred pred_holds].
    rewrite Htag'. cbn [set_attr tag]. rewrite Hntag, Htag. now rewrite String.eqb_refl.
  - apply (entity_rows_in _ _ _ _ rows _ new (PyStr.str_of_nat index) _ Hrows Hin Hx).
    + rewrite Hattr'. cbn [set_attr attrib]. apply assoc_get_set.
    + apply int_of_str.
Qed.

Lemma add_monitor_listed group kind prefix template s s' name :
  tag template = kind ->
  add_monitor R group kind prefix template s = (s', Return name) ->
  In name (monitor_names group kind (_xmlTree s')).
Proof.
  intros Htag. unfold add_monitor.
  destruct (free_name prefix _) as [monitorName|]; [|discriminate].
  destruct (set_child_text "name" monitorName template) as [monitor|] eqn:Hmon;
    [|discriminate].
  destruct (find (_xmlTree s) (Descendant (st "monitors") [st group])) as [parent|] eqn:Hp;
    [|discriminate].
  unfold bind, assertValid, ret. destruct (schema_valid R _); [|discriminate].
  intros [= <- <-]. cbn [mutate _xmlTree set_xmlTree].
  destruct (set_child_text_child _ _ _ _ Hmon) as (Hmtag & i & c & Hi & Hc & Htext).
  destruct (appended_child_is_reached (_xmlTree s) (st "monitors") group parent monitor
              (st kind)) as (pe & Hpe & Hx & Hin).
  - reflexivity.
  - exact Hp.
  - unfold step_matches, st. cbn [step_tag step_pred pred_holds].
    rewrite Hmtag, Htag. now rewrite String.eqb_refl.
  - set (root' := update parent (append monitor) (_xmlTree s)) in *.
    set (q := parent ++ [List.length (children pe)]) in *.
    assert (Hname : get root' (q ++ [i]) = Some c) by now rewrite get_app, Hx.
    unfold monitor_names, xpath_text. apply in_flat_map. exists (q ++ [i]). split.
    + change (findall root' (Descendant (st "monitors") [st group; st kind; st "name"]))
        with (select_child root' (st "name")
                (findall root' (Descendant (st "monitors") [st group; st kind]))).
      apply select_child_has; [exact Hin|].
      unfold matches_at. rewrite Hname. unfold step_matches, st.
      cbn [step_tag step_pred pred_holds]. now rewrite Hc.
    + rewrite Hname, Htext. now left.
Qed.

End Listings.

(** X18: a new cell zone or boundary condition is listed. With templates
    whose roots carry the tags of their kinds: after [addCellZone] has
    returned an id, every list [getCellZones] returns for the region has a
    row with that id and the name; after [addBoundaryCondition], every list
    [getBoundaryConditions] returns has a row with the id, the name and the
    physical type of the template. *)
Theorem new_entity_is_listed (R : Resources) (s s' : CoreDB) :
  templates_tagged R = true ->
  (forall rname zname index rows,
     addCellZone R rname zname s = (s', Return index) ->
     snd (getCellZones rname s') = Return rows ->
     In (Z.of_nat index, [Some zname]) rows)
  /\ (forall rname bname g index rows,
        addBoundaryCondition R rname bname g s = (s', Return index) ->
        snd (getBoundaryConditions rname s') = Return rows ->
        In (Z.of_nat index,
            [Some bname; field_text "physicalType" (BOUNDARY_CONDITION_PATH R)]) rows).
Proof.
  unfold templates_tagged. rewrite !andb_true_iff.
  intros [[[[[Hcz Hbc] Hfm] Hpm] Hsm] Hvm].
  apply String.eqb_eq in Hcz, Hbc.
  split.
  - intros rname zname index rows Hadd Hrows. unfold addCellZone in Hadd.
    unfold getCellZones in Hrows. cbn [snd] in Hrows.
    assert (Hsome : forall e e' : Element,
              Some e = Some e' -> tag e' = tag e /\ attrib e' = attrib e)
      by (intros e e' [= <-]; now split).
    destruct (add_scoped_listed R CELL_ZONE_MAX_INDEX rname zname "cellZones" "cellZone"
                "czid" (CELL_ZONE_PATH R) Some ["name"] s s' index rows
                eq_refl Hcz Hsome Hadd Hrows) as (new & Hnamed & Hnew & Hin).
    destruct (set_child_text "name" zname (CELL_ZONE_PATH R)) as [named|] eqn:E;
      [|congruence].
    cbn [option_map] in Hnew. injection Hnew as <-.
    destruct (set_child_text_field _ _ _ _ E) as [Hfield _].
    cbn [map] in Hin. unfold field_text in Hin, Hfield. cbn [set_attr children] in Hin.
    now rewrite Hfield in Hin.
  - intros rname bname g index rows Hadd Hrows. unfold addBoundaryCondition in Hadd.
    unfold getBoundaryConditions in Hrows. cbn [snd] in Hrows.
    assert (Hpatch : forall e e',
              match g with
              | Some g0 => set_child_text "geometricalType" g0 e
              | None => Some e
              end = Some e' -> tag e' = tag e /\ attrib e' = attrib e).
    { intros e e'. destruct g as [g0|]; [|now intros [= <-]].
      intros H. destruct (other_child_text "geometricalType" g0 bname e e' eq_refl H)
        as (Ht & Ha & _). now split. }
    destruct (add_scoped_listed R BOUNDARY_CONDITION_MAX_INDEX rname bname
                "boundaryConditions" "boundaryCondition" "bcid"
                (BOUNDARY_CONDITION_PATH R) _ ["name"; "physicalType"] s s' index rows
                eq_refl Hbc Hpatch Hadd Hrows) as (new & Hnamed & Hnew & Hin).
    destruct (set_child_text "name" bname (BOUNDARY_CONDITION_PATH R)) as [named|] eqn:E;
      [|congruence].
    cbn [option_map] in Hnew. injection Hnew as Hnew.
    destruct (set_child_text_field _ _ _ _ E) as [Hname Hother].
    assert (Hfields : field_text "name" new = Some bname
                      /\ field_text "physicalType" new
                         = field_text "physicalType" (BOUNDARY_CONDITION_PATH R)).
    { destruct g as [g0|].
      - destruct (set_child_text_field _ _ _ _ Hnew) as [_ Hg].
        rewrite !Hg by reflexivity. unfold field_text in *. cbn [set_attr children].
        split; [exact Hname | now apply Hother].
      - injection Hnew as <-. unfold field_text in *. cbn [set_attr children].
        split; [exact Hname | now apply Hother]. }
    destruct Hfields as [H1 H2]. cbn [map] in Hin. now rewrite H1, H2 in Hin.
Qed.

Lemma new_entity_is_listed_witness :
  let s := fst (addRegion Sample.resources "R1" Sample.fresh) in
  let s' := fst (addBoundaryCondition Sample.resources "R1" "inlet" (Some "patch") s) in
  exists rows, snd (getBoundaryConditions "R1" s') = Return rows
               /\ In (1%Z, [Some "inlet"; Some "wall"]) rows.
Proof.
  intros s s'.
  destruct (new_entity_is_listed Sample.resources s s' eq_refl) as (_ & H).
  assert (Hadd : addBoundaryCondition Sample.resources "R1" "inlet" (Some "patch") s
                 = (s', Return 1)) by (vm_compute; reflexivity).
  assert (Hrows : snd (getBoundaryConditions "R1" s')
                  = Return [(1%Z, [Some "inlet"; Some "wall"])])
    by (vm_compute; reflexivity).
  eexists. split; [exact Hrows|].
  exact (H "R1" "inlet" (Some "patch") 1 _ Hadd Hrows).
Defined.


(** X19: a new monitor is listed. With templates whose roots carry the tags
    of their kinds, after a monitor has been added the listing of its kind
    has the name the adding call returned. *)
Theorem new_monitor_is_listed (R : Resources) (add : M string)
    (group kind prefix name : string) (s s' : CoreDB) :
  templates_tagged R = true ->
  In (add, group, kind, prefix) (registries R) ->
  add s = (s', Return name) ->
  exists names, get_monitors group kind s' = (s', Return names) /\ In name names.
Proof.
  unfold templates_tagged. rewrite !andb_true_iff.
  intros [[[[[Hcz Hbc] Hfm] Hpm] Hsm] Hvm] Hin Hadd.
  apply String.eqb_eq in Hfm, Hpm, Hsm, Hvm.
  eexists. split; [reflexivity|].
  cbn [registries In] in Hin.
  destruct Hin as [H|[H|[H|[H|[]]]]]; injection H as <- <- <- <-;
    eapply add_monitor_listed; eauto.
Qed.

Lemma new_monitor_is_listed_witness :
  let s' := fst (addSurfaceMonitor Sample.resources Sample.fresh) in
  exists names, getSurfaceMonitors s' = (s', Return names) /\ In "surface-mon-1" names.
Proof.
  intros s'.
  apply (new_monitor_is_listed Sample.resources (addSurfaceMonitor Sample.resources)
           "surfaces" "surfaceMonitor" SURFACE_MONITOR_DEFAULT_NAME "surface-mon-1"
           Sample.fresh s' eq_refl).
  - right. right. left. reflexivity.
  - vm_compute. reflexivity.
Defined.
